(** * SqliteFtpBackup: the snapshot engine, the FTP transport client and the
    backup orchestrator, embedded from the C++ sources.

    - [SqliteHelper.cpp]  : [SqliteHelper::backupToFile], [getRowCount]
    - [FtpUploader.cpp/.h]: [FtpUploader], [buildUrl], [curlProgress],
                            [sleepForBackoff], [uploadFile]
    - [main.cpp]          : [TempFileRemover], [BackupManager::run]
    - [Logger.h]          : level filtering of [Logger::log]

    C++ [int]/[long]/[int64_t] values are modelled as [Z]; no operation of the
    modelled code leaves the range of its type (the attempt counter stays
    below [maxRetries], the backoff factor is at most [2^6]), so no wrap-around
    is written out.  [std::string] is [string]. *)

From Stdlib Require Import ZArith List String Ascii Bool Lia.
From Stdlib Require Import DecimalString.
Import ListNotations.
Local Open Scope string_scope.
Local Open Scope Z_scope.

(** ** Strings *)

Module Str.

(** [std::to_string(int)] and [ostream << int] in the "C" locale. *)
Definition to_string (z : Z) : string := NilZero.string_of_int (Z.to_int z).

(** [std::replace(s.begin(), s.end(), from, to)] *)
Fixpoint replace (from to : ascii) (s : string) : string :=
  match s with
  | EmptyString => EmptyString
  | String c r => String (if Ascii.eqb c from then to else c) (replace from to r)
  end.

(** [while (!s.empty() && s.front() == ch) s.erase(s.begin());] *)
Fixpoint erase_front_while (ch : ascii) (s : string) : string :=
  match s with
  | EmptyString => EmptyString
  | String c r => if Ascii.eqb c ch then erase_front_while ch r else s
  end.

Fixpoint rev_append (s acc : string) : string :=
  match s with
  | EmptyString => acc
  | String c r => rev_append r (String c acc)
  end.

Definition rev (s : string) : string := rev_append s EmptyString.

(** [while (!s.empty() && s.back() == ch) s.pop_back();] : the same loop as
    [erase_front_while], run from the other end of the string. *)
Definition pop_back_while (ch : ascii) (s : string) : string :=
  rev (erase_front_while ch (rev s)).

(** [n] copies of [ch] *)
Fixpoint replicate (n : nat) (ch : ascii) : string :=
  match n with
  | O => EmptyString
  | S k => String ch (replicate k ch)
  end.

Definition empty (s : string) : bool :=
  match s with EmptyString => true | _ => false end.

(** [std::filesystem::path(p).filename().string()] for a POSIX path: the text
    after the last directory separator. *)
Fixpoint filename_aux (s cur : string) : string :=
  match s with
  | EmptyString => rev cur
  | String c r =>
      if Ascii.eqb c "/"%char then filename_aux r EmptyString
      else filename_aux r (String c cur)
  end.

Definition filename (p : string) : string := filename_aux p EmptyString.

(** The lines [std::getline] reads from a [std::stringstream] over [s]. *)
Fixpoint lines_aux (s cur : string) : list string :=
  match s with
  | EmptyString => match cur with EmptyString => [] | _ => [rev cur] end
  | String c r =>
      if Ascii.eqb c "010"%char then rev cur :: lines_aux r EmptyString
      else lines_aux r (String c cur)
  end.

Definition lines (s : string) : list string := lines_aux s EmptyString.

End Str.

(** ** FtpUploader: the object and its configuration *)

(** The arguments curl hands to the transfer-info callback. *)
Record XferInfo := mkXfer { dltotal : Z; dlnow : Z; ultotal : Z; ulnow : Z }.

(** C++ exceptions: everything the sources throw derives from
    [std::exception] and carries [what()]; [NonStdException] is what only
    [catch (...)] can catch. *)
Inductive exn :=
| StdException (what : string)
| NonStdException.

Definition runtime_error (msg : string) : exn := StdException msg.

Module Logger.
Inductive Level := DEBUG | INFO | WARNING | ERROR.

Definition rank (l : Level) : Z :=
  match l with DEBUG => 0 | INFO => 1 | WARNING => 2 | ERROR => 3 end.
End Logger.
Import Logger.

(** What one call of a caller-supplied progress callback does: the log calls it
    makes, and whether it returns or throws. *)
Record CbOutcome := mkCb { cb_logs : list (Level * string); cb_throw : option exn }.

(** [std::function<void(double,double,double,double)>]; [None] is the empty
    function ([nullptr]). *)
Definition ProgressCallback := option (XferInfo -> CbOutcome).

Record FtpUploader := mkFtpUploader {
  host : string;
  port : Z;
  user : string;
  pass : string;
  timeoutSeconds : Z;
  maxRetries : Z;
  verbose : bool;
  sslVerify : bool;
  progressCb : ProgressCallback;
  lastError : string
}.

(** The default member initializers of the class declaration ([FtpUploader.h]),
    which the constructor's initializer list overrides. *)
Module Declared.
Definition timeoutSeconds : Z := 30.
Definition maxRetries : Z := 3.
Definition verbose : bool := false.
Definition sslVerify : bool := true.
End Declared.

Definition setTimeout (seconds : Z) (u : FtpUploader) : FtpUploader :=
  mkFtpUploader (host u) (port u) (user u) (pass u) seconds (maxRetries u)
    (verbose u) (sslVerify u) (progressCb u) (lastError u).

Definition setRetries (count : Z) (u : FtpUploader) : FtpUploader :=
  mkFtpUploader (host u) (port u) (user u) (pass u) (timeoutSeconds u) (Z.max 1 count)
    (verbose u) (sslVerify u) (progressCb u) (lastError u).

Definition enableVerbose (v : bool) (u : FtpUploader) : FtpUploader :=
  mkFtpUploader (host u) (port u) (user u) (pass u) (timeoutSeconds u) (maxRetries u)
    v (sslVerify u) (progressCb u) (lastError u).

Definition setProgressCallback (cb : ProgressCallback) (u : FtpUploader) : FtpUploader :=
  mkFtpUploader (host u) (port u) (user u) (pass u) (timeoutSeconds u) (maxRetries u)
    (verbose u) (sslVerify u) cb (lastError u).

Definition setSslVerify (v : bool) (u : FtpUploader) : FtpUploader :=
  mkFtpUploader (host u) (port u) (user u) (pass u) (timeoutSeconds u) (maxRetries u)
    (verbose u) v (progressCb u) (lastError u).

Definition setLastError (e : string) (u : FtpUploader) : FtpUploader :=
  mkFtpUploader (host u) (port u) (user u) (pass u) (timeoutSeconds u) (maxRetries u)
    (verbose u) (sslVerify u) (progressCb u) e.

Definition getLastError (u : FtpUploader) : string := lastError u.

(** [FtpUploader::buildUrl] *)
Definition cleanDir (remoteDir : string) : string :=
  let cleanedDir := Str.replace "\"%char "/"%char remoteDir in
  let cleanedDir := Str.erase_front_while "/"%char cleanedDir in
  Str.pop_back_while "/"%char cleanedDir.

Definition buildUrl (u : FtpUploader) (remoteDir filename : string) : string :=
  let cleanedDir := cleanDir remoteDir in
  let url := "ftp://" ++ host u in
  let url := if 0 <? port u then url ++ ":" ++ Str.to_string (port u) else url in
  let url := if negb (Str.empty cleanedDir) then url ++ "/" ++ cleanedDir else url in
  url ++ "/" ++ filename.

(** ** The world outside the program

    A run is observed through the ordered trace of the calls the program makes
    on its collaborators (the logging sink, the clock, libcurl, SQLite, the
    filesystem) and through the files on disk. *)

(** A database image: the pages of a store, in order. *)
Definition Page := string.
Definition Db := list Page.

Module Curl.
(** The libcurl constants the sources use (values of [curl/curl.h]). *)
Definition CURLE_OK : Z := 0.
Definition CURLE_ABORTED_BY_CALLBACK : Z := 42.
Definition CURLUSESSL_ALL : Z := 3.
Definition CURLFTP_CREATE_DIR_RETRY : Z := 2.

Inductive Option_ :=
| CURLOPT_URL | CURLOPT_USERNAME | CURLOPT_PASSWORD
| CURLOPT_USE_SSL | CURLOPT_SSL_VERIFYPEER | CURLOPT_SSL_VERIFYHOST
| CURLOPT_UPLOAD | CURLOPT_READDATA
| CURLOPT_FTP_CREATE_MISSING_DIRS | CURLOPT_CONNECTTIMEOUT | CURLOPT_FTP_RESPONSE_TIMEOUT
| CURLOPT_WRITEFUNCTION | CURLOPT_VERBOSE
| CURLOPT_XFERINFOFUNCTION | CURLOPT_XFERINFODATA | CURLOPT_NOPROGRESS
| CURLOPT_INFILESIZE_LARGE.

Definition Option_eqb (a b : Option_) : bool :=
  match a, b with
  | CURLOPT_URL, CURLOPT_URL | CURLOPT_USERNAME, CURLOPT_USERNAME
  | CURLOPT_PASSWORD, CURLOPT_PASSWORD | CURLOPT_USE_SSL, CURLOPT_USE_SSL
  | CURLOPT_SSL_VERIFYPEER, CURLOPT_SSL_VERIFYPEER
  | CURLOPT_SSL_VERIFYHOST, CURLOPT_SSL_VERIFYHOST
  | CURLOPT_UPLOAD, CURLOPT_UPLOAD | CURLOPT_READDATA, CURLOPT_READDATA
  | CURLOPT_FTP_CREATE_MISSING_DIRS, CURLOPT_FTP_CREATE_MISSING_DIRS
  | CURLOPT_CONNECTTIMEOUT, CURLOPT_CONNECTTIMEOUT
  | CURLOPT_FTP_RESPONSE_TIMEOUT, CURLOPT_FTP_RESPONSE_TIMEOUT
  | CURLOPT_WRITEFUNCTION, CURLOPT_WRITEFUNCTION | CURLOPT_VERBOSE, CURLOPT_VERBOSE
  | CURLOPT_XFERINFOFUNCTION, CURLOPT_XFERINFOFUNCTION
  | CURLOPT_XFERINFODATA, CURLOPT_XFERINFODATA
  | CURLOPT_NOPROGRESS, CURLOPT_NOPROGRESS
  | CURLOPT_INFILESIZE_LARGE, CURLOPT_INFILESIZE_LARGE => true
  | _, _ => false
  end.

(** The argument of a [curl_easy_setopt] call. *)
Inductive Value :=
| VString (s : string)
| VLong (n : Z)
| VFile (path : string)                  (* the [FILE*] opened on [path] *)
| VWriteCallback                          (* [writeCallback] *)
| VCurlProgress                           (* [curlProgress] *)
| VClient (cb : ProgressCallback).       (* [&progressCb] *)

(** An easy handle is the sequence of options set on it. *)
Definition Handle := list (Option_ * Value).

(** The value in force for an option: the last one set. *)
Fixpoint getopt (o : Option_) (h : Handle) : option Value :=
  match h with
  | [] => None
  | (o', v) :: r =>
      match getopt o r with
      | Some v' => Some v'
      | None => if Option_eqb o o' then Some v else None
      end
  end.
End Curl.
Import Curl.

Module Sqlite.
(** Result codes of [sqlite3.h]. *)
Definition SQLITE_OK : Z := 0.
Definition SQLITE_BUSY : Z := 5.
Definition SQLITE_LOCKED : Z := 6.
Definition SQLITE_DONE : Z := 101.
End Sqlite.
Import Sqlite.

Inductive Event :=
| EvLog (lvl : Level) (msg : string)      (* a call of [Logger::log] *)
| EvSetLevel (lvl : Level)                (* [Logger::setLevel] *)
| EvSleep (ms : Z)                        (* [std::this_thread::sleep_for] *)
| EvFopen (path : string)
| EvCurlEasyInit
| EvCurlPerform (h : Handle)              (* [curl_easy_perform] on a handle *)
| EvSqliteOpen (path : string)
| EvBackupStep (nPage : Z)                (* [sqlite3_backup_step(b, nPage)] *)
| EvSqliteSleep (ms : Z)                  (* [sqlite3_sleep] *)
| EvRemove (path : string)                (* [std::filesystem::remove] *)
| EvSeedRng (seed : option Z).            (* [gen.seed]: with the seed of the environment,
                                             or ([None]) from [std::random_device] *)

Record World := mkWorld {
  trace : list Event;
  fs : string -> option Db
}.

Definition emit (e : Event) (w : World) : World :=
  mkWorld (trace w ++ [e]) (fs w).

Definition fs_write (p : string) (d : Db) (w : World) : World :=
  mkWorld (trace w) (fun q => if String.eqb q p then Some d else fs w q).

Definition fs_delete (p : string) (w : World) : World :=
  mkWorld (trace w) (fun q => if String.eqb q p then None else fs w q).

(** What the logging sink writes: [Logger::log] drops a message below the
    minimum level in force at the time of the call. *)
Fixpoint Logger_output (minLevel : Level) (t : list Event) : list (Level * string) :=
  match t with
  | [] => []
  | EvLog lvl msg :: r =>
      if rank lvl <? rank minLevel then Logger_output minLevel r
      else (lvl, msg) :: Logger_output minLevel r
  | EvSetLevel lvl :: r => Logger_output lvl r
  | _ :: r => Logger_output minLevel r
  end.

(** ** A state-and-exception monad for the C++ control flow

    [Diverge] is the result of a loop that was still running when its fuel
    ran out; nothing catches it and no destructor runs after it. *)

Inductive Res (A : Type) :=
| Ok (a : A)
| Throw (e : exn)
| Diverge.
Arguments Ok {A} a.
Arguments Throw {A} e.
Arguments Diverge {A}.

Definition M (S A : Type) := S -> Res A * S.

Definition ret {S A} (a : A) : M S A := fun s => (Ok a, s).

Definition bind {S A B} (m : M S A) (k : A -> M S B) : M S B :=
  fun s =>
    match m s with
    | (Ok a, s') => k a s'
    | (Throw e, s') => (Throw e, s')
    | (Diverge, s') => (Diverge, s')
    end.

Definition throw {S A} (e : exn) : M S A := fun s => (Throw e, s).

Definition get {S} : M S S := fun s => (Ok s, s).

Definition modify {S} (f : S -> S) : M S unit := fun s => (Ok tt, f s).

(** [try { body } catch (...) { handler }] *)
Definition try_catch {S A} (body : M S A) (handler : exn -> M S A) : M S A :=
  fun s =>
    match body s with
    | (Throw e, s') => handler e s'
    | r => r
    end.

(** A block with a local object: the destructor runs when the block is left,
    by falling off its end or by an exception passing through. *)
Definition scoped {S A} (dtor : M S unit) (body : M S A) : M S A :=
  fun s =>
    match body s with
    | (Diverge, s') => (Diverge, s')
    | (r, s') =>
        match dtor s' with
        | (Ok _, s'') => (r, s'')
        | (Throw e, s'') => (Throw e, s'')
        | (Diverge, s'') => (Diverge, s'')
        end
    end.

Declare Scope monad_scope.
Delimit Scope monad_scope with monad.
Notation "x <- m ;; k" := (bind m (fun x => k))
  (at level 61, m at next level, right associativity) : monad_scope.
Notation "m ;; k" := (bind m (fun _ => k))
  (at level 61, right associativity) : monad_scope.
Local Open Scope monad_scope.

(** Code of a method: the object's fields next to the world. *)
Definition liftW {X A} (m : M World A) : M (X * World) A :=
  fun s => let (r, w') := m (snd s) in (r, (fst s, w')).

Definition this {X} : M (X * World) X := fun s => (Ok (fst s), s).

Definition update {X} (f : X -> X) : M (X * World) unit :=
  fun s => (Ok tt, (f (fst s), snd s)).

(** A local object living for the duration of [body]. *)
Definition with_object {X A} (x : X) (body : M (X * World) A) : M World A :=
  fun w => let (r, s') := body (x, w) in (r, snd s').

(** *** Logger *)
Definition log (lvl : Level) (msg : string) : M World unit := modify (emit (EvLog lvl msg)).
Definition debug := log DEBUG.
Definition info := log INFO.
Definition warn := log WARNING.
Definition error := log ERROR.
Definition setLevel (lvl : Level) : M World unit := modify (emit (EvSetLevel lvl)).

(** ** FtpUploader.cpp *)

(** What the uploader's surroundings answer.  Attempts are identified by the
    value of the loop's [attempt] counter. *)
Record UploadEnv := mkUploadEnv {
  curl_global_init : Z;                       (* CURLcode of [curl_global_init] *)
  fopen_rb : Z -> bool;                       (* does [fopen(localFile, "rb")] succeed *)
  curl_easy_init : Z -> bool;                 (* does [curl_easy_init] give a handle *)
  file_size : Z -> option Z;                  (* [None]: [file_size] throws *)
  transfer : Z -> list XferInfo * Z;          (* progress reports made, and the CURLcode
                                                 of a transfer nobody aborts *)
  replies : Z -> list string;                 (* the chunks of server response text *)
  curl_easy_strerror : Z -> string
}.

(** Calling a [ProgressCallback] target.  The [curl_off_t] counters are handed
    over as they are (the cast to [double] is exact below 2^53). *)
Fixpoint log_all (l : list (Level * string)) : M World unit :=
  match l with
  | [] => ret tt
  | (lvl, msg) :: r => log lvl msg ;; log_all r
  end.

Definition invoke (cb : XferInfo -> CbOutcome) (x : XferInfo) : M World unit :=
  log_all (cb_logs (cb x)) ;;
  match cb_throw (cb x) with
  | Some e => throw e
  | None => ret tt
  end.

(** [curlProgress]: [clientp] is the [void*] user pointer, [None] when null. *)
Definition curlProgress (clientp : option ProgressCallback) (x : XferInfo) : M World Z :=
  match clientp with
  | Some (Some cb) =>
      try_catch (invoke cb x ;; ret 0)
                (fun _ => (* never throw from callback into curl *) ret 1)
  | _ => ret 0
  end.

(** [writeCallback]: logs the chunk line by line, and reports it consumed. *)
Definition writeCallback (chunk : string) : M World Z :=
  log_all (map (fun line => (INFO, "FTP server: " ++ line))
               (filter (fun line => negb (Str.empty line)) (Str.lines chunk))) ;;
  ret (Z.of_nat (String.length chunk)).

(** [sleepForBackoff] *)
Definition backoff_ms (attempt : Z) : Z :=
  500 * Z.shiftl 1 (Z.min (attempt - 1) 6).

Definition sleepForBackoff (attempt : Z) : M World unit :=
  modify (emit (EvSleep (backoff_ms attempt))).

(** libcurl's side of [curl_easy_perform], as its manual describes it: the
    write function receives the response text chunk by chunk; with progress
    reporting switched on the transfer-info function is called for every
    report, and a non-zero return aborts the transfer with
    [CURLE_ABORTED_BY_CALLBACK]. *)
Fixpoint deliver_replies (chunks : list string) : M World unit :=
  match chunks with
  | [] => ret tt
  | c :: r => writeCallback c ;; deliver_replies r
  end.

Fixpoint deliver_progress (fn : XferInfo -> M World Z) (reports : list XferInfo)
  : M World bool :=
  match reports with
  | [] => ret false
  | x :: r => rc <- fn x ;; if rc =? 0 then deliver_progress fn r else ret true
  end.

Definition clientp_of (h : Handle) : option ProgressCallback :=
  match getopt CURLOPT_XFERINFODATA h with
  | Some (VClient cb) => Some cb
  | _ => None
  end.

Definition curl_easy_perform (h : Handle) (net : list XferInfo * Z) (text : list string)
  : M World Z :=
  modify (emit (EvCurlPerform h)) ;;
  match getopt CURLOPT_WRITEFUNCTION h with
  | Some VWriteCallback => deliver_replies text
  | _ => ret tt
  end ;;
  match getopt CURLOPT_NOPROGRESS h, getopt CURLOPT_XFERINFOFUNCTION h with
  | Some (VLong 0), Some VCurlProgress =>
      aborted <- deliver_progress (curlProgress (clientp_of h)) (fst net) ;;
      ret (if aborted : bool then CURLE_ABORTED_BY_CALLBACK else snd net)
  | _, _ => ret (snd net)
  end.

(** [FtpUploader::FtpUploader] *)
Definition FtpUploader_ctor (env : UploadEnv) (host : string) (port : Z) (user pass : string)
  : M World FtpUploader :=
  let u := mkFtpUploader host port user pass
             (* timeoutSeconds *) 30 (* maxRetries *) 1 (* verbose *) false
             (* sslVerify *) true (* progressCb *) None (* lastError *) "" in
  (if negb (curl_global_init env =? CURLE_OK)
   then warn "curl_global_init failed, continuing but curl may misbehave."
   else ret tt) ;;
  info ("FtpUploader initialized for host: " ++ host) ;;
  ret u.

(** [FtpUploader::~FtpUploader] *)
Definition FtpUploader_dtor : M (FtpUploader * World) unit :=
  u <- this ;;
  liftW (info ("FtpUploader destroyed for host: " ++ host u)).

(** The [curl_easy_setopt] calls of one attempt, in order. *)
Definition configure (u : FtpUploader) (url localFile : string) (fsize : option Z) : Handle :=
  ([(CURLOPT_URL, VString url)]
  ++ (if negb (Str.empty (user u)) then [(CURLOPT_USERNAME, VString (user u))] else [])
  ++ (if negb (Str.empty (pass u)) then [(CURLOPT_PASSWORD, VString (pass u))] else [])
  ++ [(CURLOPT_USE_SSL, VLong CURLUSESSL_ALL);
      (CURLOPT_SSL_VERIFYPEER, VLong (if sslVerify u then 1 else 0));
      (CURLOPT_SSL_VERIFYHOST, VLong (if sslVerify u then 2 else 0));
      (CURLOPT_UPLOAD, VLong 1);
      (CURLOPT_READDATA, VFile localFile);
      (CURLOPT_FTP_CREATE_MISSING_DIRS, VLong CURLFTP_CREATE_DIR_RETRY);
      (CURLOPT_CONNECTTIMEOUT, VLong (timeoutSeconds u));
      (CURLOPT_FTP_RESPONSE_TIMEOUT, VLong (timeoutSeconds u));
      (CURLOPT_WRITEFUNCTION, VWriteCallback)]
  ++ (if verbose u then [(CURLOPT_VERBOSE, VLong 1)] else [])
  ++ (match progressCb u with
      | Some _ => [(CURLOPT_XFERINFOFUNCTION, VCurlProgress);
                   (CURLOPT_XFERINFODATA, VClient (progressCb u));
                   (CURLOPT_NOPROGRESS, VLong 0)]
      | None => [(CURLOPT_NOPROGRESS, VLong 1)]
      end)
  ++ (match fsize with
      | Some n => [(CURLOPT_INFILESIZE_LARGE, VLong n)]
      | None => []
      end))%list.

(** How the retry loop of [uploadFile] is left without an exception. *)
Inductive LoopExit :=
| Returned        (* [return] after a successful attempt *)
| Exhausted.      (* the loop condition became false *)

(** [while (attempt < maxRetries) { ... }] *)
Fixpoint upload_loop (env : UploadEnv) (localFile url filename : string)
    (fuel : nat) (attempt : Z) : M (FtpUploader * World) LoopExit :=
  match fuel with
  | O => fun s => (Diverge, s)
  | S fuel' =>
      u <- this ;;
      if attempt <? maxRetries u then
        let attempt := attempt + 1 in
        liftW (info ("FTP upload attempt " ++ Str.to_string attempt ++ " to URL: " ++ url)) ;;
        liftW (modify (emit (EvFopen localFile))) ;;
        if negb (fopen_rb env attempt) then
          liftW (error ("Failed to open local file: " ++ localFile)) ;;
          throw (runtime_error ("Failed to open local file: " ++ localFile))
        else
          liftW (modify (emit EvCurlEasyInit)) ;;
          if negb (curl_easy_init env attempt) then
            liftW (error "Failed to initialize curl") ;;
            throw (runtime_error "Failed to initialize curl")
          else
            let h := configure u url localFile (file_size env attempt) in
            update (setLastError "") ;;
            res <- liftW (curl_easy_perform h (transfer env attempt) (replies env attempt)) ;;
            if res =? CURLE_OK then
              liftW (info ("FTP upload succeeded: " ++ filename)) ;;
              ret Returned
            else
              update (setLastError (curl_easy_strerror env res)) ;;
              u' <- this ;;
              liftW (warn ("FTP upload attempt " ++ Str.to_string attempt ++ " failed: "
                           ++ lastError u')) ;;
              (if attempt <? maxRetries u' then
                 liftW (info "Retrying after backoff...") ;;
                 liftW (sleepForBackoff attempt)
               else ret tt) ;;
              upload_loop env localFile url filename fuel' attempt
      else ret Exhausted
  end.

(** [std::filesystem::exists] *)
Definition fs_exists (p : string) : M World bool :=
  fun w => (Ok (match fs w p with Some _ => true | None => false end), w).

(** [FtpUploader::uploadFile].  The loop runs at most [maxRetries] times, which
    is the fuel it is given. *)
Definition uploadFile (env : UploadEnv) (localFile remoteDir : string)
  : M (FtpUploader * World) unit :=
  liftW (info ("Preparing to upload file: " ++ localFile ++ " to " ++ remoteDir)) ;;
  present <- liftW (fs_exists localFile) ;;
  if negb present then
    liftW (error ("Local file does not exist: " ++ localFile)) ;;
    throw (runtime_error ("Local file does not exist: " ++ localFile))
  else
    u <- this ;;
    let filename := Str.filename localFile in
    let url := buildUrl u remoteDir filename in
    update (setLastError "") ;;
    exit <- upload_loop env localFile url filename (S (Z.to_nat (maxRetries u))) 0 ;;
    match exit with
    | Returned => ret tt
    | Exhausted =>
        u' <- this ;;
        liftW (error ("FTP upload failed after " ++ Str.to_string (maxRetries u')
                      ++ " attempts: " ++ lastError u')) ;;
        throw (runtime_error ("FTP upload failed: " ++ lastError u'))
    end.

(** ** SqliteHelper.cpp *)

(** The online-backup interface of SQLite ([sqlite3_backup_*]), the page-copy
    primitive the snapshot engine drives.  [bk_dest] is what the destination
    store holds after the steps made so far. *)
Record BackupApi := mkBackupApi {
  bk_handle : Type;
  sqlite3_backup_init : Db -> option bk_handle;        (* [None]: a null handle *)
  sqlite3_backup_step : bk_handle -> Z -> Z * bk_handle;
  sqlite3_backup_finish : bk_handle -> Z;
  bk_dest : bk_handle -> Db
}.

(** Outcome of running [SELECT COUNT( * ) FROM people] on a database image. *)
Inductive CountOutcome :=
| PrepareFails                      (* [sqlite3_prepare_v2] is not [SQLITE_OK] *)
| NoRow                             (* [sqlite3_step] is not [SQLITE_ROW] *)
| Row (n : Z).                      (* one row, holding the count *)

(** Outcome of the insert transaction of [insertRandomRows]. *)
Inductive InsertOutcome :=
| BeginFails
| InsertPrepareFails
| BindFails (row : Z)
| StepFails (row : Z)
| CommitFails
| Inserted (after : Db).

(** What [std::getenv("SQLITEHELPER_SEED")] holds, as [std::stoul] reads it. *)
Inductive SeedEnv :=
| SeedUnset                         (* the variable is not set *)
| SeedInvalid (what : string)       (* [std::stoul] throws *)
| SeedValue (seed : Z).

Record SqliteEnv := mkSqliteEnv {
  api : BackupApi;
  sqlite3_open : string -> bool;                  (* is the result [SQLITE_OK] *)
  sqlite3_errmsg : option string;                 (* [None]: a null message *)
  exec_create_table : Db -> string + Db;          (* error text, or the image after *)
  insert_rows : Z -> Db -> InsertOutcome;
  select_count : Db -> CountOutcome;
  db_timestamp : string;                          (* the clock, read by the constructor *)
  seed_env : SeedEnv
}.

(** The object: the connection is identified by the file it is open on. *)
Record SqliteHelper := mkSqliteHelper { dbPath : string }.

Definition errmsg_or (env : SqliteEnv) (dflt : string) : string :=
  match sqlite3_errmsg env with Some e => e | None => dflt end.

(** The image a connection reads. *)
Definition db_image (w : World) (p : string) : Db :=
  match fs w p with Some d => d | None => [] end.

(** [sqlite3_open] creates the file when it is missing. *)
Definition touch (p : string) (w : World) : World :=
  match fs w p with Some _ => w | None => fs_write p [] w end.

(** [SqliteHelper::SqliteHelper] *)
Definition SqliteHelper_ctor (env : SqliteEnv) (dbPathPrefix : string) : M World SqliteHelper :=
  let dbPath := dbPathPrefix ++ "_" ++ db_timestamp env ++ ".sqlite" in
  info ("Opening SQLite database: " ++ dbPath) ;;
  modify (emit (EvSqliteOpen dbPath)) ;;
  if negb (sqlite3_open env dbPath) then
    let err := errmsg_or env "Unknown sqlite open error" in
    error ("Can't open SQLite DB: " ++ err) ;;
    throw (runtime_error ("Can't open SQLite DB: " ++ err))
  else
    modify (touch dbPath) ;;
    ret (mkSqliteHelper dbPath).

(** [SqliteHelper::~SqliteHelper] *)
Definition SqliteHelper_dtor (h : SqliteHelper) : M World unit :=
  info ("SQLite database closed: " ++ dbPath h).

(** [SqliteHelper::createTable] *)
Definition createTable (env : SqliteEnv) (h : SqliteHelper) : M World unit :=
  info "Creating table 'people' if not exists..." ;;
  w <- get ;;
  match exec_create_table env (db_image w (dbPath h)) with
  | inl e =>
      error ("Failed to create table: " ++ e) ;;
      throw (runtime_error ("Failed to create table: " ++ e))
  | inr d =>
      modify (fs_write (dbPath h) d) ;;
      info "Table 'people' ready."
  end.

(** The function-static flag [seeded] of [insertRandomRows]: it is set by the
    call that seeds the generator and by nothing else, and the trace holds the
    calls made so far. *)
Definition is_seed (e : Event) : bool :=
  match e with EvSeedRng _ => true | _ => false end.

Definition seeded (w : World) : bool := existsb is_seed (trace w).

(** The RNG setup of [insertRandomRows]: [if (!seeded) { ... }] *)
Definition seed_rng (env : SqliteEnv) : M World unit :=
  w <- get ;;
  if negb (seeded w) then
    match seed_env env with
    | SeedValue seed =>
        modify (emit (EvSeedRng (Some seed))) ;;
        info "Using deterministic RNG seed from SQLITEHELPER_SEED"
    | SeedInvalid what => throw (StdException what)
    | SeedUnset => modify (emit (EvSeedRng None))
    end
  else ret tt.

(** [SqliteHelper::insertRandomRows] *)
Definition insertRandomRows (env : SqliteEnv) (h : SqliteHelper) (count : Z) : M World unit :=
  info ("Inserting " ++ Str.to_string count ++ " random rows...") ;;
  w <- get ;;
  let rolled_back (msg : string) : M World unit :=
    error "Transaction rolled back due to error during insertRandomRows" ;;
    throw (runtime_error msg) in
  match insert_rows env count (db_image w (dbPath h)) with
  | BeginFails => throw (runtime_error "Failed to begin transaction")
  | InsertPrepareFails =>
      error "Failed to prepare insert statement" ;;
      throw (runtime_error "Failed to prepare insert statement")
  | BindFails i =>
      seed_rng env ;;
      rolled_back ("Failed to bind values at row " ++ Str.to_string i)
  | StepFails i =>
      seed_rng env ;;
      rolled_back ("Insert failed at row " ++ Str.to_string i)
  | CommitFails =>
      seed_rng env ;;
      rolled_back "Failed to commit transaction"
  | Inserted d =>
      seed_rng env ;;
      modify (fs_write (dbPath h) d) ;;
      info ("Inserted " ++ Str.to_string count ++ " rows successfully.")
  end.

(** [SqliteHelper::getRowCount] *)
Definition getRowCount (env : SqliteEnv) (h : SqliteHelper) : M World Z :=
  w <- get ;;
  match select_count env (db_image w (dbPath h)) with
  | PrepareFails => throw (runtime_error "Failed to prepare count statement")
  | outcome =>
      let count := match outcome with Row n => n | _ => 0 end in
      info ("Current row count: " ++ Str.to_string count) ;;
      ret count
  end.

Definition is_transient (rc : Z) : bool := (rc =? SQLITE_BUSY) || (rc =? SQLITE_LOCKED).

Definition keeps_going (rc : Z) : bool :=
  (rc =? SQLITE_OK) || (rc =? SQLITE_BUSY) || (rc =? SQLITE_LOCKED).

(** [do { rc = sqlite3_backup_step(backup, 1024); ... } while (...)].
    The loop has no bound of its own: [fuel] bounds the iterations observed. *)
Fixpoint backup_loop (a : BackupApi) (dumpFile : string) (fuel : nat) (b : bk_handle a)
  : M World (Z * bk_handle a) :=
  match fuel with
  | O => fun w => (Diverge, w)
  | S fuel' =>
      let (rc, b') := sqlite3_backup_step a b 1024 in
      modify (emit (EvBackupStep 1024)) ;;
      modify (fs_write dumpFile (bk_dest a b')) ;;
      (if is_transient rc
       then modify (emit (EvSqliteSleep 50)) (* avoid tight loop *)
       else ret tt) ;;
      if keeps_going rc then backup_loop a dumpFile fuel' b' else ret (rc, b')
  end.

(** [SqliteHelper::backupToFile] *)
Definition backupToFile (env : SqliteEnv) (fuel : nat) (h : SqliteHelper) (dumpFile : string)
  : M World unit :=
  info ("Performing binary backup to file: " ++ dumpFile) ;;
  modify (emit (EvSqliteOpen dumpFile)) ;;
  if negb (sqlite3_open env dumpFile) then
    throw (runtime_error ("Failed to open destination DB: " ++ errmsg_or env "unknown error"))
  else
    modify (touch dumpFile) ;;
    w <- get ;;
    match sqlite3_backup_init (api env) (db_image w (dbPath h)) with
    | None =>
        throw (runtime_error ("sqlite3_backup_init failed: " ++ errmsg_or env "unknown error"))
    | Some backup =>
        last <- backup_loop (api env) dumpFile fuel backup ;;
        let rc := fst last in
        let rcFinish := sqlite3_backup_finish (api env) (snd last) in
        if negb (rc =? SQLITE_DONE) || negb (rcFinish =? SQLITE_OK) then
          throw (runtime_error ("sqlite3_backup failed: " ++ errmsg_or env "unknown error"))
        else
          info ("Binary backup completed successfully to: " ++ dumpFile)
    end.

(** ** main.cpp *)

Record Env := mkEnv {
  create_directories : string -> option string;   (* [Some what]: it throws *)
  remove_fails : string -> option string;         (* [Some what]: [remove] throws *)
  currentTimestamp : string;                      (* the clock, read by [run] *)
  fp_percent : Z -> Z -> Z;                       (* [(int)((ulnow / ultotal) * 100.0)],
                                                     computed in floating point *)
  sq : SqliteEnv;
  up : UploadEnv
}.

(** [std::filesystem::remove] *)
Definition fs_remove (env : Env) (p : string) : M World unit :=
  modify (emit (EvRemove p)) ;;
  match remove_fails env p with
  | Some what => throw (StdException what)
  | None => modify (fs_delete p)
  end.

Record TempFileRemover := mkTempFileRemover { path_ : string; active_ : bool }.

(** [TempFileRemover::TempFileRemover] *)
Definition TempFileRemover_ctor (p : string) : TempFileRemover := mkTempFileRemover p true.

(** [TempFileRemover::~TempFileRemover] *)
Definition TempFileRemover_dtor (env : Env) (r : TempFileRemover) : M World unit :=
  if active_ r && negb (Str.empty (path_ r)) then
    try_catch
      (fs_remove env (path_ r) ;;
       info ("Temporary file removed: " ++ path_ r))
      (fun _ => (* Avoid throwing in destructor *) ret tt)
  else ret tt.

Record BackupManager := mkBackupManager {
  sqlitePrefix : string;
  ftpHost : string;
  ftpPort : Z;
  ftpUser : string;
  ftpPass : string;
  ftpDir : string;
  bm_sslVerify : bool;
  rows : Z;
  retries : Z;
  timeout : Z;
  logLevel : Level
}.

(** The progress lambda [run] installs. *)
Definition run_progress (env : Env) (x : XferInfo) : CbOutcome :=
  if 0 <? ultotal x then
    mkCb [(DEBUG, "Upload progress: " ++ Str.to_string (fp_percent env (ulnow x) (ultotal x)) ++ "%")]
         None
  else mkCb [] None.

Definition dumpFile_of (env : Env) (m : BackupManager) : string :=
  sqlitePrefix m ++ "_backup_" ++ currentTimestamp env ++ ".sqlite".

(** The [try] block of [BackupManager::run], in the order of the source:
    the database is opened ([run_open]) and filled ([run_populate]); then,
    with the remover of the dump file in scope, the snapshot is taken and
    uploaded ([run_stages], [run_upload]). *)
Definition run_open (env : Env) (m : BackupManager) : M World SqliteHelper :=
  match create_directories env "logs" with
  | Some what => throw (StdException what)
  | None => ret tt
  end ;;
  setLevel (logLevel m) ;;
  SqliteHelper_ctor (sq env) (sqlitePrefix m).

Definition run_populate (env : Env) (m : BackupManager) (db : SqliteHelper) : M World unit :=
  createTable (sq env) db ;;
  insertRandomRows (sq env) db (rows m) ;;
  n <- getRowCount (sq env) db ;;
  info ("Total rows after insert: " ++ Str.to_string n).

Definition run_upload (env : Env) (m : BackupManager) (dumpFile : string) : M World unit :=
  uploader <- FtpUploader_ctor (up env) (ftpHost m) (ftpPort m) (ftpUser m) (ftpPass m) ;;
  with_object uploader
    (scoped FtpUploader_dtor
       (update (enableVerbose true) ;;
        update (setRetries (retries m)) ;;
        update (setTimeout (timeout m)) ;;
        update (setSslVerify (bm_sslVerify m)) ;;
        update (setProgressCallback (Some (run_progress env))) ;;
        liftW (info ("Starting upload to directory: " ++ ftpDir m)) ;;
        uploadFile (up env) dumpFile (ftpDir m) ;;
        liftW (info "Upload finished successfully."))).

Definition run_stages (env : Env) (fuel : nat) (m : BackupManager) (db : SqliteHelper)
    (dumpFile : string) : M World unit :=
  backupToFile (sq env) fuel db dumpFile ;;
  info ("Database binary backup created at: " ++ dumpFile) ;;
  run_upload env m dumpFile.

Definition run_body (env : Env) (fuel : nat) (m : BackupManager) : M World unit :=
  db <- run_open env m ;;
  scoped (SqliteHelper_dtor db)
    (run_populate env m db ;;
     let dumpFile := dumpFile_of env m in
     let remover := TempFileRemover_ctor dumpFile in
     scoped (TempFileRemover_dtor env remover)
       (run_stages env fuel m db dumpFile)).

(** [BackupManager::run] *)
Definition run (env : Env) (fuel : nat) (m : BackupManager) : M World bool :=
  try_catch
    (run_body env fuel m ;; ret true)
    (fun ex =>
       match ex with
       | StdException what =>
           error ("Exception during backup/upload: " ++ what) ;;
           ret false
       | NonStdException =>
           error "Unknown exception during backup/upload." ;;
           ret false
       end).

(** ** Vocabulary of the statements *)

(** The delay the specification prescribes after failed attempt [k]. *)
Definition spec_backoff (k : Z) : Z := 500 * 2 ^ Z.min (k - 1) 6.

(** [spec_backoff 1 + ... + spec_backoff n] *)
Fixpoint sum_backoff (n : nat) : Z :=
  match n with
  | O => 0
  | S m => sum_backoff m + spec_backoff (Z.of_nat (S m))
  end.

(** The transfers and the backoff sleeps of a trace, in order. *)
Inductive Step :=
| Attempt
| Sleep (ms : Z).

Fixpoint schedule (t : list Event) : list Step :=
  match t with
  | [] => []
  | EvCurlPerform _ :: r => Attempt :: schedule r
  | EvSleep ms :: r => Sleep ms :: schedule r
  | _ :: r => schedule r
  end.

Fixpoint attempts_in (s : list Step) : Z :=
  match s with
  | [] => 0
  | Attempt :: r => 1 + attempts_in r
  | Sleep _ :: r => attempts_in r
  end.

Fixpoint total_sleep (s : list Step) : Z :=
  match s with
  | [] => 0
  | Attempt :: r => total_sleep r
  | Sleep ms :: r => ms + total_sleep r
  end.

(** [n] retries following failed attempt [k]: each is a sleep of
    [spec_backoff] of the attempt that failed, then the next attempt. *)
Fixpoint retries_after (n : nat) (k : Z) : list Step :=
  match n with
  | O => []
  | S m => Sleep (spec_backoff k) :: Attempt :: retries_after m (k + 1)
  end.

(** The schedule of a call that makes [j >= 1] attempts. *)
Definition attempts_made (j : Z) : list Step :=
  Attempt :: retries_after (Z.to_nat (j - 1)) 1.

(** Does the progress callback throw on one of the reports of a transfer. *)
Definition throws_on (cb : XferInfo -> CbOutcome) (x : XferInfo) : bool :=
  match cb_throw (cb x) with Some _ => true | None => false end.

Definition aborts (cb : ProgressCallback) (reports : list XferInfo) : bool :=
  match cb with
  | Some f => existsb (throws_on f) reports
  | None => false
  end.

(** The status [curl_easy_perform] returns in the attempt numbered [k]
    (lemma [curl_easy_perform_status]). *)
Definition attempt_status (env : UploadEnv) (u : FtpUploader) (k : Z) : Z :=
  if aborts (progressCb u) (fst (transfer env k))
  then CURLE_ABORTED_BY_CALLBACK
  else snd (transfer env k).

(** The calls [uploadFile] may make on its collaborators. *)
Inductive upload_event (u : FtpUploader) (localFile : string) : Event -> Prop :=
| ue_log lvl msg : upload_event u localFile (EvLog lvl msg)
| ue_fopen : upload_event u localFile (EvFopen localFile)
| ue_init : upload_event u localFile EvCurlEasyInit
| ue_sleep ms : upload_event u localFile (EvSleep ms)
| ue_perform e url fsize :
    upload_event u localFile (EvCurlPerform (configure (setLastError e u) url localFile fsize)).

Definition is_log (e : Event) : Prop :=
  match e with EvLog _ _ => True | _ => False end.

(** The store-opening and file-removing calls of a trace, in order. *)
Fixpoint file_events (t : list Event) : list Event :=
  match t with
  | [] => []
  | EvSqliteOpen p :: r => EvSqliteOpen p :: file_events r
  | EvRemove p :: r => EvRemove p :: file_events r
  | _ :: r => file_events r
  end.


(** The calls made while the database is filled: log lines, and the seeding
    of the generator. *)
Definition is_setup (e : Event) : Prop :=
  match e with EvLog _ _ | EvSeedRng _ => True | _ => False end.

(** The page-copy calls and the waits between them, in order. *)
Fixpoint copy_events (t : list Event) : list Event :=
  match t with
  | [] => []
  | EvBackupStep n :: r => EvBackupStep n :: copy_events r
  | EvSqliteSleep ms :: r => EvSqliteSleep ms :: copy_events r
  | _ :: r => copy_events r
  end.

(** The handle after [i] steps, and the status of step number [i] (from 0). *)
Fixpoint handle_at (a : BackupApi) (b : bk_handle a) (i : nat) : bk_handle a :=
  match i with
  | O => b
  | S j => snd (sqlite3_backup_step a (handle_at a b j) 1024)
  end.

Definition status_at (a : BackupApi) (b : bk_handle a) (i : nat) : Z :=
  fst (sqlite3_backup_step a (handle_at a b i) 1024).

(** What the loop does around step [i]: the call, and the wait if it was
    transient. *)
Definition step_events (rc : Z) : list Event :=
  EvBackupStep 1024 :: (if is_transient rc then [EvSqliteSleep 50] else []).

(** The calls of the loop over steps [0 .. n-1]. *)
Definition copy_schedule (a : BackupApi) (b : bk_handle a) (n : nat) : list Event :=
  flat_map (fun i => step_events (status_at a b i)) (seq 0 n).

(** Step [n] is the first whose status ends the loop. *)
Definition first_exit (a : BackupApi) (b : bk_handle a) (n : nat) : Prop :=
  keeps_going (status_at a b n) = false
  /\ forall i, (i < n)%nat -> keeps_going (status_at a b i) = true.

(** The schedule of the failing attempts [a+1 .. a+m] under retry limit [R],
    as the code produces it. *)
Fixpoint failures_from (m : nat) (a R : Z) : list Step :=
  match m with
  | O => []
  | S m' =>
      (Attempt :: (if a + 1 <? R then [Sleep (backoff_ms (a + 1))] else [])
       ++ failures_from m' (a + 1) R)%list
  end.

(** The TLS settings of a handle. *)
Definition is_verify_option (o : Curl.Option_) : bool :=
  match o with
  | CURLOPT_SSL_VERIFYPEER | CURLOPT_SSL_VERIFYHOST => true
  | _ => false
  end.

Definition without_verify_options (h : Handle) : Handle :=
  filter (fun p => negb (is_verify_option (fst p))) h.

(** Encryption is required for control and data; peer and host checks follow
    the flag. *)
Definition tls_policy (verify : bool) (h : Handle) : Prop :=
  getopt CURLOPT_USE_SSL h = Some (VLong CURLUSESSL_ALL)
  /\ getopt CURLOPT_SSL_VERIFYPEER h = Some (VLong (if verify then 1 else 0))
  /\ getopt CURLOPT_SSL_VERIFYHOST h = Some (VLong (if verify then 2 else 0)).

Definition transfers_obey (P : Handle -> Prop) (e : Event) : Prop :=
  match e with
  | EvCurlPerform h => P h
  | _ => True
  end.

(** The world in which the copy loop starts. *)
Definition backup_start (dumpFile : string) (w : World) : World :=
  touch dumpFile
    (mkWorld (trace w ++ [EvLog INFO ("Performing binary backup to file: " ++ dumpFile);
                          EvSqliteOpen dumpFile])
             (fs w)).

(** What SQLite promises of a backup: once a step reports [SQLITE_DONE], the
    destination holds the image the backup was initialised on. *)
Definition backup_contract (a : BackupApi) : Prop :=
  forall src b, sqlite3_backup_init a src = Some b ->
  forall i, status_at a b i = SQLITE_DONE ->
            bk_dest a (handle_at a b (S i)) = src.

(** ** Concrete inputs, for running the model *)
Module Sample.

Definition uploader : FtpUploader :=
  mkFtpUploader "127.0.0.1" 21 "user" "pass" 30 3 false true None "".

(** A server that refuses every connection. *)
Definition refusing : UploadEnv :=
  mkUploadEnv 0 (fun _ => true) (fun _ => true) (fun _ => Some 13)
    (fun _ => ([], 7)) (fun _ => []) (fun c => "curl error " ++ Str.to_string c).

(** A server that accepts every transfer and reports progress twice. *)
Definition accepting : UploadEnv :=
  mkUploadEnv 0 (fun _ => true) (fun _ => true) (fun _ => Some 13)
    (fun _ => ([mkXfer 0 0 13 5; mkXfer 0 0 13 13], 0))
    (fun _ => ["220 Service ready"; String "010"%char "226 Transfer complete"])
    (fun c => "curl error " ++ Str.to_string c).

(** A page copier over an idle source: a step copies the next [n] pages, or
    nothing at all while the source is busy (as the [busy] pattern says). *)
Definition copier (busy : nat -> bool) : BackupApi :=
  mkBackupApi (nat * Db * Db)%type
    (fun src => Some (O, src, []))
    (fun '(i, rest, copied) n =>
       if busy i then (SQLITE_BUSY, (S i, rest, copied))
       else
         let rest' := skipn (Z.to_nat n) rest in
         (match rest' with [] => SQLITE_DONE | _ => SQLITE_OK end,
          (S i, rest', (copied ++ firstn (Z.to_nat n) rest)%list)))
    (fun _ => SQLITE_OK)
    (fun '(_, _, copied) => copied).

(** A source of 2500 pages that is busy at the second step. *)
Definition busy_once (i : nat) : bool := Nat.eqb i 1.

Definition sqlite : SqliteEnv :=
  mkSqliteEnv (copier busy_once) (fun _ => true) None
    (fun d => inr d) (fun n d => Inserted (repeat "page" 2500))
    (fun d => Row (Z.of_nat (List.length d))) "2024-01-01_00-00-00" SeedUnset.

Definition live : SqliteHelper := mkSqliteHelper "db_2024-01-01_00-00-00.sqlite".

Definition disk_with_db : World :=
  mkWorld [] (fun p => if String.eqb p "db_2024-01-01_00-00-00.sqlite"
                       then Some (repeat "page" 2500) else None).

Definition disk : World :=
  mkWorld [] (fun p => if String.eqb p "test_upload.txt" then Some [] else None).

(** A progress callback that throws once half of the file is sent. *)
Definition impatient (x : XferInfo) : CbOutcome :=
  if ultotal x <=? 2 * ulnow x
  then mkCb [] (Some (StdException "enough"))
  else mkCb [(DEBUG, "waiting")] None.

End Sample.

(** ** Vocabulary for the orchestrator *)

(** What the [catch] clauses of [run] log for an exception. *)
Definition handler_message (e : exn) : string :=
  match e with
  | StdException what => "Exception during backup/upload: " ++ what
  | NonStdException => "Unknown exception during backup/upload."
  end.

(** What [run] has logged when the snapshot stage has left [w]. *)
Definition snapshot_logged (env : Env) (m : BackupManager) (w : World) : World :=
  emit (EvLog INFO ("Database binary backup created at: " ++ dumpFile_of env m)) w.

(** The run reaches the point where the remover is registered, in world [w2]
    and with database object [db]: the log directory could be made, and the
    constructor of [SqliteHelper], [createTable], [insertRandomRows] and
    [getRowCount] have returned, one after the other. *)
Definition reaches_snapshot (env : Env) (m : BackupManager) (w : World)
    (db : SqliteHelper) (w2 : World) : Prop :=
  create_directories env "logs" = None
  /\ exists w1 wa wb n wc,
       SqliteHelper_ctor (sq env) (sqlitePrefix m) (emit (EvSetLevel (logLevel m)) w)
       = (Ok db, w1)
       /\ createTable (sq env) db w1 = (Ok tt, wa)
       /\ insertRandomRows (sq env) db (rows m) wa = (Ok tt, wb)
       /\ getRowCount (sq env) db wb = (Ok n, wc)
       /\ w2 = emit (EvLog INFO ("Total rows after insert: " ++ Str.to_string n)) wc.

(** The uploader [run] has built when it calls [uploadFile]: the constructor's
    object after [enableVerbose(true)], [setRetries(retries)],
    [setTimeout(timeout)], [setSslVerify(sslVerify)] and the installation of
    the progress lambda. *)
Definition run_uploader (env : Env) (m : BackupManager) : FtpUploader :=
  mkFtpUploader (ftpHost m) (ftpPort m) (ftpUser m) (ftpPass m) (timeout m)
    (Z.max 1 (retries m)) true (bm_sslVerify m) (Some (run_progress env)) "".

(** What the constructor of the uploader and [run] log before the upload. *)
Definition run_upload_prelude (env : Env) (m : BackupManager) : list Event :=
  ((if negb (curl_global_init (up env) =? CURLE_OK)
    then [EvLog WARNING "curl_global_init failed, continuing but curl may misbehave."]
    else [])
   ++ [EvLog INFO ("FtpUploader initialized for host: " ++ ftpHost m);
       EvLog INFO ("Starting upload to directory: " ++ ftpDir m)])%list.

(** The world in which [run] calls [uploadFile], after a snapshot that left
    [w]. *)
Definition upload_start (env : Env) (m : BackupManager) (w : World) : World :=
  mkWorld (trace (snapshot_logged env m w) ++ run_upload_prelude env m) (fs w).

(** The upload stage: [uploadFile] on the uploader [run] has configured, for
    the dump file and the manager's directory. *)
Definition upload_stage (env : Env) (m : BackupManager) (w : World)
  : Res unit * (FtpUploader * World) :=
  uploadFile (up env) (dumpFile_of env m) (ftpDir m) (run_uploader env m, upload_start env m w).

(** Both stages run and succeed: [backupToFile] returns, and then
    [uploadFile] does. *)
Definition pipeline_succeeds (env : Env) (fuel : nat) (m : BackupManager) (w : World) : Prop :=
  exists db w2 w3 s,
    reaches_snapshot env m w db w2
    /\ backupToFile (sq env) fuel db (dumpFile_of env m) w2 = (Ok tt, w3)
    /\ upload_stage env m w3 = (Ok tt, s).

(** One of the two stages throws [e]: [backupToFile] does, or it returns and
    [uploadFile] throws. *)
Definition stage_fails (env : Env) (fuel : nat) (m : BackupManager) (w : World) (e : exn)
  : Prop :=
  exists db w2,
    reaches_snapshot env m w db w2
    /\ ((exists w3, backupToFile (sq env) fuel db (dumpFile_of env m) w2 = (Throw e, w3))
        \/ (exists w3 s,
              backupToFile (sq env) fuel db (dumpFile_of env m) w2 = (Ok tt, w3)
              /\ upload_stage env m w3 = (Throw e, s))).

(** The copy loop of the snapshot stage is still running when the fuel is
    spent: each of its [fuel] steps reported a status that keeps it going. *)
Definition snapshot_diverges (env : Env) (fuel : nat) (m : BackupManager) (w : World) : Prop :=
  exists db w2 b,
    reaches_snapshot env m w db w2
    /\ fst (backupToFile (sq env) fuel db (dumpFile_of env m) w2) = Diverge
    /\ sqlite3_backup_init (api (sq env)) (db_image w2 (dbPath db)) = Some b
    /\ forall i, (i < fuel)%nat -> keeps_going (status_at (api (sq env)) b i) = true.



Module Scenario.

Definition manager : BackupManager :=
  mkBackupManager "db" "ftp.example.org" 21 "user" "secret" "backups" true 100 3 30 INFO.

Definition healthy : Env :=
  mkEnv (fun _ => None) (fun _ => None) "2024-01-01_00-00-01" (fun now total => now * 100 / total)
    Sample.sqlite Sample.accepting.

(** The server refuses every connection. *)
Definition offline : Env :=
  mkEnv (fun _ => None) (fun _ => None) "2024-01-01_00-00-01" (fun now total => now * 100 / total)
    Sample.sqlite Sample.refusing.



Definition empty_disk : World := mkWorld [] (fun _ => None).

End Scenario.

(** What the destructors of [run]'s locals leave behind. *)
Definition removed (env : Env) (p : string) (w : World) : World :=
  match remove_fails env p with
  | None =>
      mkWorld (trace w ++ [EvRemove p; EvLog INFO ("Temporary file removed: " ++ p)])
              (fun q => if String.eqb q p then None else fs w q)
  | Some _ => mkWorld (trace w ++ [EvRemove p]) (fs w)
  end.

Definition closed (db : SqliteHelper) (w : World) : World :=
  emit (EvLog INFO ("SQLite database closed: " ++ dbPath db)) w.

Definition caught (e : exn) (w : World) : World :=
  emit (EvLog ERROR (handler_message e)) w.

(** What [run] and the destructor of the uploader log once [uploadFile] is
    over, having returned ([ok]) or thrown. *)
Definition upload_left (m : BackupManager) (ok : bool) (w : World) : World :=
  mkWorld (trace w
           ++ (if ok then [EvLog INFO "Upload finished successfully."] else [])
           ++ [EvLog INFO ("FtpUploader destroyed for host: " ++ ftpHost m)])%list
          (fs w).

(** ** More of the sources: sample data, the orchestrator's settings, the command line *)

(** [SqliteHelper::randomFirstName], [SqliteHelper::randomLastName] *)
Definition first_names : list string :=
  ["Anna"; "David"; "Maya"; "Liam"; "Sophie"; "Alex"; "Nora"; "Arman"; "Karen"; "Sara"].

Definition last_names : list string :=
  ["Petrosyan"; "Smith"; "Johnson"; "Grigoryan"; "Brown"; "Martirosian"; "Lee"; "Garcia";
   "Ivanov"; "Khan"].

Definition randomFirstName (idx : Z) : string :=
  let idx := if (idx <? 0) || (9 <? idx) then 0 else idx in
  nth (Z.to_nat idx) first_names "".

Definition randomLastName (idx : Z) : string :=
  let idx := if (idx <? 0) || (9 <? idx) then 0 else idx in
  nth (Z.to_nat idx) last_names "".

(** Does [c] occur in [s]. *)
Fixpoint occurs (c : ascii) (s : string) : bool :=
  match s with
  | EmptyString => false
  | String x r => Ascii.eqb x c || occurs c r
  end.

(** Is [s] made of directory separators only. *)
Fixpoint only_separators (s : string) : bool :=
  match s with
  | EmptyString => true
  | String c r => (Ascii.eqb c "/"%char || Ascii.eqb c "\"%char) && only_separators r
  end.

(** The calls of a trace that go to libcurl's transfer and to the backoff
    clock, in order. *)
Fixpoint upload_calls (t : list Event) : list Event :=
  match t with
  | [] => []
  | EvCurlPerform h :: r => EvCurlPerform h :: upload_calls r
  | EvSleep ms :: r => EvSleep ms :: upload_calls r
  | _ :: r => upload_calls r
  end.

(** A credential is handed to libcurl only when it is not empty. *)
Definition credential (s : string) : option Value :=
  if Str.empty s then None else Some (VString s).

(** The handle of a transfer was set up by [u] for [url] and [localFile]. *)
Definition configured_by (u : FtpUploader) (url localFile : string) (h : Handle) : Prop :=
  exists fsize, h = configure u url localFile fsize.

(** The options in force on a handle [u] has set up for [url] and
    [localFile], the TLS ones apart. *)
Definition upload_settings (u : FtpUploader) (url localFile : string) (h : Handle) : Prop :=
  getopt CURLOPT_URL h = Some (VString url)
  /\ getopt CURLOPT_USERNAME h = credential (user u)
  /\ getopt CURLOPT_PASSWORD h = credential (pass u)
  /\ getopt CURLOPT_UPLOAD h = Some (VLong 1)
  /\ getopt CURLOPT_READDATA h = Some (VFile localFile)
  /\ getopt CURLOPT_FTP_CREATE_MISSING_DIRS h = Some (VLong CURLFTP_CREATE_DIR_RETRY)
  /\ getopt CURLOPT_CONNECTTIMEOUT h = Some (VLong (timeoutSeconds u))
  /\ getopt CURLOPT_FTP_RESPONSE_TIMEOUT h = Some (VLong (timeoutSeconds u))
  /\ getopt CURLOPT_VERBOSE h = (if verbose u then Some (VLong 1) else None)
  /\ getopt CURLOPT_NOPROGRESS h
     = Some (VLong (match progressCb u with Some _ => 0 | None => 1 end)).

(** The manager's settings, as options of a transfer handle. *)
Definition run_settings (env : Env) (m : BackupManager) (h : Handle) : Prop :=
  upload_settings (run_uploader env m)
    (buildUrl (run_uploader env m) (ftpDir m) (Str.filename (dumpFile_of env m)))
    (dumpFile_of env m) h
  /\ tls_policy (bm_sslVerify m) h.

(** From [w] to [w'] no file was touched but [p] and [dbFile], and [dbFile]
    was not deleted. *)
Definition disk_kept (p dbFile : string) (w w' : World) : Prop :=
  (forall q, q <> p -> q <> dbFile -> fs w' q = fs w q)
  /\ (p <> dbFile -> fs w dbFile <> None -> fs w' dbFile <> None).

(** ** What a trace shows of the password *)

(** A handle without its [CURLOPT_PASSWORD] setting, and an event with the
    password taken out of its handle. *)
Definition redact_handle (h : Handle) : Handle :=
  filter (fun p => negb (Option_eqb (fst p) CURLOPT_PASSWORD)) h.

Definition redact (e : Event) : Event :=
  match e with
  | EvCurlPerform h => EvCurlPerform (redact_handle h)
  | _ => e
  end.

(** The same uploader, the same manager, with another password. *)
Definition with_pass (p : string) (u : FtpUploader) : FtpUploader :=
  mkFtpUploader (host u) (port u) (user u) p (timeoutSeconds u) (maxRetries u)
    (verbose u) (sslVerify u) (progressCb u) (lastError u).

Definition with_ftpPass (p : string) (m : BackupManager) : BackupManager :=
  mkBackupManager (sqlitePrefix m) (ftpHost m) (ftpPort m) (ftpUser m) p (ftpDir m)
    (bm_sslVerify m) (rows m) (retries m) (timeout m) (logLevel m).

(** ** The level in force *)

(** The minimum level of the logger after the calls of [t], from [lvl]. *)
Fixpoint level_after (lvl : Level) (t : list Event) : Level :=
  match t with
  | [] => lvl
  | EvSetLevel l :: r => level_after l r
  | _ :: r => level_after lvl r
  end.

Definition keeps_level (e : Event) : Prop :=
  match e with EvSetLevel _ => False | _ => True end.

(** From [w] to [w'] calls were added, none of them [setLevel]. *)
Definition extends_quietly (w w' : World) : Prop :=
  exists t, trace w' = (trace w ++ t)%list /\ Forall keeps_level t.

(** *** Seeding of the generator *)

(** The log line of a seeding from the environment. *)
Definition is_seed_line (e : Event) : bool :=
  match e with
  | EvLog INFO msg => String.eqb msg "Using deterministic RNG seed from SQLITEHELPER_SEED"
  | _ => false
  end.

Definition seed_lines (t : list Event) : nat := List.length (filter is_seed_line t).

(** The call gets as far as the RNG setup: the transaction has begun and the
    insert statement is prepared. *)
Definition reaches_seeding (o : InsertOutcome) : bool :=
  match o with BeginFails | InsertPrepareFails => false | _ => true end.

(** ** main.cpp: the command line

    [main] works on [argv] and on the two standard streams; what the logger
    and the orchestrator do goes to the world as before. *)

Module Cli.

(** Exit codes *)
Definition EXIT_INVALID_ARGS : Z := 1.
Definition EXIT_UPLOAD_FAILED : Z := 2.
Definition EXIT_CONFIG_ERROR : Z := 3.

Definition INT_MIN : Z := - 2 ^ 31.
Definition INT_MAX : Z := 2 ^ 31 - 1.
(** [long] of an LP64 platform *)
Definition LONG_MIN : Z := - 2 ^ 63.
Definition LONG_MAX : Z := 2 ^ 63 - 1.

Definition nl : string := String "010"%char EmptyString.

(** *** [std::stoi], [std::stol]

    Both run [strtol] in base 10: white space is skipped, a sign is read if
    there is one, then the digits up to the first character that is none;
    what follows is ignored.  No digit at all is [std::invalid_argument], a
    value that does not fit the result type is [std::out_of_range]. *)

(** [isspace] in the "C" locale *)
Definition isspace (c : ascii) : bool :=
  let n := Z.of_nat (nat_of_ascii c) in
  (n =? 32) || ((9 <=? n) && (n <=? 13)).

Fixpoint skip_spaces (s : string) : string :=
  match s with
  | String c r => if isspace c then skip_spaces r else s
  | EmptyString => s
  end.

Definition digit_of (c : ascii) : option Z :=
  let n := Z.of_nat (nat_of_ascii c) in
  if (48 <=? n) && (n <=? 57) then Some (n - 48) else None.

(** The number the leading digits of [s] spell after [acc], and whether there
    was a digit. *)
Fixpoint read_digits (acc : Z) (any : bool) (s : string) : Z * bool :=
  match s with
  | String c r =>
      match digit_of c with
      | Some d => read_digits (10 * acc + d) true r
      | None => (acc, any)
      end
  | EmptyString => (acc, any)
  end.

Inductive Conversion :=
| NoConversion
| OutOfRange
| Converted (n : Z).

Definition strto (lo hi : Z) (s : string) : Conversion :=
  let s := skip_spaces s in
  let '(negative, s) :=
    match s with
    | String "-" r => (true, r)
    | String "+" r => (false, r)
    | _ => (false, s)
    end in
  let '(n, any) := read_digits 0 false s in
  if negb any then NoConversion
  else
    let n := if negative : bool then - n else n in
    if (n <? lo) || (hi <? n) then OutOfRange else Converted n.

(** Where [main] runs: the environment variable it reads, and the text the
    C++ library gives to the exceptions of its conversion functions ([name] is
    [stoi] or [stol]; libstdc++ answers the name itself). *)
Record Host := mkHost {
  getenv_FTP_PASS : option string;
  invalid_argument_what : string -> string;
  out_of_range_what : string -> string
}.

Definition invalid_argument (msg : string) : exn := StdException msg.
Definition out_of_range (msg : string) : exn := StdException msg.

Definition sto {S} (h : Host) (name : string) (lo hi : Z) (s : string) : M S Z :=
  match strto lo hi s with
  | NoConversion => throw (invalid_argument (invalid_argument_what h name))
  | OutOfRange => throw (out_of_range (out_of_range_what h name))
  | Converted n => ret n
  end.

Definition stoi {S} (h : Host) : string -> M S Z := sto h "stoi" INT_MIN INT_MAX.
Definition stol {S} (h : Host) : string -> M S Z := sto h "stol" LONG_MIN LONG_MAX.

(** *** The standard streams *)

Inductive Stream := Cerr | Cout.

(** What [main] has written, in order. *)
Definition Console := list (Stream * string).

Definition print (s : Stream) (text : string) : M (Console * World) unit :=
  update (fun c => (c ++ [(s, text)])%list).

(** [printUsage] *)
Definition printUsage (exeName : string) : M (Console * World) unit :=
  print Cerr
    ("Usage:" ++ nl
     ++ "  " ++ exeName
     ++ " <sqlite_prefix> <ftp_host> <ftp_port> <ftp_user> <ftp_pass_or_-> <ftp_dir>" ++ nl
     ++ "Options:" ++ nl
     ++ "  --no-ssl-verify        Disable SSL peer/host verification (default: enabled)" ++ nl
     ++ "  --rows N               Number of rows to insert into DB (default: 100)" ++ nl
     ++ "  --retries N            FTP retries on failure (default: 3)" ++ nl
     ++ "  --timeout SECONDS      FTP connection & response timeout (default: 30)" ++ nl
     ++ "  --log-level LEVEL      Set log level: debug|info|warn|error (default: info)" ++ nl
     ++ nl
     ++ "Notes:" ++ nl
     ++ "  - If <ftp_pass_or_-> is '-', password will be read from FTP_PASS environment variable."
     ++ nl
     ++ "  - Exit codes: "
     ++ Str.to_string EXIT_INVALID_ARGS ++ " (bad args), "
     ++ Str.to_string EXIT_UPLOAD_FAILED ++ " (upload failed), "
     ++ Str.to_string EXIT_CONFIG_ERROR ++ " (config error)" ++ nl).

(** *** [parseOptionalFlag] *)

(** [string_view::find(ch)] *)
Fixpoint find (ch : ascii) (s : string) : option nat :=
  match s with
  | EmptyString => None
  | String c r => if Ascii.eqb c ch then Some O else option_map S (find ch r)
  end.

(** [string_view::substr(pos)], for [pos] within the string *)
Fixpoint substr_from (pos : nat) (s : string) : string :=
  match pos, s with
  | O, _ => s
  | S p, String _ r => substr_from p r
  | S _, EmptyString => EmptyString
  end.

(** [string_view::substr(0, n)] *)
Fixpoint substr_to (n : nat) (s : string) : string :=
  match n, s with
  | O, _ => EmptyString
  | S p, String c r => String c (substr_to p r)
  | S _, EmptyString => EmptyString
  end.

(** The outcome of a call: the value returned, the two output arguments, and
    whether [i] was incremented. *)
Record Parsed := mkParsed {
  parsed : bool;
  flagOut : string;
  valueOut : string;
  advanced : bool
}.

(** [arg] is [argv[i]]; [next] is [argv[i + 1]], if [i + 1 < argc]. *)
Definition parseOptionalFlag (arg : string) (next : option string) : Parsed :=
  match find "=" arg with
  | Some eqPos => mkParsed true (substr_to eqPos arg) (substr_from (S eqPos) arg) false
  | None =>
      match next with
      | Some value => mkParsed true arg value true
      | None => mkParsed false arg "" false
      end
  end.

(** *** [main] *)

(** The option variables of [main]. *)
Record Options := mkOptions {
  o_sslVerify : bool;
  o_rows : Z;
  o_retries : Z;
  o_timeout : Z;
  o_logLevel : Level
}.

(** The values they are initialised with. *)
Definition defaults : Options := mkOptions false 100 3 30 INFO.

(** A statement inside [main] either falls through or returns from [main]. *)
Inductive Flow (A : Type) :=
| Next (a : A)
| Return (code : Z).
Arguments Next {A} a.
Arguments Return {A} code.

(** The [try] block of the option loop, with its handler. *)
Definition option_step (h : Host) (exe flag value : string) (o : Options)
  : M (Console * World) (Flow Options) :=
  try_catch
    (if String.eqb flag "--no-ssl-verify" then
       ret (Next (mkOptions false (o_rows o) (o_retries o) (o_timeout o) (o_logLevel o)))
     else if String.eqb flag "--rows" then
       rows <- stoi h value ;;
       if rows <=? 0 then throw (out_of_range "must be > 0")
       else ret (Next (mkOptions (o_sslVerify o) rows (o_retries o) (o_timeout o)
                         (o_logLevel o)))
     else if String.eqb flag "--retries" then
       retries <- stoi h value ;;
       if retries <? 0 then throw (out_of_range "must be >= 0")
       else ret (Next (mkOptions (o_sslVerify o) (o_rows o) retries (o_timeout o)
                         (o_logLevel o)))
     else if String.eqb flag "--timeout" then
       timeout <- stol h value ;;
       if timeout <=? 0 then throw (out_of_range "must be > 0")
       else ret (Next (mkOptions (o_sslVerify o) (o_rows o) (o_retries o) timeout
                         (o_logLevel o)))
     else if String.eqb flag "--log-level" then
       let set lvl :=
         ret (Next (mkOptions (o_sslVerify o) (o_rows o) (o_retries o) (o_timeout o) lvl)) in
       if String.eqb value "debug" then set DEBUG
       else if String.eqb value "info" then set INFO
       else if String.eqb value "warn" then set WARNING
       else if String.eqb value "error" then set ERROR
       else throw (invalid_argument "invalid log level")
     else
       print Cerr ("Unknown option: " ++ flag ++ nl) ;;
       printUsage exe ;;
       ret (Return EXIT_INVALID_ARGS))
    (fun e =>
       match e with
       | StdException what =>
           print Cerr ("Invalid value for " ++ flag ++ ": " ++ what ++ nl) ;;
           ret (Return EXIT_INVALID_ARGS)
       | NonStdException => throw e
       end).

(** [for (int i = 7; i < argc; ++i) { ... }], over the arguments from
    [argv[i]] on. *)
Fixpoint options_loop (h : Host) (exe : string) (rest : list string) (o : Options)
  : M (Console * World) (Flow Options) :=
  match rest with
  | [] => ret (Next o)
  | arg :: rest1 =>
      let p := parseOptionalFlag arg (hd_error rest1) in
      if negb (parsed p) then
        print Cerr ("Invalid option format: " ++ arg ++ nl) ;;
        ret (Return EXIT_INVALID_ARGS)
      else
        r <- option_step h exe (flagOut p) (valueOut p) o ;;
        match r with
        | Return code => ret (Return code)
        | Next o' =>
            match advanced p, rest1 with
            | true, _ :: rest2 => options_loop h exe rest2 o'
            | _, _ => options_loop h exe rest1 o'
            end
        end
  end.

(** [BackupManager::setLogLevel] *)
Definition setLogLevel (lvl : Level) (m : BackupManager) : BackupManager :=
  mkBackupManager (sqlitePrefix m) (ftpHost m) (ftpPort m) (ftpUser m) (ftpPass m) (ftpDir m)
    (bm_sslVerify m) (rows m) (retries m) (timeout m) lvl.

(** The constructor of [BackupManager]; [logLevel] has its default member
    initializer. *)
Definition BackupManager_ctor (sqlitePrefix ftpHost : string) (ftpPort : Z)
    (ftpUser ftpPass ftpDir : string) (sslVerify : bool) (rows retries timeout : Z)
  : BackupManager :=
  mkBackupManager sqlitePrefix ftpHost ftpPort ftpUser ftpPass ftpDir sslVerify rows retries
    timeout INFO.

Definition maskedPass (ftpPass : string) : string :=
  if Str.empty ftpPass then "<empty>" else Str.replicate (String.length ftpPass) "*".

(** [main(argc, argv)], with [argv[0]] the name of the program ([exe]) and
    [args] the arguments after it. *)
Definition main (h : Host) (env : Env) (fuel : nat) (exe : string) (args : list string)
  : M (Console * World) Z :=
  let argv := exe :: args in
  let argc := Z.of_nat (List.length argv) in
  let arg i := nth i argv "" in
  if argc <? 7 then
    print Cerr ("Invalid number of arguments." ++ nl) ;;
    printUsage (arg 0%nat) ;;
    ret EXIT_INVALID_ARGS
  else
    let sqlitePrefix := arg 1%nat in
    let ftpHost := arg 2%nat in
    port <- try_catch
              (ftpPort <- stoi h (arg 3%nat) ;;
               if (ftpPort <=? 0) || (65535 <? ftpPort)
               then throw (out_of_range "FTP port out of valid range (1-65535)")
               else ret (Next ftpPort))
              (fun e =>
                 match e with
                 | StdException what =>
                     print Cerr ("Invalid FTP port: " ++ arg 3%nat ++ " (" ++ what ++ ")" ++ nl) ;;
                     printUsage (arg 0%nat) ;;
                     ret (Return EXIT_INVALID_ARGS)
                 | NonStdException => throw e
                 end) ;;
    match port with
    | Return code => ret code
    | Next ftpPort =>
        let ftpUser := arg 4%nat in
        let ftpPassArg := arg 5%nat in
        let ftpDir := arg 6%nat in
        opts <- options_loop h exe (skipn 7 argv) defaults ;;
        match opts with
        | Return code => ret code
        | Next o =>
            (* Read password from environment if requested *)
            pass <- (if String.eqb ftpPassArg "-" then
                       match getenv_FTP_PASS h with
                       | None =>
                           print Cerr
                             ("Password argument '-' specified but FTP_PASS environment variable is not set."
                              ++ nl) ;;
                           ret (Return EXIT_CONFIG_ERROR)
                       | Some envPass => ret (Next envPass)
                       end
                     else ret (Next ftpPassArg)) ;;
            match pass with
            | Return code => ret code
            | Next ftpPass =>
                (* Masked log for credentials *)
                liftW (info ("Starting backup. FTP host: " ++ ftpHost ++ ":"
                             ++ Str.to_string ftpPort ++ ", user: " ++ ftpUser
                             ++ ", pass: " ++ maskedPass ftpPass)) ;;
                let mgr := BackupManager_ctor sqlitePrefix ftpHost ftpPort ftpUser ftpPass
                             ftpDir (o_sslVerify o) (o_rows o) (o_retries o) (o_timeout o) in
                let mgr := setLogLevel (o_logLevel o) mgr in
                success <- liftW (run env fuel mgr) ;;
                if negb success then
                  print Cerr ("Backup and upload failed. See logs for details." ++ nl) ;;
                  ret EXIT_UPLOAD_FAILED
                else
                  print Cout ("Backup and upload completed successfully." ++ nl) ;;
                  ret 0
            end
        end
    end.

(** *** Vocabulary for the statements on [main] *)

(** What the option loop maintains. *)
Definition valid_options (o : Options) : Prop :=
  o_sslVerify o = false
  /\ 1 <= o_rows o <= INT_MAX
  /\ 0 <= o_retries o <= INT_MAX
  /\ 1 <= o_timeout o <= LONG_MAX.

(** The configurations [main] hands to the orchestrator for [args]. *)
Definition accepted (h : Host) (args : list string) (m : BackupManager) : Prop :=
  sqlitePrefix m = nth 0 args ""
  /\ ftpHost m = nth 1 args ""
  /\ strto INT_MIN INT_MAX (nth 2 args "") = Converted (ftpPort m)
  /\ 1 <= ftpPort m <= 65535
  /\ ftpUser m = nth 3 args ""
  /\ (if String.eqb (nth 4 args "") "-" then getenv_FTP_PASS h = Some (ftpPass m)
      else ftpPass m = nth 4 args "")
  /\ ftpDir m = nth 5 args ""
  /\ bm_sslVerify m = false
  /\ 1 <= rows m <= INT_MAX
  /\ 0 <= retries m <= INT_MAX
  /\ 1 <= timeout m <= LONG_MAX.

(** The line [main] logs before the run. *)
Definition start_line (m : BackupManager) : string :=
  "Starting backup. FTP host: " ++ ftpHost m ++ ":" ++ Str.to_string (ftpPort m)
  ++ ", user: " ++ ftpUser m ++ ", pass: " ++ maskedPass (ftpPass m).

(** The exit status for an outcome of [run], and the closing message. *)
Definition exit_of (r : Res bool) : Res Z :=
  match r with
  | Ok true => Ok 0
  | Ok false => Ok EXIT_UPLOAD_FAILED
  | Throw e => Throw e
  | Diverge => Diverge
  end.

Definition closing (r : Res bool) : Console :=
  match r with
  | Ok true => [(Cout, "Backup and upload completed successfully." ++ nl)]
  | Ok false => [(Cerr, "Backup and upload failed. See logs for details." ++ nl)]
  | _ => []
  end.

(** Diagnostics: lines on the error stream, at least one. *)
Definition diagnostics (l : Console) : Prop :=
  l <> [] /\ Forall (fun p => fst p = Cerr) l.

(** A command line for the examples: the six positional arguments. *)
Definition positional : list string :=
  ["db"; "ftp.example.org"; "21"; "user"; "secret"; "backups"].

Definition bare_host : Host := mkHost None (fun name => name) (fun name => name).

End Cli.

(** Two outcomes of [main] that agree in everything but the password on the
    transfer handles. *)
Definition alike (x1 x2 : Res Z * (Cli.Console * World)) : Prop :=
  fst x1 = fst x2
  /\ fst (snd x1) = fst (snd x2)
  /\ map redact (trace (snd (snd x1))) = map redact (trace (snd (snd x2)))
  /\ fs (snd (snd x1)) = fs (snd (snd x2)).

(** ** Facts about strings *)

Lemma append_nil_r (s : string) : s ++ "" = s.
Proof. induction s as [|c s IH]; simpl; [reflexivity | now rewrite IH]. Qed.

Lemma append_assoc (a b c : string) : (a ++ b) ++ c = a ++ b ++ c.
Proof. induction a as [|x a IH]; simpl; [reflexivity | now rewrite IH]. Qed.

Lemma rev_append_spec (s acc : string) : Str.rev_append s acc = Str.rev s ++ acc.
Proof.
  unfold Str.rev. revert acc.
  induction s as [|c s IH]; intro acc; simpl; [reflexivity|].
  rewrite (IH (String c "")), IH, append_assoc. reflexivity.
Qed.

Lemma rev_cons (c : ascii) (s : string) : Str.rev (String c s) = Str.rev s ++ String c "".
Proof. unfold Str.rev at 1. simpl. apply rev_append_spec. Qed.

Lemma rev_app (a b : string) : Str.rev (a ++ b) = Str.rev b ++ Str.rev a.
Proof.
  induction a as [|x a IH]; simpl.
  - now rewrite append_nil_r.
  - now rewrite !rev_cons, IH, append_assoc.
Qed.

Lemma rev_involutive (s : string) : Str.rev (Str.rev s) = s.
Proof.
  induction s as [|c s IH]; [reflexivity|].
  rewrite rev_cons, rev_app, IH. reflexivity.
Qed.

Lemma replicate_snoc (n : nat) (ch : ascii) :
  Str.replicate n ch ++ String ch "" = String ch (Str.replicate n ch).
Proof. induction n as [|n IH]; simpl; [reflexivity | now rewrite IH]. Qed.

Lemma rev_replicate (n : nat) (ch : ascii) : Str.rev (Str.replicate n ch) = Str.replicate n ch.
Proof.
  induction n as [|n IH]; [reflexivity|].
  simpl. rewrite rev_cons, IH. apply replicate_snoc.
Qed.

Lemma replace_length from to s : String.length (Str.replace from to s) = String.length s.
Proof. induction s as [|c s IH]; simpl; congruence. Qed.

Lemma replace_get from to s n :
  String.get n (Str.replace from to s)
  = option_map (fun c => if Ascii.eqb c from then to else c) (String.get n s).
Proof.
  revert n. induction s as [|c s IH]; intros [|n]; simpl; auto.
Qed.

(** The front loop removes a run of [ch] and stops at the first other character. *)
Lemma erase_front_while_spec ch s :
  exists i, s = Str.replicate i ch ++ Str.erase_front_while ch s
            /\ forall r, Str.erase_front_while ch s <> String ch r.
Proof.
  induction s as [|c s [i [E N]]]; simpl.
  - exists O. split; [reflexivity | discriminate].
  - destruct (Ascii.eqb_spec c ch) as [->|Hne].
    + exists (S i). simpl. split; [now rewrite <- E | exact N].
    + exists O. split; [reflexivity|]. intros r H. inversion H. contradiction.
Qed.

Lemma erase_front_while_head ch c s :
  c <> ch -> Str.erase_front_while ch (String c s) = String c s.
Proof. intro H. simpl. destruct (Ascii.eqb_spec c ch); [contradiction | reflexivity]. Qed.

(** The back loop removes a run of [ch] at the end, and nothing else. *)
Lemma pop_back_while_spec ch s :
  exists j, s = Str.pop_back_while ch s ++ Str.replicate j ch
            /\ forall r, Str.pop_back_while ch s <> r ++ String ch "".
Proof.
  unfold Str.pop_back_while.
  destruct (erase_front_while_spec ch (Str.rev s)) as [j [E N]].
  exists j. split.
  - rewrite <- (rev_involutive s) at 1. rewrite E at 1.
    now rewrite rev_app, rev_replicate.
  - intros r H. apply (N (Str.rev r)).
    rewrite <- (rev_involutive (Str.erase_front_while ch (Str.rev s))), H.
    now rewrite rev_app.
Qed.

Lemma pop_back_while_keeps_front ch s :
  (forall r, s <> String ch r) -> forall r, Str.pop_back_while ch s <> String ch r.
Proof.
  intros Hs r H.
  destruct (pop_back_while_spec ch s) as [j [E _]].
  rewrite H in E. simpl in E. exact (Hs _ E).
Qed.

(** C4.  [buildUrl] maps the three spellings of the directory [a/b] to one URL,
    for every host, port and file name; and in general the URL is
    [ftp://host[:port]/cleaned/filename], where the port is printed when it is
    positive, the cleaned directory is the remote directory with every backslash
    turned into a slash and all leading and all trailing slashes removed, and
    the directory segment is present only when the cleaned directory is not
    empty. *)
Theorem buildUrl_normalises_directory (u : FtpUploader) (f : string) :
  (buildUrl u "a\b\" f = buildUrl u "/a/b/" f /\ buildUrl u "/a/b/" f = buildUrl u "a/b" f)
  /\ forall remoteDir : string,
       let slashed := Str.replace "\"%char "/"%char remoteDir in
       let cleaned := cleanDir remoteDir in
       String.length slashed = String.length remoteDir
       /\ (forall n, String.get n slashed
                     = option_map (fun c => if Ascii.eqb c "\"%char then "/"%char else c)
                                  (String.get n remoteDir))
       /\ (exists i j, slashed = Str.replicate i "/"%char ++ cleaned ++ Str.replicate j "/"%char)
       /\ (forall r, cleaned <> String "/"%char r)
       /\ (forall r, cleaned <> r ++ "/")
       /\ buildUrl u remoteDir f
          = "ftp://" ++ host u
            ++ (if 0 <? port u then ":" ++ Str.to_string (port u) else "")
            ++ (match cleaned with EmptyString => "" | _ => "/" ++ cleaned end)
            ++ "/" ++ f.
Proof.
  split; [split; reflexivity|].
  intros remoteDir slashed cleaned.
  destruct (erase_front_while_spec "/"%char slashed) as [i [Ei Ni]].
  destruct (pop_back_while_spec "/"%char (Str.erase_front_while "/"%char slashed))
    as [j [Ej Nj]].
  repeat split.
  - apply replace_length.
  - apply replace_get.
  - exists i, j. rewrite Ei at 1. now rewrite Ej at 1.
  - apply pop_back_while_keeps_front, Ni.
  - exact Nj.
  - unfold buildUrl. fold cleaned.
    destruct (0 <? port u), cleaned; simpl;
      rewrite ?append_assoc; simpl; rewrite ?append_assoc; reflexivity.
Qed.

(** ** The transport client *)

Lemma world_eta (w : World) : w = mkWorld (trace w ++ []) (fs w).
Proof. destruct w. cbn. now rewrite app_nil_r. Qed.

Lemma uploader_eta (u : FtpUploader) : u = setLastError (lastError u) u.
Proof. destruct u. reflexivity. Qed.

Lemma res_pair_state {A S} (x : Res A * S) (r : Res A) : fst x = r -> x = (r, snd x).
Proof. destruct x. cbn. intros ->. reflexivity. Qed.

Lemma spec_backoff_code (k : Z) : 1 <= k -> backoff_ms k = spec_backoff k.
Proof.
  intro H. unfold backoff_ms, spec_backoff.
  rewrite Z.shiftl_1_l. reflexivity.
Qed.

Lemma schedule_app (a b : list Event) : schedule (a ++ b) = (schedule a ++ schedule b)%list.
Proof.
  induction a as [|e a IH]; [reflexivity|].
  destruct e; simpl; rewrite IH; reflexivity.
Qed.

Lemma schedule_logs (t : list Event) : Forall is_log t -> schedule t = [].
Proof.
  induction 1 as [|e t He _ IH]; [reflexivity|].
  destruct e; simpl in *; try contradiction. exact IH.
Qed.

Lemma Forall_log_upload u lf t : Forall is_log t -> Forall (upload_event u lf) t.
Proof.
  apply Forall_impl. intros [] H; simpl in H; try contradiction. constructor.
Qed.

(** [log_all] only logs. *)
Lemma log_all_spec (l : list (Level * string)) (w : World) :
  exists t, log_all l w = (Ok tt, mkWorld (trace w ++ t) (fs w)) /\ Forall is_log t.
Proof.
  revert w. induction l as [|[lvl msg] l IH]; intro w; simpl.
  - exists []. rewrite app_nil_r. destruct w; split; [reflexivity | constructor].
  - unfold bind, log, modify. simpl.
    destruct (IH (emit (EvLog lvl msg) w)) as [t [E F]].
    exists (EvLog lvl msg :: t). rewrite E. simpl. rewrite <- app_assoc. simpl.
    split; [reflexivity | constructor; [exact I | exact F]].
Qed.

(** The bridge never lets an exception through: it answers 1 when the callback
    throws and 0 otherwise. *)
Lemma curlProgress_spec (clientp : option ProgressCallback) (x : XferInfo) (w : World) :
  exists t,
    curlProgress clientp x w
    = (Ok (match clientp with
           | Some (Some cb) => if throws_on cb x then 1 else 0
           | _ => 0
           end),
       mkWorld (trace w ++ t) (fs w))
    /\ Forall is_log t.
Proof.
  destruct clientp as [[cb|]|]; simpl;
    try (exists []; rewrite app_nil_r; destruct w; split; [reflexivity | constructor]).
  unfold try_catch, invoke, bind, throws_on.
  destruct (log_all_spec (cb_logs (cb x)) w) as [t [E F]].
  exists t. rewrite E. destruct (cb_throw (cb x)); simpl; split; auto.
Qed.

Lemma deliver_progress_spec (cb : ProgressCallback) (reports : list XferInfo) (w : World) :
  exists t,
    deliver_progress (curlProgress (Some cb)) reports w
    = (Ok (aborts cb reports), mkWorld (trace w ++ t) (fs w))
    /\ Forall is_log t.
Proof.
  revert w. induction reports as [|x r IH]; intro w; cbn [deliver_progress].
  - exists []. rewrite app_nil_r. destruct w, cb; split; try reflexivity; constructor.
  - unfold bind.
    destruct (curlProgress_spec (Some cb) x w) as [t1 [E1 F1]]. rewrite E1.
    destruct cb as [f|]; simpl.
    + destruct (throws_on f x); simpl.
      * exists t1. split; [reflexivity | exact F1].
      * destruct (IH (mkWorld (trace w ++ t1) (fs w))) as [t2 [E2 F2]].
        exists (t1 ++ t2)%list. rewrite E2. simpl. rewrite app_assoc.
        split; [reflexivity | apply Forall_app; split; assumption].
    + destruct (IH (mkWorld (trace w ++ t1) (fs w))) as [t2 [E2 F2]].
      exists (t1 ++ t2)%list. rewrite E2. simpl. rewrite app_assoc.
      split; [reflexivity | apply Forall_app; split; assumption].
Qed.

Lemma configure_setLastError e u url lf fsize :
  configure (setLastError e u) url lf fsize = configure u url lf fsize.
Proof. reflexivity. Qed.

Lemma writeCallback_spec (chunk : string) (w : World) :
  exists t,
    writeCallback chunk w = (Ok (Z.of_nat (String.length chunk)), mkWorld (trace w ++ t) (fs w))
    /\ Forall is_log t.
Proof.
  unfold writeCallback, bind, ret.
  destruct (log_all_spec (map (fun line => (INFO, "FTP server: " ++ line))
                             (filter (fun line => negb (Str.empty line)) (Str.lines chunk))) w)
    as [t [E F]].
  rewrite E. exists t. split; [reflexivity | exact F].
Qed.

Lemma deliver_replies_spec (chunks : list string) (w : World) :
  exists t,
    deliver_replies chunks w = (Ok tt, mkWorld (trace w ++ t) (fs w)) /\ Forall is_log t.
Proof.
  revert w. induction chunks as [|c r IH]; intro w; cbn [deliver_replies].
  - exists []. rewrite <- world_eta. split; [reflexivity | constructor].
  - unfold bind. destruct (writeCallback_spec c w) as [t1 [E1 F1]]. rewrite E1.
    destruct (IH (mkWorld (trace w ++ t1) (fs w))) as [t2 [E2 F2]].
    exists (t1 ++ t2)%list. rewrite E2. cbn [trace fs]. rewrite app_assoc.
    split; [reflexivity | apply Forall_app; split; assumption].
Qed.

(** What the handle of an attempt holds where the callbacks are concerned. *)
Lemma configure_progress u url lf fsize :
  getopt CURLOPT_WRITEFUNCTION (configure u url lf fsize) = Some VWriteCallback
  /\ match progressCb u with
     | Some _ =>
         getopt CURLOPT_NOPROGRESS (configure u url lf fsize) = Some (VLong 0)
         /\ getopt CURLOPT_XFERINFOFUNCTION (configure u url lf fsize) = Some VCurlProgress
         /\ clientp_of (configure u url lf fsize) = Some (progressCb u)
     | None =>
         getopt CURLOPT_NOPROGRESS (configure u url lf fsize) = Some (VLong 1)
     end.
Proof.
  unfold configure, clientp_of.
  destruct (progressCb u), (negb (Str.empty (user u))), (negb (Str.empty (pass u))),
    (verbose u), fsize; repeat split; reflexivity.
Qed.

(** The status of an attempt is [attempt_status]; the transfer adds the
    [curl_easy_perform] call, the server's lines and the callback's log lines
    to the trace. *)
Lemma curl_easy_perform_status env u url lf k (w : World) :
  let h := configure u url lf (file_size env k) in
  exists t,
    curl_easy_perform h (transfer env k) (replies env k) w
    = (Ok (attempt_status env u k), mkWorld (trace w ++ EvCurlPerform h :: t) (fs w))
    /\ Forall is_log t.
Proof.
  intro h. unfold curl_easy_perform, attempt_status.
  unfold bind at 1. unfold modify at 1.
  destruct (configure_progress u url lf (file_size env k)) as [W C]. fold h in W, C.
  rewrite W. unfold bind at 1.
  destruct (deliver_replies_spec (replies env k) (emit (EvCurlPerform h) w)) as [t0 [E0 F0]].
  rewrite E0. cbn [emit trace fs].
  destruct (progressCb u) as [cb|] eqn:Ecb.
  - destruct C as [C1 [C2 C3]]. rewrite C1, C2, C3. cbn [aborts]. unfold bind, ret.
    destruct (deliver_progress_spec (Some cb) (fst (transfer env k))
                (mkWorld ((trace w ++ [EvCurlPerform h]) ++ t0) (fs w))) as [t [E F]].
    rewrite E. cbn [trace fs]. exists (t0 ++ t)%list.
    rewrite <- !app_assoc. cbn [app].
    split; [reflexivity | apply Forall_app; split; assumption].
  - rewrite C. cbn [aborts]. unfold ret. exists t0.
    rewrite <- !app_assoc. cbn [app]. split; [reflexivity | exact F0].
Qed.

Lemma upload_event_setLastError e u lf ev :
  upload_event (setLastError e u) lf ev -> upload_event u lf ev.
Proof.
  intros H. inversion H; subst; try constructor.
  exact (ue_perform u lf e0 url fsize).
Qed.

(** One turn of the retry loop whose attempt reaches the transfer. *)
Lemma upload_loop_step env lf url fn fuel a u w :
  a < maxRetries u -> fopen_rb env (a + 1) = true -> curl_easy_init env (a + 1) = true ->
  exists t,
    Forall (upload_event u lf) t /\
    if attempt_status env u (a + 1) =? CURLE_OK then
      upload_loop env lf url fn (S fuel) a (u, w)
      = (Ok Returned, (setLastError "" u, mkWorld (trace w ++ t) (fs w)))
      /\ schedule t = [Attempt]
    else
      upload_loop env lf url fn (S fuel) a (u, w)
      = upload_loop env lf url fn fuel (a + 1)
          (setLastError (curl_easy_strerror env (attempt_status env u (a + 1))) u,
           mkWorld (trace w ++ t) (fs w))
      /\ schedule t = Attempt :: (if a + 1 <? maxRetries u
                                  then [Sleep (backoff_ms (a + 1))] else []).
Proof.
  intros Ha Hf Hi. apply Z.ltb_lt in Ha.
  set (pre := [EvLog INFO ("FTP upload attempt " ++ Str.to_string (a + 1)
                           ++ " to URL: " ++ url); EvFopen lf; EvCurlEasyInit]).
  set (h := configure u url lf (file_size env (a + 1))).
  destruct (curl_easy_perform_status env u url lf (a + 1)
              (mkWorld (trace w ++ pre) (fs w))) as [tl [E F]].
  cbv zeta in E. fold h in E. cbn [trace fs] in E.
  assert (L : schedule tl = []) by (apply schedule_logs, F).
  assert (U : Forall (upload_event u lf) tl) by (apply Forall_log_upload, F).
  assert (P : Forall (upload_event u lf) (pre ++ EvCurlPerform h :: tl)).
  { repeat (apply Forall_cons; [constructor|]).
    apply Forall_cons; [exact (ue_perform u lf (lastError u) url _) | exact U]. }
  assert (X : upload_loop env lf url fn (S fuel) a (u, w)
             = (let (r, s') := let (r, w') := curl_easy_perform h (transfer env (a + 1)) (replies env (a + 1))
                                                (mkWorld (trace w ++ pre) (fs w)) in
                               (r, (setLastError "" u, w')) in
                match r with
                | Ok res =>
                    (if res =? CURLE_OK then
                       liftW (info ("FTP upload succeeded: " ++ fn)) ;; ret Returned
                     else
                       update (setLastError (curl_easy_strerror env res)) ;;
                       u' <- this ;;
                       liftW (warn ("FTP upload attempt " ++ Str.to_string (a + 1)
                                    ++ " failed: " ++ lastError u')) ;;
                       (if a + 1 <? maxRetries u' then
                          liftW (info "Retrying after backoff...") ;;
                          liftW (sleepForBackoff (a + 1))
                        else ret tt) ;;
                       upload_loop env lf url fn fuel (a + 1)) s'
                | Throw e => (Throw e, s')
                | Diverge => (Diverge, s')
                end)).
  { cbn [upload_loop].
    unfold bind at 1. unfold this at 1. cbn [fst snd]. rewrite Ha.
    unfold bind at 1. unfold liftW at 1, info at 1, log, modify. cbn [fst snd].
    unfold bind at 1. unfold liftW at 1. cbn [fst snd]. rewrite Hf. cbn [negb].
    unfold bind at 1. unfold liftW at 1. cbn [fst snd]. rewrite Hi. cbn [negb].
    unfold bind at 1. unfold update at 1. cbn [fst snd].
    unfold bind at 1. unfold liftW at 1. cbn [fst snd].
    unfold emit. cbn [trace fs]. rewrite <- !app_assoc. cbn [app]. reflexivity. }
  rewrite X, E. clear X.
  destruct (attempt_status env u (a + 1) =? CURLE_OK) eqn:Est.
  - exists (pre ++ EvCurlPerform h :: tl ++ [EvLog INFO ("FTP upload succeeded: " ++ fn)])%list.
    split; [|split].
    + rewrite app_comm_cons, app_assoc. apply Forall_app. split; [exact P | repeat constructor].
    + unfold bind, liftW, info, log, modify, ret, emit. cbn.
      rewrite <- ?app_assoc. cbn. rewrite <- ?app_assoc. reflexivity.
    + rewrite schedule_app. cbn. rewrite schedule_app, L. reflexivity.
  - destruct (a + 1 <? maxRetries u) eqn:Elt.
    + exists (pre ++ EvCurlPerform h :: tl
              ++ [EvLog WARNING ("FTP upload attempt " ++ Str.to_string (a + 1) ++ " failed: "
                                 ++ curl_easy_strerror env (attempt_status env u (a + 1)));
                  EvLog INFO "Retrying after backoff..."; EvSleep (backoff_ms (a + 1))])%list.
      split; [|split].
      * rewrite app_comm_cons, app_assoc. apply Forall_app. split; [exact P | repeat constructor].
      * unfold bind, liftW, info, warn, log, modify, update, this, ret, sleepForBackoff, emit.
        cbn. rewrite Elt. cbn. rewrite <- ?app_assoc. cbn. rewrite <- ?app_assoc. reflexivity.
      * rewrite schedule_app. cbn. rewrite schedule_app, L. reflexivity.
    + exists (pre ++ EvCurlPerform h :: tl
              ++ [EvLog WARNING ("FTP upload attempt " ++ Str.to_string (a + 1) ++ " failed: "
                                 ++ curl_easy_strerror env (attempt_status env u (a + 1)))])%list.
      split; [|split].
      * rewrite app_comm_cons, app_assoc. apply Forall_app. split; [exact P | repeat constructor].
      * unfold bind, liftW, info, warn, log, modify, update, this, ret, sleepForBackoff, emit.
        cbn. rewrite Elt. cbn. rewrite <- ?app_assoc. cbn. rewrite <- ?app_assoc. reflexivity.
      * rewrite schedule_app. cbn. rewrite schedule_app, L. reflexivity.
Qed.
(** [m] failing attempts in a row are [m] turns of the loop. *)
Lemma upload_loop_failures env lf url fn (m : nat) :
  forall fuel a u w,
    0 <= a -> a + Z.of_nat m <= maxRetries u ->
    (forall k, a < k <= a + Z.of_nat m ->
               fopen_rb env k = true /\ curl_easy_init env k = true
               /\ attempt_status env u k <> CURLE_OK) ->
    exists t e,
      upload_loop env lf url fn (m + fuel) a (u, w)
      = upload_loop env lf url fn fuel (a + Z.of_nat m)
          (setLastError e u, mkWorld (trace w ++ t) (fs w))
      /\ schedule t = failures_from m a (maxRetries u)
      /\ Forall (upload_event u lf) t
      /\ ((0 < m)%nat ->
          e = curl_easy_strerror env (attempt_status env u (a + Z.of_nat m)))
      /\ (m = O -> e = lastError u).
Proof.
  induction m as [|m IH]; intros fuel a u w Ha HR Hall.
  - exists [], (lastError u). rewrite Z.add_0_r, <- world_eta, <- uploader_eta.
    repeat split; auto. lia.
  - destruct (Hall (a + 1)) as [Hf [Hi Hs]]; [lia|].
    destruct (upload_loop_step env lf url fn (m + fuel) a u w) as [t1 [U1 S1]];
      [lia | exact Hf | exact Hi |].
    apply Z.eqb_neq in Hs. rewrite Hs in S1. destruct S1 as [E1 S1].
    set (u1 := setLastError (curl_easy_strerror env (attempt_status env u (a + 1))) u) in *.
    destruct (IH fuel (a + 1) u1 (mkWorld (trace w ++ t1) (fs w))) as [t2 [e [E2 [S2 [U2 [L2 L0]]]]]].
    + lia.
    + cbn [u1 maxRetries setLastError]. lia.
    + intros k Hk. apply Hall. lia.
    + exists (t1 ++ t2)%list.
      exists (match m with O => curl_easy_strerror env (attempt_status env u (a + 1)) | _ => e end).
      cbn [plus Nat.add]. rewrite E1, E2. cbn [trace fs].
      replace (a + 1 + Z.of_nat m) with (a + Z.of_nat (S m)) by lia.
      rewrite app_assoc.
      split; [|split; [|split; [|split]]].
      * destruct m; [rewrite (L0 eq_refl)|]; reflexivity.
      * rewrite schedule_app, S1, S2. cbn [failures_from]. reflexivity.
      * apply Forall_app. split; [exact U1|].
        revert U2. apply Forall_impl. intro ev. apply upload_event_setLastError.
      * intros _. destruct m.
        -- replace (a + Z.of_nat 1) with (a + 1) by lia. reflexivity.
        -- rewrite L2 by lia.
           replace (a + 1 + Z.of_nat (S m)) with (a + Z.of_nat (S (S m))) by lia.
           reflexivity.
      * discriminate.
Qed.
Lemma failures_prefix (m : nat) : forall a R,
  0 <= a -> a + Z.of_nat m < R ->
  (failures_from m a R ++ [Attempt])%list = Attempt :: retries_after m (a + 1).
Proof.
  induction m as [|m IH]; intros a R Ha HR; [reflexivity|].
  cbn [failures_from retries_after].
  replace (a + 1 <? R) with true by (symmetry; apply Z.ltb_lt; lia).
  cbn [app]. rewrite IH by lia. rewrite spec_backoff_code by lia. reflexivity.
Qed.

Lemma failures_snoc (m : nat) : forall a R,
  failures_from (S m) a R
  = (failures_from m a R
     ++ Attempt :: (if a + Z.of_nat (S m) <? R
                    then [Sleep (backoff_ms (a + Z.of_nat (S m)))] else []))%list.
Proof.
  induction m as [|m IH]; intros a R.
  - cbn. rewrite app_nil_r. reflexivity.
  - change (failures_from (S (S m)) a R)
      with (Attempt :: (if a + 1 <? R then [Sleep (backoff_ms (a + 1))] else [])
            ++ failures_from (S m) (a + 1) R)%list.
    rewrite IH. cbn [failures_from].
    replace (a + 1 + Z.of_nat (S m)) with (a + Z.of_nat (S (S m))) by lia.
    rewrite app_comm_cons, app_assoc. reflexivity.
Qed.

Lemma failures_all (m : nat) (a : Z) :
  0 <= a -> failures_from (S m) a (a + Z.of_nat (S m)) = Attempt :: retries_after m (a + 1).
Proof.
  intro Ha. rewrite failures_snoc, Z.ltb_irrefl.
  apply failures_prefix; lia.
Qed.

Lemma attempts_in_retries (m : nat) (k : Z) : attempts_in (retries_after m k) = Z.of_nat m.
Proof.
  revert k. induction m as [|m IH]; intro k; [reflexivity|].
  cbn [retries_after attempts_in]. rewrite IH. lia.
Qed.

Lemma total_sleep_retries (m : nat) : forall j : nat,
  total_sleep (retries_after m (Z.of_nat (S j))) = sum_backoff (j + m) - sum_backoff j.
Proof.
  induction m as [|m IH]; intro j.
  - rewrite Nat.add_0_r. cbn. lia.
  - cbn [retries_after total_sleep].
    replace (Z.of_nat (S j) + 1) with (Z.of_nat (S (S j))) by lia.
    rewrite IH. replace (j + S m)%nat with (S j + m)%nat by lia.
    cbn [sum_backoff]. lia.
Qed.

(** The schedule of [j] attempts: [j] transfers, and the sleeps
    [spec_backoff 1 .. spec_backoff (j-1)] between them. *)
Lemma attempts_made_counts (j : Z) :
  1 <= j ->
  attempts_in (attempts_made j) = j
  /\ total_sleep (attempts_made j) = sum_backoff (Z.to_nat (j - 1))
  /\ last (attempts_made j) Attempt = Attempt.
Proof.
  intro Hj. unfold attempts_made. cbn [attempts_in total_sleep].
  rewrite attempts_in_retries, (total_sleep_retries _ 0). cbn [sum_backoff Nat.add].
  split; [lia | split; [lia|]].
  generalize 1 at 2. induction (Z.to_nat (j - 1)) as [|m IH]; intro k; [reflexivity|].
  cbn [retries_after]. specialize (IH (k + 1)).
  destruct (retries_after m (k + 1)); [reflexivity | exact IH].
Qed.

Lemma uploadFile_unfold env lf rd u w :
  fs w lf <> None ->
  uploadFile env lf rd (u, w)
  = match upload_loop env lf (buildUrl u rd (Str.filename lf)) (Str.filename lf)
            (S (Z.to_nat (maxRetries u))) 0
            (setLastError "" u,
             mkWorld (trace w ++ [EvLog INFO ("Preparing to upload file: " ++ lf ++ " to " ++ rd)])
                     (fs w)) with
    | (Ok Returned, s) => (Ok tt, s)
    | (Ok Exhausted, s) =>
        (Throw (runtime_error ("FTP upload failed: " ++ lastError (fst s))),
         (fst s, emit (EvLog ERROR ("FTP upload failed after "
                                    ++ Str.to_string (maxRetries (fst s))
                                    ++ " attempts: " ++ lastError (fst s))) (snd s)))
    | (Throw e, s) => (Throw e, s)
    | (Diverge, s) => (Diverge, s)
    end.
Proof.
  intro H. unfold uploadFile.
  unfold bind at 1. unfold liftW at 1, info at 1, log, modify. cbn [fst snd].
  unfold bind at 1. unfold liftW at 1, fs_exists. cbn [fst snd emit fs trace].
  destruct (fs w lf) as [d|]; [|contradiction]. cbn [negb].
  unfold bind at 1. unfold this at 1. cbn [fst snd].
  unfold bind at 1. unfold update at 1. cbn [fst snd].
  unfold bind at 1.
  cbn [maxRetries setLastError].
  destruct (upload_loop _ _ _ _ _ _ _) as [[[]|e|] s]; try reflexivity.
Qed.
(** The loop stops at once when the attempt counter has reached the limit. *)
Lemma upload_loop_exhausted env lf url fn fuel a u w :
  maxRetries u <= a ->
  upload_loop env lf url fn (S fuel) a (u, w) = (Ok Exhausted, (u, w)).
Proof.
  intro H. cbn [upload_loop]. unfold bind, this. cbn [fst snd].
  replace (a <? maxRetries u) with false by (symmetry; apply Z.ltb_ge; exact H).
  reflexivity.
Qed.

(** Every attempt fails: [maxRetries] attempts, then the error. *)
Lemma uploadFile_all_fail env lf rd u w :
  1 <= maxRetries u -> fs w lf <> None ->
  (forall k, 1 <= k <= maxRetries u ->
             fopen_rb env k = true /\ curl_easy_init env k = true
             /\ attempt_status env u k <> CURLE_OK) ->
  exists t,
    uploadFile env lf rd (u, w)
    = (Throw (runtime_error
               ("FTP upload failed: "
                ++ curl_easy_strerror env (attempt_status env u (maxRetries u)))),
       (setLastError (curl_easy_strerror env (attempt_status env u (maxRetries u))) u,
        mkWorld (trace w ++ t) (fs w)))
    /\ schedule t = attempts_made (maxRetries u)
    /\ Forall (upload_event u lf) t.
Proof.
  intros HR Hfs Hall.
  rewrite uploadFile_unfold by exact Hfs.
  set (R := Z.to_nat (maxRetries u)).
  assert (HRn : Z.of_nat R = maxRetries u) by (unfold R; lia).
  set (w0 := mkWorld _ _).
  destruct (upload_loop_failures env lf (buildUrl u rd (Str.filename lf)) (Str.filename lf)
              R 1%nat 0 (setLastError "" u) w0) as [t [e [E [S [U [L _]]]]]].
  - lia.
  - cbn [maxRetries setLastError]. lia.
  - intros k Hk. apply Hall. lia.
  - replace (Datatypes.S R) with (R + 1)%nat by lia. rewrite E.
    rewrite upload_loop_exhausted by (cbn [maxRetries setLastError]; lia).
    cbn [fst snd lastError setLastError maxRetries emit trace fs w0].
    rewrite L by lia. cbn [Z.add] in *. rewrite HRn.
    unfold emit. cbn [trace fs]. rewrite <- !app_assoc.
    eexists. split; [|split].
    + reflexivity.
    + rewrite !schedule_app, S. cbn [schedule app maxRetries setLastError].
      rewrite app_nil_r. unfold attempts_made.
      destruct R as [|m] eqn:ER; [lia|].
      rewrite <- HRn. replace (Z.of_nat (Datatypes.S m) - 1) with (Z.of_nat m) by lia.
      rewrite Nat2Z.id. change (Z.of_nat (Datatypes.S m)) with (0 + Z.of_nat (Datatypes.S m)).
      rewrite failures_all by lia. reflexivity.
    + apply Forall_cons; [constructor|]. apply Forall_app. split; [|repeat constructor].
      revert U. apply Forall_impl. intro ev. apply upload_event_setLastError.
Qed.

(** Attempt [j] is the first to succeed: [j] attempts, then a plain return. *)
Lemma uploadFile_first_success env lf rd u w (j : Z) :
  1 <= j <= maxRetries u -> fs w lf <> None ->
  (forall k, 1 <= k <= j -> fopen_rb env k = true /\ curl_easy_init env k = true) ->
  (forall k, 1 <= k < j -> attempt_status env u k <> CURLE_OK) ->
  attempt_status env u j = CURLE_OK ->
  exists t,
    uploadFile env lf rd (u, w) = (Ok tt, (setLastError "" u, mkWorld (trace w ++ t) (fs w)))
    /\ schedule t = attempts_made j
    /\ Forall (upload_event u lf) t.
Proof.
  intros Hj Hfs Hok Hfail Hsucc.
  rewrite uploadFile_unfold by exact Hfs.
  set (m := Z.to_nat (j - 1)).
  assert (Hm : Z.of_nat m = j - 1) by (unfold m; lia).
  set (w0 := mkWorld _ _).
  set (url := buildUrl u rd (Str.filename lf)).
  set (fuel := (Z.to_nat (maxRetries u) - m)%nat).
  destruct (upload_loop_failures env lf url (Str.filename lf)
              m (Datatypes.S fuel) 0 (setLastError "" u) w0) as [t [e [E [S [U _]]]]].
  - lia.
  - cbn [maxRetries setLastError]. lia.
  - intros k Hk. destruct (Hok k) as [? ?]; [lia|].
    repeat split; try assumption. apply Hfail. lia.
  - replace (Datatypes.S (Z.to_nat (maxRetries u))) with (m + Datatypes.S fuel)%nat
      by (unfold fuel; lia).
    rewrite E. cbn [Z.add]. rewrite Hm.
    destruct (upload_loop_step env lf url (Str.filename lf) fuel (j - 1)
                (setLastError e (setLastError "" u))
                (mkWorld (trace w0 ++ t) (fs w0))) as [t1 [U1 S1]].
    + cbn [maxRetries setLastError]. lia.
    + replace (j - 1 + 1) with j by lia. apply Hok. lia.
    + replace (j - 1 + 1) with j by lia. apply Hok. lia.
    + replace (j - 1 + 1) with j in S1 by lia.
      change (attempt_status env (setLastError e (setLastError "" u)) j)
        with (attempt_status env u j) in S1.
      rewrite Hsucc in S1. cbn [Z.eqb CURLE_OK] in S1. destruct S1 as [E1 S1].
      rewrite E1. cbn [w0 trace fs]. rewrite <- !app_assoc.
      eexists. split; [|split].
      * reflexivity.
      * rewrite !schedule_app, S, S1. cbn [schedule app maxRetries setLastError].
        unfold attempts_made. fold m.
        change (retries_after m 1) with (retries_after m (0 + 1)).
        apply failures_prefix; lia.
      * apply Forall_cons; [constructor|]. apply Forall_app. split.
        -- revert U. apply Forall_impl. intro ev. apply upload_event_setLastError.
        -- revert U1. apply Forall_impl. intros ev Hev.
           apply (upload_event_setLastError ""), (upload_event_setLastError e), Hev.
Qed.
(** Whatever the surroundings answer, the loop only makes [upload_event]
    calls, leaves the files alone, changes no field but [lastError], and ends
    within [maxRetries - attempt] turns. *)
Lemma upload_loop_events env lf url fn (fuel : nat) :
  forall a u w,
  exists r e t,
    upload_loop env lf url fn fuel a (u, w)
    = (r, (setLastError e u, mkWorld (trace w ++ t) (fs w)))
    /\ Forall (upload_event u lf) t
    /\ ((Z.to_nat (maxRetries u - a) < fuel)%nat -> r <> Diverge).
Proof.
  induction fuel as [|fuel IH]; intros a u w.
  - exists Diverge, (lastError u), []. rewrite <- world_eta, <- uploader_eta.
    split; [reflexivity | split; [constructor | lia]].
  - destruct (Z.ltb_spec a (maxRetries u)) as [Hlt|Hge].
    2:{ exists (Ok Exhausted), (lastError u), [].
        rewrite upload_loop_exhausted by exact Hge. rewrite <- world_eta, <- uploader_eta.
        split; [reflexivity | split; [constructor | discriminate]]. }
    destruct (fopen_rb env (a + 1)) eqn:Hf.
    2:{ exists (Throw (runtime_error ("Failed to open local file: " ++ lf))), (lastError u).
        eexists. split; [|split; [|discriminate]].
        - cbn [upload_loop]. unfold bind, liftW, this, info, error, log, modify, throw, emit.
          cbn [fst snd]. apply Z.ltb_lt in Hlt. rewrite Hlt, Hf. cbn [negb fst snd trace fs].
          rewrite <- !app_assoc, <- uploader_eta. reflexivity.
        - repeat constructor. }
    destruct (curl_easy_init env (a + 1)) eqn:Hi.
    2:{ exists (Throw (runtime_error "Failed to initialize curl")), (lastError u).
        eexists. split; [|split; [|discriminate]].
        - cbn [upload_loop]. unfold bind, liftW, this, info, error, log, modify, throw, emit.
          cbn [fst snd]. apply Z.ltb_lt in Hlt. rewrite Hlt, Hf, Hi. cbn [negb fst snd trace fs].
          rewrite <- !app_assoc, <- uploader_eta. reflexivity.
        - repeat constructor. }
    destruct (upload_loop_step env lf url fn fuel a u w Hlt Hf Hi) as [t1 [U1 S1]].
    destruct (attempt_status env u (a + 1) =? CURLE_OK).
    + destruct S1 as [E1 _]. exists (Ok Returned), "", t1.
      split; [exact E1 | split; [exact U1 | discriminate]].
    + destruct S1 as [E1 _].
      set (u1 := setLastError _ u) in E1.
      destruct (IH (a + 1) u1 (mkWorld (trace w ++ t1) (fs w))) as [r [e [t2 [E2 [U2 D2]]]]].
      exists r, e, (t1 ++ t2)%list. rewrite E1, E2. cbn [trace fs]. rewrite app_assoc.
      split; [reflexivity | split].
      * apply Forall_app. split; [exact U1|].
        revert U2. apply Forall_impl. intro ev. apply upload_event_setLastError.
      * intro Hfuel. apply D2. cbn [u1 maxRetries setLastError]. lia.
Qed.

(** The same for the whole of [uploadFile], which always comes back. *)
Lemma uploadFile_events env lf rd u w :
  exists r e t,
    uploadFile env lf rd (u, w) = (r, (setLastError e u, mkWorld (trace w ++ t) (fs w)))
    /\ Forall (upload_event u lf) t
    /\ r <> Diverge.
Proof.
  destruct (fs w lf) as [d|] eqn:Hfs.
  - rewrite uploadFile_unfold by congruence.
    set (w0 := mkWorld _ _).
    destruct (upload_loop_events env lf (buildUrl u rd (Str.filename lf)) (Str.filename lf)
                (S (Z.to_nat (maxRetries u))) 0 (setLastError "" u) w0)
      as [r [e [t [E [U D]]]]].
    rewrite E.
    assert (U' : Forall (upload_event u lf) t).
    { revert U. apply Forall_impl. intro ev. apply upload_event_setLastError. }
    assert (D' : r <> Diverge).
    { apply D. cbn [maxRetries setLastError]. lia. }
    destruct r as [[]|ex|]; [| | |contradiction].
    + exists (Ok tt), e. eexists. cbn [w0 trace fs]. rewrite <- app_assoc.
      split; [reflexivity | split; [|discriminate]].
      apply Forall_cons; [constructor | exact U'].
    + eexists. exists e. eexists. unfold emit. cbn [w0 fst snd trace fs].
      rewrite <- !app_assoc.
      split; [reflexivity | split; [|discriminate]].
      apply Forall_cons; [constructor|]. apply Forall_app. split; [exact U' | repeat constructor].
    + exists (Throw ex), e. eexists. cbn [w0 trace fs]. rewrite <- app_assoc.
      split; [reflexivity | split; [|discriminate]].
      apply Forall_cons; [constructor | exact U'].
  - exists (Throw (runtime_error ("Local file does not exist: " ++ lf))), (lastError u).
    eexists. split; [|split; [|discriminate]].
    + unfold uploadFile, bind, liftW, fs_exists, info, error, log, modify, throw, emit.
      cbn [fst snd trace fs]. rewrite Hfs. cbn [negb fst snd trace fs].
      rewrite <- !app_assoc, <- uploader_eta. reflexivity.
    + repeat constructor.
Qed.

(** C1.  With retry limit [R >= 1], an existing local file, and every attempt
    getting as far as the transfer: attempts are numbered from 1 and an
    attempt fails when the status [curl_easy_perform] returns is not
    [CURLE_OK]; after failed
    attempt [k < R] the call sleeps [500 * 2^min(k-1,6)] ms and tries again;
    it returns on the first successful attempt [j], having made [j] attempts;
    and when every attempt fails it makes exactly [R] attempts, sleeps
    [spec_backoff 1 + ... + spec_backoff (R-1)] in total, none of it after the
    last attempt, and throws an error that carries the error text of the last
    attempt. *)
Theorem uploadFile_retry_backoff env lf rd u w :
  1 <= maxRetries u ->
  fs w lf <> None ->
  (forall k, 1 <= k <= maxRetries u ->
             fopen_rb env k = true /\ curl_easy_init env k = true) ->
  let R := maxRetries u in
  let status := attempt_status env u in
  (forall k url w0,
     fst (curl_easy_perform (configure u url lf (file_size env k)) (transfer env k)
            (replies env k) w0) = Ok (status k))
  /\ (forall k, 1 <= k -> backoff_ms k = 500 * 2 ^ Z.min (k - 1) 6)
  /\ (forall j,
        1 <= j <= R ->
        (forall k, 1 <= k < j -> status k <> CURLE_OK) ->
        status j = CURLE_OK ->
        exists t u' w',
          uploadFile env lf rd (u, w) = (Ok tt, (u', w'))
          /\ trace w' = (trace w ++ t)%list
          /\ schedule t = attempts_made j
          /\ attempts_in (schedule t) = j
          /\ total_sleep (schedule t) = sum_backoff (Z.to_nat (j - 1))
          /\ last (schedule t) Attempt = Attempt)
  /\ ((forall k, 1 <= k <= R -> status k <> CURLE_OK) ->
      exists t u' w',
        uploadFile env lf rd (u, w)
        = (Throw (runtime_error ("FTP upload failed: " ++ curl_easy_strerror env (status R))),
           (u', w'))
        /\ lastError u' = curl_easy_strerror env (status R)
        /\ trace w' = (trace w ++ t)%list
        /\ schedule t = attempts_made R
        /\ attempts_in (schedule t) = R
        /\ total_sleep (schedule t) = sum_backoff (Z.to_nat (R - 1))
        /\ last (schedule t) Attempt = Attempt).
Proof.
  intros HR Hfs Hopen R status. split; [|split; [|split]].
  - intros k url w0.
    destruct (curl_easy_perform_status env u url lf k w0) as [t [E _]].
    cbv zeta in E. rewrite E. reflexivity.
  - intros k Hk. apply spec_backoff_code, Hk.
  - intros j Hj Hfail Hsucc.
    destruct (uploadFile_first_success env lf rd u w j) as [t [E [S _]]]; auto.
    { intros k Hk. apply Hopen. unfold R in Hj. lia. }
    destruct (attempts_made_counts j) as [A [T L]]; [lia|].
    exists t. eexists. eexists. rewrite S. repeat split; try eassumption. reflexivity.
  - intros Hall.
    destruct (uploadFile_all_fail env lf rd u w) as [t [E [S _]]]; auto.
    { intros k Hk. destruct (Hopen k Hk). repeat split; auto. }
    destruct (attempts_made_counts R) as [A [T L]]; [exact HR|].
    exists t. eexists. eexists. rewrite S. repeat split; try eassumption; reflexivity.
Qed.

Lemma uploadFile_retry_backoff_witness :
  exists t u' w',
    uploadFile Sample.refusing "test_upload.txt" "remote" (Sample.uploader, Sample.disk)
    = (Throw (runtime_error "FTP upload failed: curl error 7"), (u', w'))
    /\ trace w' = t
    /\ schedule t = [Attempt; Sleep 500; Attempt; Sleep 1000; Attempt]
    /\ total_sleep (schedule t) = 1500.
Proof.
  destruct (uploadFile_retry_backoff Sample.refusing "test_upload.txt" "remote"
              Sample.uploader Sample.disk) as [_ [_ [_ H]]].
  - cbn. lia.
  - cbn. discriminate.
  - intros k _. split; reflexivity.
  - destruct H as [t [u' [w' [E [_ [T [S [_ [Z _]]]]]]]]].
    + intros k _. cbv. discriminate.
    + exists t, u', w'. repeat split; assumption.
Defined.

(** C5.  When the local file does not exist, [uploadFile] throws at once: it
    logs, and makes no other call -- no [fopen], no curl handle, no transfer,
    no sleep -- whatever the remote directory and the configuration. *)
Theorem uploadFile_missing_file env lf rd u w :
  fs w lf = None ->
  exists t,
    uploadFile env lf rd (u, w)
    = (Throw (runtime_error ("Local file does not exist: " ++ lf)),
       (u, mkWorld (trace w ++ t) (fs w)))
    /\ Forall is_log t
    /\ schedule t = []
    /\ ~ In (EvFopen lf) t /\ ~ In EvCurlEasyInit t.
Proof.
  intro Hfs.
  exists [EvLog INFO ("Preparing to upload file: " ++ lf ++ " to " ++ rd);
          EvLog ERROR ("Local file does not exist: " ++ lf)].
  split; [|split; [|split; [|split]]].
  - unfold uploadFile, bind, liftW, fs_exists, info, error, log, modify, throw, emit.
    cbn [fst snd trace fs]. rewrite Hfs. cbn [negb fst snd trace fs].
    rewrite <- !app_assoc. reflexivity.
  - repeat constructor.
  - reflexivity.
  - intros [H|[H|[]]]; discriminate.
  - intros [H|[H|[]]]; discriminate.
Qed.

Lemma uploadFile_missing_file_witness :
  exists t,
    uploadFile Sample.accepting "nonexistent.txt" "remote" (Sample.uploader, Sample.disk)
    = (Throw (runtime_error "Local file does not exist: nonexistent.txt"),
       (Sample.uploader, mkWorld t (fs Sample.disk)))
    /\ schedule t = [].
Proof.
  destruct (uploadFile_missing_file Sample.accepting "nonexistent.txt" "remote"
              Sample.uploader Sample.disk eq_refl) as [t [E [_ [S _]]]].
  exists t. split; [exact E | exact S].
Defined.

Lemma configure_tls_policy u url lf fsize :
  tls_policy (sslVerify u) (configure u url lf fsize).
Proof.
  unfold tls_policy, configure.
  destruct (sslVerify u), (negb (Str.empty (user u))), (negb (Str.empty (pass u))),
    (verbose u), (progressCb u), fsize; repeat split; reflexivity.
Qed.

(** C7.  Every transfer [uploadFile] starts runs on a handle with
    [CURLOPT_USE_SSL] set to [CURLUSESSL_ALL], for both values of the verify
    flag; the flag decides the peer and host verification options and nothing
    else on the handle. *)
Theorem uploadFile_always_encrypts env lf rd u w :
  (exists r e t,
     uploadFile env lf rd (u, w) = (r, (setLastError e u, mkWorld (trace w ++ t) (fs w)))
     /\ Forall (transfers_obey (tls_policy (sslVerify u))) t)
  /\ (forall url fsize,
        tls_policy true (configure (setSslVerify true u) url lf fsize)
        /\ tls_policy false (configure (setSslVerify false u) url lf fsize)
        /\ without_verify_options (configure (setSslVerify true u) url lf fsize)
           = without_verify_options (configure (setSslVerify false u) url lf fsize)).
Proof.
  split.
  - destruct (uploadFile_events env lf rd u w) as [r [e [t [E [U _]]]]].
    exists r, e, t. split; [exact E|].
    revert U. apply Forall_impl. intros ev H. destruct H; cbn; try exact I.
    apply (configure_tls_policy (setLastError e0 u)).
  - intros url fsize. split; [|split].
    + apply (configure_tls_policy (setSslVerify true u)).
    + apply (configure_tls_policy (setSslVerify false u)).
    + unfold without_verify_options, configure. cbn [user pass verbose progressCb
        timeoutSeconds sslVerify setSslVerify].
      destruct (negb (Str.empty (user u))), (negb (Str.empty (pass u))),
        (verbose u), (progressCb u), fsize; reflexivity.
Qed.

(** C10.  A progress callback that throws does not get its exception past the
    bridge: [curlProgress] returns 1, libcurl aborts the transfer with
    [CURLE_ABORTED_BY_CALLBACK], and the retry loop treats the attempt as a
    failed one. *)
Theorem throwing_callback_fails_attempt env lf url fn fuel a u w cb x :
  progressCb u = Some cb ->
  In x (fst (transfer env (a + 1))) ->
  throws_on cb x = true ->
  a < maxRetries u ->
  fopen_rb env (a + 1) = true ->
  curl_easy_init env (a + 1) = true ->
  (forall w0, exists t,
      curlProgress (Some (progressCb u)) x w0 = (Ok 1, mkWorld (trace w0 ++ t) (fs w0))
      /\ Forall is_log t)
  /\ (forall w0, exists t,
        curl_easy_perform (configure u url lf (file_size env (a + 1))) (transfer env (a + 1))
          (replies env (a + 1)) w0
        = (Ok CURLE_ABORTED_BY_CALLBACK, mkWorld (trace w0 ++ t) (fs w0)))
  /\ (exists t,
        upload_loop env lf url fn (S fuel) a (u, w)
        = upload_loop env lf url fn fuel (a + 1)
            (setLastError (curl_easy_strerror env CURLE_ABORTED_BY_CALLBACK) u,
             mkWorld (trace w ++ t) (fs w))
        /\ attempts_in (schedule t) = 1).
Proof.
  intros Hcb Hx Hthrow Ha Hf Hi.
  assert (St : attempt_status env u (a + 1) = CURLE_ABORTED_BY_CALLBACK).
  { unfold attempt_status, aborts. rewrite Hcb.
    replace (existsb (throws_on cb) (fst (transfer env (a + 1)))) with true; [reflexivity|].
    symmetry. apply existsb_exists. exists x. split; assumption. }
  split; [|split].
  - intro w0. destruct (curlProgress_spec (Some (progressCb u)) x w0) as [t [E F]].
    rewrite Hcb in E |- *. rewrite Hthrow in E. exists t. split; assumption.
  - intro w0.
    destruct (curl_easy_perform_status env u url lf (a + 1) w0) as [t [E _]].
    cbv zeta in E. rewrite St in E. eexists. exact E.
  - destruct (upload_loop_step env lf url fn fuel a u w Ha Hf Hi) as [t [_ S1]].
    rewrite St in S1. cbn [Z.eqb CURLE_ABORTED_BY_CALLBACK CURLE_OK] in S1.
    destruct S1 as [E S1]. exists t. split; [exact E|].
    rewrite S1. destruct (a + 1 <? maxRetries u); reflexivity.
Qed.

Lemma throwing_callback_fails_attempt_witness :
  exists t,
    upload_loop Sample.accepting "test_upload.txt" "ftp://h/f" "f" 3 0
      (setProgressCallback (Some Sample.impatient) Sample.uploader, Sample.disk)
    = upload_loop Sample.accepting "test_upload.txt" "ftp://h/f" "f" 2 1
        (setLastError "curl error 42"
           (setProgressCallback (Some Sample.impatient) Sample.uploader),
         mkWorld t (fs Sample.disk))
    /\ attempts_in (schedule t) = 1.
Proof.
  destruct (throwing_callback_fails_attempt Sample.accepting "test_upload.txt" "ftp://h/f" "f"
              2 0 (setProgressCallback (Some Sample.impatient) Sample.uploader) Sample.disk
              Sample.impatient (mkXfer 0 0 13 13)) as [_ [_ H]].
  - reflexivity.
  - right. left. reflexivity.
  - reflexivity.
  - cbn. lia.
  - reflexivity.
  - reflexivity.
  - exact H.
Defined.

(** C2 (the code departs from it).  A freshly constructed [FtpUploader] has a
    30 second timeout, TLS verification on and verbose diagnostics off, but its
    retry limit is 1, not the 3 that the class declaration and the
    documentation of [setRetries] give as the default; [setRetries] enforces a
    minimum of 1 for every integer. *)
Theorem FtpUploader_ctor_defaults env h p usr pwd w :
  (exists u w',
     FtpUploader_ctor env h p usr pwd w = (Ok u, w')
     /\ timeoutSeconds u = 30 /\ timeoutSeconds u = Declared.timeoutSeconds
     /\ sslVerify u = true /\ sslVerify u = Declared.sslVerify
     /\ verbose u = false /\ verbose u = Declared.verbose
     /\ maxRetries u = 1 /\ Declared.maxRetries = 3)
  /\ (forall count u, maxRetries (setRetries count u) = Z.max 1 count
                      /\ 1 <= maxRetries (setRetries count u)).
Proof.
  split.
  - unfold FtpUploader_ctor, bind, warn, info, log, modify, ret.
    destruct (negb (curl_global_init env =? CURLE_OK));
      eexists; eexists; (split; [reflexivity|]); cbn;
      repeat (split; [reflexivity|]); reflexivity.
  - intros count u. cbn. split; [reflexivity | lia].
Qed.

(** What the retry limit of 1 means for a caller who sets nothing: against a
    server that refuses every connection, a fresh uploader gives up after a
    single attempt. *)
Lemma fresh_uploader_single_attempt :
  exists u w1 s,
    FtpUploader_ctor Sample.refusing "127.0.0.1" 21 "user" "pass" Sample.disk = (Ok u, w1)
    /\ uploadFile Sample.refusing "test_upload.txt" "remote" (u, w1)
       = (Throw (runtime_error "FTP upload failed: curl error 7"), s)
    /\ schedule (trace (snd s)) = [Attempt].
Proof.
  eexists. eexists. eexists. split; [reflexivity|].
  split; [apply res_pair_state; vm_compute; reflexivity | vm_compute; reflexivity].
Qed.

(** ** The snapshot engine *)

Lemma handle_at_shift a b i :
  handle_at a b (S i) = handle_at a (snd (sqlite3_backup_step a b 1024)) i.
Proof.
  induction i as [|i IH]; [reflexivity|].
  change (handle_at a b (S (S i)))
    with (snd (sqlite3_backup_step a (handle_at a b (S i)) 1024)).
  rewrite IH. reflexivity.
Qed.

Lemma status_at_shift a b i :
  status_at a b (S i) = status_at a (snd (sqlite3_backup_step a b 1024)) i.
Proof. unfold status_at. rewrite handle_at_shift. reflexivity. Qed.

Lemma first_exit_shift a b n :
  first_exit a b (S n) -> first_exit a (snd (sqlite3_backup_step a b 1024)) n.
Proof.
  intros [Hn Hlt]. split.
  - rewrite <- status_at_shift. exact Hn.
  - intros i Hi. rewrite <- status_at_shift. apply Hlt. lia.
Qed.

Lemma copy_schedule_shift a b n :
  copy_schedule a b (S n)
  = (step_events (status_at a b 0)
     ++ copy_schedule a (snd (sqlite3_backup_step a b 1024)) n)%list.
Proof.
  unfold copy_schedule. cbn [seq flat_map]. f_equal.
  rewrite <- seq_shift, !flat_map_concat_map, map_map. f_equal.
  apply map_ext. intro i. rewrite status_at_shift. reflexivity.
Qed.

Lemma copy_events_app (s t : list Event) :
  copy_events (s ++ t) = (copy_events s ++ copy_events t)%list.
Proof.
  induction s as [|e s IH]; [reflexivity|].
  destruct e; cbn; rewrite IH; reflexivity.
Qed.

Lemma copy_events_step_events rc : copy_events (step_events rc) = step_events rc.
Proof. unfold step_events. destruct (is_transient rc); reflexivity. Qed.

Lemma file_events_app (s t : list Event) :
  file_events (s ++ t) = (file_events s ++ file_events t)%list.
Proof.
  induction s as [|e s IH]; [reflexivity|].
  destruct e; cbn; rewrite IH; reflexivity.
Qed.

Lemma file_events_step_events rc : file_events (step_events rc) = [].
Proof. unfold step_events. destruct (is_transient rc); reflexivity. Qed.

(** One turn of the copy loop. *)
Lemma backup_loop_turn a dumpFile fuel b w :
  let rc := fst (sqlite3_backup_step a b 1024) in
  let b' := snd (sqlite3_backup_step a b 1024) in
  let w1 := mkWorld (trace w ++ step_events rc)
                    (fun q => if String.eqb q dumpFile then Some (bk_dest a b') else fs w q) in
  backup_loop a dumpFile (S fuel) b w
  = if keeps_going rc then backup_loop a dumpFile fuel b' w1 else (Ok (rc, b'), w1).
Proof.
  cbn [backup_loop]. destruct (sqlite3_backup_step a b 1024) as [rc b'].
  cbn [fst snd]. unfold bind, modify, emit, fs_write, step_events.
  cbn [trace fs].
  destruct (is_transient rc); cbn [trace fs]; rewrite <- ?app_assoc;
    destruct (keeps_going rc); reflexivity.
Qed.

(** With too little fuel the loop is still running: it never leaves on a
    status that keeps it going. *)
Lemma backup_loop_running a dumpFile (n : nat) :
  forall fuel b w,
    (forall i, (i < n)%nat -> keeps_going (status_at a b i) = true) ->
    (fuel <= n)%nat ->
    fst (backup_loop a dumpFile fuel b w) = Diverge.
Proof.
  induction n as [|n IH]; intros fuel b w Hgo Hfuel.
  - replace fuel with O by lia. reflexivity.
  - destruct fuel as [|fuel]; [reflexivity|].
    rewrite backup_loop_turn.
    change (fst (sqlite3_backup_step a b 1024)) with (status_at a b 0).
    rewrite (Hgo O) by lia.
    apply IH; [|lia].
    intros i Hi. rewrite <- status_at_shift. apply Hgo. lia.
Qed.

(** With enough fuel it leaves after the first status that ends it. *)
Lemma backup_loop_exit a dumpFile (n : nat) :
  forall fuel b w,
    first_exit a b n -> (n < fuel)%nat ->
    exists w',
      backup_loop a dumpFile fuel b w = (Ok (status_at a b n, handle_at a b (S n)), w')
      /\ trace w' = (trace w ++ copy_schedule a b (S n))%list
      /\ forall q, fs w' q = if String.eqb q dumpFile
                             then Some (bk_dest a (handle_at a b (S n)))
                             else fs w q.
Proof.
  induction n as [|n IH]; intros fuel b w Hexit Hfuel.
  - destruct fuel as [|fuel]; [lia|].
    rewrite backup_loop_turn.
    change (fst (sqlite3_backup_step a b 1024)) with (status_at a b 0).
    destruct Hexit as [H0 _]. rewrite H0.
    eexists. split; [reflexivity | split].
    + cbn [trace]. unfold copy_schedule. cbn [seq flat_map]. rewrite app_nil_r. reflexivity.
    + intro q. reflexivity.
  - destruct fuel as [|fuel]; [lia|].
    rewrite backup_loop_turn.
    change (fst (sqlite3_backup_step a b 1024)) with (status_at a b 0).
    destruct Hexit as [Hn Hlt]. rewrite (Hlt O) by lia.
    edestruct (IH fuel (snd (sqlite3_backup_step a b 1024))) as [w' [E [T F]]].
    + apply first_exit_shift. split; assumption.
    + lia.
    + exists w'. rewrite E, <- status_at_shift, <- handle_at_shift.
      split; [reflexivity | split].
      * rewrite T. cbn [trace]. rewrite (copy_schedule_shift a b (S n)), app_assoc. reflexivity.
      * intro q. rewrite F. cbn [fs]. rewrite <- handle_at_shift.
        destruct (String.eqb q dumpFile); reflexivity.
Qed.

(** Whenever the loop comes back, it is from some step [n], with the
    destination file holding what that step left. *)
Lemma backup_loop_returns a dumpFile (fuel : nat) :
  forall b w rc b' w',
    backup_loop a dumpFile fuel b w = (Ok (rc, b'), w') ->
    exists n,
      first_exit a b n
      /\ rc = status_at a b n /\ b' = handle_at a b (S n)
      /\ trace w' = (trace w ++ copy_schedule a b (S n))%list
      /\ forall q, fs w' q = if String.eqb q dumpFile then Some (bk_dest a b') else fs w q.
Proof.
  induction fuel as [|fuel IH]; intros b w rc b' w' E; [discriminate|].
  rewrite backup_loop_turn in E.
  destruct (keeps_going (fst (sqlite3_backup_step a b 1024))) eqn:K.
  - apply IH in E. destruct E as [n [[Hn Hlt] [Erc [Eb [T F]]]]].
    exists (S n). split; [split|].
    + rewrite status_at_shift. exact Hn.
    + intros [|i] Hi; [exact K|]. rewrite status_at_shift. apply Hlt. lia.
    + rewrite status_at_shift, handle_at_shift.
      split; [exact Erc | split; [exact Eb | split]].
      * rewrite T. cbn [trace]. rewrite (copy_schedule_shift a b (S n)), app_assoc. reflexivity.
      * intro q. rewrite F. cbn [fs]. destruct (String.eqb q dumpFile); reflexivity.
  - inversion E; subst. exists O. split; [split|].
    + exact K.
    + intros i Hi. lia.
    + split; [reflexivity | split; [reflexivity | split]].
      * cbn [trace]. unfold copy_schedule. cbn [seq flat_map]. rewrite app_nil_r. reflexivity.
      * intro q. reflexivity.
Qed.

(** The loop never throws. *)
Lemma backup_loop_no_throw a dumpFile (fuel : nat) :
  forall b w e w', backup_loop a dumpFile fuel b w <> (Throw e, w').
Proof.
  induction fuel as [|fuel IH]; intros b w e w'; [discriminate|].
  rewrite backup_loop_turn.
  destruct (keeps_going _); [apply IH | discriminate].
Qed.
Lemma trace_touch p w : trace (touch p w) = trace w.
Proof. unfold touch. destruct (fs w p); reflexivity. Qed.

Lemma db_image_touch p q w : db_image (touch p w) q = db_image w q.
Proof.
  unfold touch, db_image. destruct (fs w p) eqn:E; [reflexivity|].
  cbn [fs fs_write]. destruct (String.eqb_spec q p) as [->|]; [rewrite E|]; reflexivity.
Qed.

Lemma fs_touch_other p q w : q <> p -> fs (touch p w) q = fs w q.
Proof.
  intro H. unfold touch. destruct (fs w p); [reflexivity|].
  cbn [fs fs_write]. destruct (String.eqb_spec q p); [contradiction | reflexivity].
Qed.

Lemma backupToFile_unfold env fuel h dumpFile w b :
  sqlite3_open env dumpFile = true ->
  sqlite3_backup_init (api env) (db_image w (dbPath h)) = Some b ->
  backupToFile env fuel h dumpFile w
  = match backup_loop (api env) dumpFile fuel b (backup_start dumpFile w) with
    | (Ok last, w2) =>
        if (fst last =? SQLITE_DONE) && (sqlite3_backup_finish (api env) (snd last) =? SQLITE_OK)
        then (Ok tt, emit (EvLog INFO ("Binary backup completed successfully to: " ++ dumpFile)) w2)
        else (Throw (runtime_error ("sqlite3_backup failed: " ++ errmsg_or env "unknown error")),
              w2)
    | (Throw e, w2) => (Throw e, w2)
    | (Diverge, w2) => (Diverge, w2)
    end.
Proof.
  intros Hopen Hinit. unfold backupToFile.
  unfold bind at 1. unfold info at 1, log, modify.
  unfold bind at 1.
  rewrite Hopen. cbn [negb].
  unfold bind at 1. unfold bind at 1. unfold get.
  unfold emit. cbn [trace fs]. rewrite <- app_assoc. cbn [app].
  fold (backup_start dumpFile w).
  unfold backup_start at 1. rewrite db_image_touch. unfold db_image at 1. cbn [fs].
  fold (db_image w (dbPath h)). rewrite Hinit.
  unfold bind.
  destruct (backup_loop (api env) dumpFile fuel b (backup_start dumpFile w)) as [[last|e|] w2];
    try reflexivity.
  destruct (fst last =? SQLITE_DONE), (sqlite3_backup_finish (api env) (snd last) =? SQLITE_OK);
    reflexivity.
Qed.

(** The loop is still running only if every step so far kept it going. *)
Lemma backup_loop_diverges a dumpFile (fuel : nat) :
  forall b w,
    fst (backup_loop a dumpFile fuel b w) = Diverge ->
    forall i, (i < fuel)%nat -> keeps_going (status_at a b i) = true.
Proof.
  induction fuel as [|fuel IH]; intros b w D i Hi; [lia|].
  rewrite backup_loop_turn in D.
  destruct (keeps_going (fst (sqlite3_backup_step a b 1024))) eqn:K; [|discriminate].
  destruct i as [|i]; [exact K|].
  rewrite status_at_shift. apply (IH _ _ D). lia.
Qed.

(** [backupToFile] fails to return only while its copy loop is running. *)
Lemma backupToFile_diverges env fuel h dumpFile w :
  fst (backupToFile env fuel h dumpFile w) = Diverge ->
  exists b,
    sqlite3_backup_init (api env) (db_image w (dbPath h)) = Some b
    /\ forall i, (i < fuel)%nat -> keeps_going (status_at (api env) b i) = true.
Proof.
  intro D.
  destruct (sqlite3_open env dumpFile) eqn:Hopen.
  2:{ unfold backupToFile, bind, info, log, modify, throw in D. rewrite Hopen in D.
      discriminate. }
  destruct (sqlite3_backup_init (api env) (db_image w (dbPath h))) as [b|] eqn:Hinit.
  2:{ unfold backupToFile in D.
      unfold bind at 1 in D. unfold info at 1, log, modify in D.
      unfold bind at 1 in D. rewrite Hopen in D. cbn [negb] in D.
      unfold bind at 1 in D. unfold bind at 1 in D. unfold get in D.
      rewrite db_image_touch in D. unfold db_image at 1 in D. cbn [emit fs] in D.
      fold (db_image w (dbPath h)) in D. rewrite Hinit in D. discriminate. }
  exists b. split; [reflexivity|].
  rewrite (backupToFile_unfold env fuel h dumpFile w b Hopen Hinit) in D.
  apply (backup_loop_diverges (api env) dumpFile fuel b (backup_start dumpFile w)).
  destruct (backup_loop (api env) dumpFile fuel b (backup_start dumpFile w)) as [[last|e|] w2];
    [|discriminate | reflexivity].
  destruct ((fst last =? SQLITE_DONE) && _); discriminate.
Qed.

(** C8.  [backupToFile] copies in steps of 1024 pages; after a step that
    reports [SQLITE_BUSY] or [SQLITE_LOCKED] it waits 50 ms and steps again,
    however often that happens; the loop is left only at the first step [n]
    whose status is neither of these nor [SQLITE_OK] -- so with such a step the
    call terminates, and it succeeds when that status is [SQLITE_DONE] (and
    [sqlite3_backup_finish] reports no error) and throws otherwise. *)
Theorem backupToFile_copy_loop env h dumpFile w b n :
  sqlite3_open env dumpFile = true ->
  sqlite3_backup_init (api env) (db_image w (dbPath h)) = Some b ->
  first_exit (api env) b n ->
  let a := api env in
  let last := status_at a b n in
  let rcFinish := sqlite3_backup_finish a (handle_at a b (S n)) in
  (forall fuel, (fuel <= n)%nat -> fst (backupToFile env fuel h dumpFile w) = Diverge)
  /\ (forall fuel, (n < fuel)%nat ->
        exists w',
          backupToFile env fuel h dumpFile w
          = (if (last =? SQLITE_DONE) && (rcFinish =? SQLITE_OK) then Ok tt
             else Throw (runtime_error ("sqlite3_backup failed: "
                                        ++ errmsg_or env "unknown error")),
             w')
          /\ copy_events (trace w')
             = (copy_events (trace w)
                ++ flat_map (fun i => EvBackupStep 1024
                                      :: (if (status_at a b i =? SQLITE_BUSY)
                                             || (status_at a b i =? SQLITE_LOCKED)
                                          then [EvSqliteSleep 50] else []))
                            (seq 0 (S n)))%list)
  /\ (last = SQLITE_DONE -> rcFinish = SQLITE_OK ->
      forall fuel, (n < fuel)%nat -> fst (backupToFile env fuel h dumpFile w) = Ok tt)
  /\ (last <> SQLITE_DONE ->
      forall fuel, (n < fuel)%nat ->
        fst (backupToFile env fuel h dumpFile w)
        = Throw (runtime_error ("sqlite3_backup failed: " ++ errmsg_or env "unknown error"))).
Proof.
  intros Hopen Hinit Hexit a last rcFinish.
  assert (Main : forall fuel, (n < fuel)%nat ->
            exists w',
              backupToFile env fuel h dumpFile w
              = (if (last =? SQLITE_DONE) && (rcFinish =? SQLITE_OK) then Ok tt
                 else Throw (runtime_error ("sqlite3_backup failed: "
                                            ++ errmsg_or env "unknown error")),
                 w')
              /\ copy_events (trace w')
                 = (copy_events (trace w) ++ copy_schedule a b (S n))%list).
  { intros fuel Hfuel.
    rewrite (backupToFile_unfold env fuel h dumpFile w b Hopen Hinit).
    destruct (backup_loop_exit a dumpFile n fuel b (backup_start dumpFile w) Hexit Hfuel)
      as [w2 [E [T _]]].
    fold a. rewrite E. cbn [fst snd]. fold last. fold rcFinish.
    assert (C : copy_events (trace w2)
                = (copy_events (trace w) ++ copy_schedule a b (S n))%list).
    { rewrite T. unfold backup_start. rewrite trace_touch. cbn [trace].
      rewrite !copy_events_app. cbn [copy_events]. rewrite app_nil_r. f_equal.
      unfold copy_schedule. induction (seq 0 (S n)) as [|i l IH]; [reflexivity|].
      cbn [flat_map]. rewrite copy_events_app, copy_events_step_events, IH. reflexivity. }
    destruct ((last =? SQLITE_DONE) && (rcFinish =? SQLITE_OK)).
    - eexists. split; [reflexivity|]. cbn [emit trace].
      rewrite copy_events_app, C. cbn [copy_events]. rewrite app_nil_r. reflexivity.
    - eexists. split; [reflexivity | exact C]. }
  split; [|split; [|split]].
  - intros fuel Hfuel.
    rewrite (backupToFile_unfold env fuel h dumpFile w b Hopen Hinit).
    pose proof (backup_loop_running a dumpFile n fuel b (backup_start dumpFile w)
                  (proj2 Hexit) Hfuel) as D.
    fold a. destruct (backup_loop a dumpFile fuel b (backup_start dumpFile w)) as [[x|e|] w2];
      cbn [fst] in D; try discriminate. reflexivity.
  - exact Main.
  - intros Hdone Hfin fuel Hfuel. destruct (Main fuel Hfuel) as [w' [E _]].
    rewrite E, Hdone, Hfin. reflexivity.
  - intros Hnot fuel Hfuel. destruct (Main fuel Hfuel) as [w' [E _]].
    rewrite E. apply Z.eqb_neq in Hnot. rewrite Hnot. reflexivity.
Qed.

Lemma backupToFile_copy_loop_witness :
  fst (backupToFile Sample.sqlite 3 Sample.live "snapshot.sqlite" Sample.disk_with_db) = Diverge
  /\ fst (backupToFile Sample.sqlite 4 Sample.live "snapshot.sqlite" Sample.disk_with_db) = Ok tt.
Proof.
  destruct (backupToFile_copy_loop Sample.sqlite Sample.live "snapshot.sqlite"
              Sample.disk_with_db (O, repeat "page" 2500, []) 3) as [D [_ [S _]]].
  - reflexivity.
  - reflexivity.
  - split; [vm_compute; reflexivity|].
    intros i Hi. destruct i as [|[|[|i]]]; [vm_compute; reflexivity .. | lia].
  - split; [apply D; lia | apply S; [vm_compute; reflexivity | reflexivity | lia]].
Defined.

(** A successful call leaves in the destination file what the last step left
    in the destination store, and touches no other file. *)
Lemma backupToFile_success env fuel h dumpFile w w' :
  backupToFile env fuel h dumpFile w = (Ok tt, w') ->
  exists b n,
    sqlite3_backup_init (api env) (db_image w (dbPath h)) = Some b
    /\ first_exit (api env) b n
    /\ status_at (api env) b n = SQLITE_DONE
    /\ fs w' dumpFile = Some (bk_dest (api env) (handle_at (api env) b (S n)))
    /\ forall q, q <> dumpFile -> fs w' q = fs w q.
Proof.
  intro E.
  destruct (sqlite3_open env dumpFile) eqn:Hopen.
  2:{ unfold backupToFile, bind, info, log, modify, throw in E. rewrite Hopen in E.
      discriminate. }
  destruct (sqlite3_backup_init (api env) (db_image w (dbPath h))) as [b|] eqn:Hinit.
  2:{ unfold backupToFile in E.
      unfold bind at 1 in E. unfold info at 1, log, modify in E.
      unfold bind at 1 in E. rewrite Hopen in E. cbn [negb] in E.
      unfold bind at 1 in E. unfold bind at 1 in E. unfold get in E.
      rewrite db_image_touch in E. unfold db_image at 1 in E. cbn [emit fs] in E.
      fold (db_image w (dbPath h)) in E. rewrite Hinit in E. discriminate. }
  rewrite (backupToFile_unfold env fuel h dumpFile w b Hopen Hinit) in E.
  destruct (backup_loop (api env) dumpFile fuel b (backup_start dumpFile w))
    as [[[rc b']|e|] w2] eqn:L; try discriminate.
  cbn [fst snd] in E.
  destruct (rc =? SQLITE_DONE) eqn:Hrc; [|discriminate].
  destruct (sqlite3_backup_finish (api env) b' =? SQLITE_OK); [|discriminate].
  cbn [andb] in E. inversion E; subst w'. clear E.
  apply backup_loop_returns in L. destruct L as [n [Hexit [Erc [Eb [_ F]]]]].
  exists b, n. split; [reflexivity | split; [exact Hexit | split]].
  - apply Z.eqb_eq in Hrc. congruence.
  - cbn [emit fs]. split.
    + rewrite F, String.eqb_refl, Eb. reflexivity.
    + intros q Hq. rewrite F.
      destruct (String.eqb_spec q dumpFile) as [->|_]; [contradiction|].
      unfold backup_start. rewrite fs_touch_other by exact Hq. reflexivity.
Qed.

(** C9.  A successful [backupToFile] leaves in the destination file the image
    of the source as it was when the call began -- so that the destination
    reports the [K] rows the source has -- and leaves the source untouched.
    What a page-copy step that reports [SQLITE_DONE] has copied is SQLite's
    part ([backup_contract]). *)
Theorem backupToFile_copies_rows env fuel h dumpFile w w' K :
  backup_contract (api env) ->
  dumpFile <> dbPath h ->
  select_count env (db_image w (dbPath h)) = Row K ->
  backupToFile env fuel h dumpFile w = (Ok tt, w') ->
  fs w' dumpFile = Some (db_image w (dbPath h))
  /\ fs w' (dbPath h) = fs w (dbPath h)
  /\ fst (getRowCount env h w) = Ok K
  /\ fst (getRowCount env (mkSqliteHelper dumpFile) w') = Ok K.
Proof.
  intros Hcontract Hne HK E.
  destruct (backupToFile_success env fuel h dumpFile w w' E)
    as [b [n [Hinit [_ [Hdone [Fd Fo]]]]]].
  rewrite (Hcontract _ _ Hinit n Hdone) in Fd.
  split; [exact Fd | split; [apply Fo; congruence | split]].
  - unfold getRowCount, bind, get. rewrite HK. reflexivity.
  - unfold getRowCount, bind, get. cbn [dbPath]. unfold db_image at 1. rewrite Fd, HK.
    reflexivity.
Qed.

(** The sample page copier keeps the contract. *)
Lemma copier_invariant busy src i :
  let '(_, rest, copied) := handle_at (Sample.copier busy) (O, src, []) i in
  (copied ++ rest)%list = src.
Proof.
  induction i as [|i IH]; [reflexivity|].
  cbn [handle_at]. destruct (handle_at (Sample.copier busy) (O, src, []) i) as [[j rest] copied].
  cbn [Sample.copier sqlite3_backup_step]. destruct (busy j); cbn [snd]; [exact IH|].
  rewrite <- app_assoc, firstn_skipn. exact IH.
Qed.

Lemma copier_contract busy : backup_contract (Sample.copier busy).
Proof.
  intros src b Hinit i Hdone. inversion Hinit; subst b. clear Hinit.
  pose proof (copier_invariant busy src (S i)) as Inv.
  unfold status_at in Hdone. cbn [handle_at] in Inv |- *.
  destruct (handle_at (Sample.copier busy) (O, src, []) i) as [[j rest] copied].
  cbn [Sample.copier sqlite3_backup_step bk_dest fst snd] in *.
  destruct (busy j); [discriminate|]. cbn [fst snd] in *.
  destruct (skipn (Z.to_nat 1024) rest); [|discriminate].
  rewrite app_nil_r in Inv. exact Inv.
Qed.

Lemma backupToFile_copies_rows_witness :
  fst (getRowCount Sample.sqlite (mkSqliteHelper "snapshot.sqlite")
         (snd (backupToFile Sample.sqlite 4 Sample.live "snapshot.sqlite" Sample.disk_with_db)))
  = Ok 2500.
Proof.
  refine (proj2 (proj2 (proj2
    (backupToFile_copies_rows Sample.sqlite 4 Sample.live "snapshot.sqlite"
       Sample.disk_with_db
       (snd (backupToFile Sample.sqlite 4 Sample.live "snapshot.sqlite" Sample.disk_with_db))
       2500 (copier_contract Sample.busy_once) _ _ _)))).
  - discriminate.
  - vm_compute. reflexivity.
  - assert (R : fst (backupToFile Sample.sqlite 4 Sample.live "snapshot.sqlite"
                       Sample.disk_with_db) = Ok tt) by (vm_compute; reflexivity).
    destruct (backupToFile Sample.sqlite 4 Sample.live "snapshot.sqlite" Sample.disk_with_db)
      as [r w']. cbn [fst snd] in *. rewrite R. reflexivity.
Defined.

(** ** The orchestrator *)

Lemma file_events_upload u lf t : Forall (upload_event u lf) t -> file_events t = [].
Proof.
  induction 1 as [|e t He _ IH]; [reflexivity|].
  destruct He; cbn; exact IH.
Qed.

Lemma file_events_copy_schedule a b n : file_events (copy_schedule a b n) = [].
Proof.
  unfold copy_schedule. induction (seq 0 n) as [|i l IH]; [reflexivity|].
  cbn [flat_map]. rewrite file_events_app, file_events_step_events, IH. reflexivity.
Qed.

(** The copy loop opens and removes nothing, whatever the fuel. *)
Lemma backup_loop_file_events a dumpFile (fuel : nat) :
  forall b w,
    file_events (trace (snd (backup_loop a dumpFile fuel b w))) = file_events (trace w).
Proof.
  induction fuel as [|fuel IH]; intros b w; [reflexivity|].
  rewrite backup_loop_turn.
  destruct (keeps_going _).
  - rewrite IH. cbn [trace]. rewrite file_events_app, file_events_step_events.
    apply app_nil_r.
  - cbn [snd trace]. rewrite file_events_app, file_events_step_events. apply app_nil_r.
Qed.

(** [backupToFile] opens the destination, once, whatever comes of it. *)
Lemma backupToFile_file_events env fuel h dumpFile w :
  file_events (trace (snd (backupToFile env fuel h dumpFile w)))
  = (file_events (trace w) ++ [EvSqliteOpen dumpFile])%list.
Proof.
  assert (B : file_events (trace (backup_start dumpFile w))
              = (file_events (trace w) ++ [EvSqliteOpen dumpFile])%list).
  { unfold backup_start. rewrite trace_touch. cbn [trace].
    rewrite file_events_app. reflexivity. }
  destruct (sqlite3_open env dumpFile) eqn:Hopen.
  2:{ unfold backupToFile, bind, info, log, modify, throw, emit. rewrite Hopen.
      cbn [negb snd trace]. rewrite !file_events_app. cbn. rewrite app_nil_r. reflexivity. }
  destruct (sqlite3_backup_init (api env) (db_image w (dbPath h))) as [b|] eqn:Hinit.
  2:{ unfold backupToFile.
      unfold bind at 1. unfold info at 1, log, modify.
      unfold bind at 1. rewrite Hopen. cbn [negb].
      unfold bind at 1. unfold bind at 1. unfold get.
      rewrite db_image_touch. unfold db_image at 1. cbn [emit fs].
      fold (db_image w (dbPath h)). rewrite Hinit. cbn [throw snd].
      rewrite trace_touch. cbn [trace emit]. rewrite !file_events_app. cbn.
      rewrite app_nil_r. reflexivity. }
  rewrite (backupToFile_unfold env fuel h dumpFile w b Hopen Hinit).
  pose proof (backup_loop_file_events (api env) dumpFile fuel b (backup_start dumpFile w)) as L.
  destruct (backup_loop (api env) dumpFile fuel b (backup_start dumpFile w)) as [[last|e|] w2];
    cbn [snd] in L |- *; try (rewrite L; exact B).
  destruct ((fst last =? SQLITE_DONE) && _); cbn [snd emit trace].
  - rewrite file_events_app, L, B. cbn. apply app_nil_r.
  - rewrite L. exact B.
Qed.

Lemma backupToFile_no_throw_nonstd env fuel h dumpFile w :
  fst (backupToFile env fuel h dumpFile w) <> Throw NonStdException.
Proof.
  destruct (sqlite3_open env dumpFile) eqn:Hopen.
  2:{ unfold backupToFile, bind, info, log, modify, throw. rewrite Hopen. discriminate. }
  destruct (sqlite3_backup_init (api env) (db_image w (dbPath h))) as [b|] eqn:Hinit.
  2:{ unfold backupToFile.
      unfold bind at 1. unfold info at 1, log, modify.
      unfold bind at 1. rewrite Hopen. cbn [negb].
      unfold bind at 1. unfold bind at 1. unfold get.
      rewrite db_image_touch. unfold db_image at 1. cbn [emit fs].
      fold (db_image w (dbPath h)). rewrite Hinit. discriminate. }
  rewrite (backupToFile_unfold env fuel h dumpFile w b Hopen Hinit).
  pose proof (backup_loop_no_throw (api env) dumpFile fuel b (backup_start dumpFile w)) as N.
  destruct (backup_loop (api env) dumpFile fuel b (backup_start dumpFile w)) as [[last|e|] w2].
  - destruct ((fst last =? SQLITE_DONE) && _); discriminate.
  - exfalso. exact (N e w2 eq_refl).
  - discriminate.
Qed.

(** The upload stage comes back, having opened and removed nothing. *)
Lemma run_upload_spec env m dumpFile w :
  exists r w',
    run_upload env m dumpFile w = (r, w')
    /\ r <> Diverge
    /\ file_events (trace w') = file_events (trace w)
    /\ fs w' = fs w.
Proof.
  unfold run_upload.
  unfold bind at 1.
  assert (C : exists t u,
             FtpUploader_ctor (up env) (ftpHost m) (ftpPort m) (ftpUser m) (ftpPass m) w
             = (Ok u, mkWorld (trace w ++ t) (fs w)) /\ Forall is_log t).
  { unfold FtpUploader_ctor, bind, warn, info, log, modify, ret, emit.
    destruct (negb (curl_global_init (up env) =? CURLE_OK)); cbn [trace fs];
      rewrite <- ?app_assoc; eexists; eexists; (split; [reflexivity | repeat constructor]). }
  destruct C as [t0 [u0 [E0 F0]]]. rewrite E0.
  unfold with_object, scoped.
  unfold bind at 1. unfold update at 1. cbn [fst snd].
  unfold bind at 1. unfold update at 1. cbn [fst snd].
  unfold bind at 1. unfold update at 1. cbn [fst snd].
  unfold bind at 1. unfold update at 1. cbn [fst snd].
  unfold bind at 1. unfold update at 1. cbn [fst snd].
  unfold bind at 1. unfold liftW at 1, info at 1, log, modify. cbn [fst snd].
  set (u := setProgressCallback _ _).
  set (w1 := emit _ _).
  unfold bind at 1.
  destruct (uploadFile_events (up env) dumpFile (ftpDir m) u w1) as [r [e [t [E [U D]]]]].
  rewrite E.
  assert (Z0 : file_events t0 = []).
  { apply (file_events_upload u0 dumpFile), Forall_log_upload, F0. }
  assert (Z1 : file_events t = []) by (apply (file_events_upload u dumpFile), U).
  destruct r as [[]|ex|]; [| |contradiction].
  - unfold liftW, info, log, modify, FtpUploader_dtor, bind, this, emit.
    cbn [fst snd trace fs w1 emit].
    eexists. eexists. split; [reflexivity | split; [discriminate | split; [|reflexivity]]].
    cbn [fst snd trace fs emit]. rewrite !file_events_app, Z0, Z1. cbn.
    rewrite !app_nil_r. reflexivity.
  - unfold liftW, info, log, modify, FtpUploader_dtor, bind, this, emit.
    cbn [fst snd trace fs w1 emit].
    eexists. eexists. split; [reflexivity | split; [discriminate | split; [|reflexivity]]].
    cbn [fst snd trace fs emit]. rewrite !file_events_app, Z0, Z1. cbn.
    rewrite !app_nil_r. reflexivity.
Qed.

Lemma dumpFile_nonempty env m : Str.empty (dumpFile_of env m) = false.
Proof. unfold dumpFile_of. destruct (sqlitePrefix m); reflexivity. Qed.

(** The remover's destructor never throws. *)
Lemma TempFileRemover_dtor_spec env p w :
  Str.empty p = false ->
  TempFileRemover_dtor env (TempFileRemover_ctor p) w = (Ok tt, removed env p w).
Proof.
  intro H. unfold TempFileRemover_dtor, TempFileRemover_ctor, removed. cbn [active_ path_].
  rewrite H. cbn [andb negb].
  unfold try_catch, fs_remove, bind, info, log, modify, throw, ret, emit, fs_delete.
  destruct (remove_fails env p); cbn [trace fs]; rewrite <- ?app_assoc; reflexivity.
Qed.

Lemma run_open_returns env m w : fst (run_open env m w) <> Diverge.
Proof.
  unfold run_open, SqliteHelper_ctor, setLevel, info, error, log, modify, throw, ret, bind.
  destruct (create_directories env "logs"); [discriminate|].
  destruct (negb (sqlite3_open (sq env) _)); discriminate.
Qed.

(** Filling the database: it comes back, having logged, seeded the generator
    at most, and written to the database file only. *)
Lemma run_populate_shape env m db w :
  exists r t f,
    run_populate env m db w = (r, mkWorld (trace w ++ t) f)
    /\ r <> Diverge
    /\ Forall is_setup t
    /\ (forall q, q <> dbPath db -> f q = fs w q)
    /\ (fs w (dbPath db) <> None -> f (dbPath db) <> None).
Proof.
  unfold run_populate, createTable, insertRandomRows, seed_rng, getRowCount,
    info, error, log, modify, get, throw, ret, bind.
  repeat (cbv beta iota zeta; cbn [emit fs trace fs_write db_image negb];
          match goal with
          | |- context [exec_create_table ?a ?b] => destruct (exec_create_table a b)
          | |- context [insert_rows ?a ?b ?c] => destruct (insert_rows a b c)
          | |- context [seeded ?a] => destruct (seeded a)
          | |- context [seed_env ?a] => destruct (seed_env a)
          | |- context [select_count ?a ?b] => destruct (select_count a b)
          end);
    cbv beta iota zeta; unfold emit, fs_write; cbn [fs trace negb];
    eexists; eexists; eexists; rewrite <- ?app_assoc;
    (split; [reflexivity|]); (split; [discriminate|]);
    (split; [repeat constructor|]);
    (split; [intros q Hq | intro Hp]); try exact Hp;
    repeat match goal with
           | |- context [String.eqb ?a ?b] => destruct (String.eqb_spec a b)
           end; try contradiction; try discriminate; reflexivity.
Qed.

Lemma run_populate_returns env m db w : fst (run_populate env m db w) <> Diverge.
Proof.
  destruct (run_populate_shape env m db w) as [r [t [f [E [D _]]]]]. rewrite E. exact D.
Qed.


(** Every path through [run], stage by stage. *)
Lemma run_cases env fuel m w :
  let p := dumpFile_of env m in
  match run_open env m w with
  | (Ok db, w1) =>
      match run_populate env m db w1 with
      | (Ok _, w2) =>
          match backupToFile (sq env) fuel db p w2 with
          | (Ok _, w3) =>
              match run_upload env m p (snapshot_logged env m w3) with
              | (Ok _, w4) =>
                  run env fuel m w = (Ok true, closed db (removed env p w4))
              | (Throw e, w4) =>
                  run env fuel m w = (Ok false, caught e (closed db (removed env p w4)))
              | (Diverge, _) => False
              end
          | (Throw e, w3) =>
              run env fuel m w = (Ok false, caught e (closed db (removed env p w3)))
          | (Diverge, w3) => run env fuel m w = (Diverge, w3)
          end
      | (Throw e, w2) => run env fuel m w = (Ok false, caught e (closed db w2))
      | (Diverge, _) => False
      end
  | (Throw e, w1) => run env fuel m w = (Ok false, caught e w1)
  | (Diverge, _) => False
  end.
Proof.
  intro p.
  pose proof (run_open_returns env m w) as O1.
  unfold run, try_catch, run_body, run_stages, scoped, error, info, log, modify, ret, bind.
  fold p.
  destruct (run_open env m w) as [[db|e|] w1]; cbn [fst] in O1; [| |congruence].
  2:{ destruct e; reflexivity. }
  pose proof (run_populate_returns env m db w1) as O2.
  destruct (run_populate env m db w1) as [[[]|e|] w2]; cbn [fst] in O2; [| |congruence].
  2:{ destruct e; reflexivity. }
  destruct (backupToFile (sq env) fuel db p w2) as [[[]|e|] w3].
  - unfold snapshot_logged. fold p.
    destruct (run_upload_spec env m p
                (emit (EvLog INFO ("Database binary backup created at: " ++ p)) w3))
      as [r [w4 [E [D _]]]].
    rewrite E.
    destruct r as [[]|e|]; [| |congruence]; cbv beta iota;
      rewrite (TempFileRemover_dtor_spec env p w4 (dumpFile_nonempty env m));
      [|destruct e]; reflexivity.
  - cbv beta iota. rewrite (TempFileRemover_dtor_spec env p w3 (dumpFile_nonempty env m)).
    destruct e; reflexivity.
  - reflexivity.
Qed.






Lemma Logger_output_error msg t :
  In (EvLog ERROR msg) t -> forall lvl, In (ERROR, msg) (Logger_output lvl t).
Proof.
  induction t as [|e t IH]; intros H lvl; [contradiction|].
  destruct H as [->|H].
  - cbn. destruct lvl; cbn; left; reflexivity.
  - destruct e; cbn; auto. destruct (rank lvl0 <? rank lvl); [|right]; auto.
Qed.

Lemma last_snoc {A} (l : list A) (x d : A) : last (l ++ [x]) d = x.
Proof.
  induction l as [|y l IH]; [reflexivity|].
  cbn [app]. destruct (l ++ [x])%list eqn:E; [destruct l; discriminate|].
  cbn [last]. exact IH.
Qed.

(** What [caught] leaves: the error entry, last in the trace and in the log. *)
Lemma caught_spec e w :
  last (trace (caught e w)) EvCurlEasyInit = EvLog ERROR (handler_message e)
  /\ (forall lvl, In (ERROR, handler_message e) (Logger_output lvl (trace (caught e w))))
  /\ file_events (trace (caught e w)) = file_events (trace w)
  /\ fs (caught e w) = fs w.
Proof.
  unfold caught, emit. cbn [trace fs]. split; [apply last_snoc | split; [|split]].
  - intro lvl. apply Logger_output_error, in_or_app. right. left. reflexivity.
  - rewrite file_events_app. cbn. apply app_nil_r.
  - reflexivity.
Qed.


(** [reaches_snapshot] in terms of the two blocks [run] is made of. *)
Lemma reaches_snapshot_blocks env m w db w2 :
  reaches_snapshot env m w db w2
  <-> exists w1, run_open env m w = (Ok db, w1) /\ run_populate env m db w1 = (Ok tt, w2).
Proof.
  unfold reaches_snapshot. split.
  - intros [Hc [w1 [wa [wb [n [wc [E1 [Ea [Eb [Ec ->]]]]]]]]]].
    exists w1. split.
    + unfold run_open, bind, setLevel, modify, ret. rewrite Hc. cbn [fst snd]. exact E1.
    + unfold run_populate, bind. rewrite Ea, Eb, Ec. reflexivity.
  - intros [w1 [E1 E2]].
    unfold run_open, bind, setLevel, modify, ret, throw in E1.
    destruct (create_directories env "logs") as [what|]; [discriminate|].
    split; [reflexivity|]. cbn [fst snd] in E1.
    unfold run_populate, bind in E2.
    destruct (createTable (sq env) db w1) as [[[]|e|] wa] eqn:Ea; try discriminate.
    destruct (insertRandomRows (sq env) db (rows m) wa) as [[[]|e|] wb] eqn:Eb;
      try discriminate.
    destruct (getRowCount (sq env) db wb) as [[n|e|] wc] eqn:Ec; try discriminate.
    exists w1, wa, wb, n, wc.
    split; [exact E1 | split; [exact Ea | split; [exact Eb | split; [exact Ec|]]]].
    unfold info, log, modify in E2. injection E2 as <-. reflexivity.
Qed.

Ltac stage_eq :=
  repeat match goal with
         | H : reaches_snapshot _ _ _ _ _ |- _ =>
             apply reaches_snapshot_blocks in H; destruct H as [? [? ?]]
         | E : ?x = _, H : ?x = _ |- _ => rewrite E in H; inversion H; subst; clear H
         | E : ?x = _, H : fst ?x = _ |- _ => rewrite E in H; cbn [fst] in H
         end.

(** The upload stage is [uploadFile] on the uploader [run] has configured,
    between the log lines of the constructor and of the destructor. *)
Lemma run_upload_unfold env m p w r e t :
  uploadFile (up env) p (ftpDir m)
    (run_uploader env m, mkWorld (trace w ++ run_upload_prelude env m) (fs w))
  = (r, (setLastError e (run_uploader env m),
         mkWorld ((trace w ++ run_upload_prelude env m) ++ t) (fs w))) ->
  r <> Diverge ->
  run_upload env m p w
  = (r, mkWorld (trace w ++ run_upload_prelude env m ++ t
                 ++ (match r with
                     | Ok _ => [EvLog INFO "Upload finished successfully."]
                     | _ => []
                     end)
                 ++ [EvLog INFO ("FtpUploader destroyed for host: " ++ ftpHost m)])
                (fs w)).
Proof.
  intros E D. unfold run_upload.
  unfold bind at 1.
  assert (C : FtpUploader_ctor (up env) (ftpHost m) (ftpPort m) (ftpUser m) (ftpPass m) w
              = (Ok (mkFtpUploader (ftpHost m) (ftpPort m) (ftpUser m) (ftpPass m)
                       30 1 false true None ""),
                 mkWorld (trace w
                          ++ (if negb (curl_global_init (up env) =? CURLE_OK)
                              then [EvLog WARNING
                                      "curl_global_init failed, continuing but curl may misbehave."]
                              else [])
                          ++ [EvLog INFO ("FtpUploader initialized for host: " ++ ftpHost m)])
                         (fs w))).
  { unfold FtpUploader_ctor, bind, warn, info, log, modify, ret, emit.
    destruct (negb (curl_global_init (up env) =? CURLE_OK)); cbn [trace fs app];
      rewrite <- ?app_assoc; reflexivity. }
  rewrite C.
  unfold with_object, scoped.
  unfold bind at 1. unfold update at 1. cbn [fst snd].
  unfold bind at 1. unfold update at 1. cbn [fst snd].
  unfold bind at 1. unfold update at 1. cbn [fst snd].
  unfold bind at 1. unfold update at 1. cbn [fst snd].
  unfold bind at 1. unfold update at 1. cbn [fst snd].
  unfold bind at 1. unfold liftW at 1, info at 1, log, modify. cbn [fst snd].
  unfold bind at 1.
  match goal with
  | |- context [uploadFile _ _ _ (?u, ?w1)] =>
      change u with (run_uploader env m);
      replace w1 with (mkWorld (trace w ++ run_upload_prelude env m) (fs w))
  end.
  2:{ unfold emit, run_upload_prelude. cbn [trace fs]. rewrite <- !app_assoc. reflexivity. }
  rewrite E.
  destruct r as [[]|ex|]; [| |contradiction];
    unfold FtpUploader_dtor, liftW, info, log, modify, bind, this, emit;
    cbn [fst snd trace fs host setLastError run_uploader];
    rewrite <- ?app_assoc; reflexivity.
Qed.

(** The uploader of the upload stage is what the constructor and the setters
    [run] calls make of the manager's settings. *)
Lemma run_uploader_built env m :
  run_uploader env m
  = setProgressCallback (Some (run_progress env))
      (setSslVerify (bm_sslVerify m)
         (setTimeout (timeout m)
            (setRetries (retries m)
               (enableVerbose true
                  (mkFtpUploader (ftpHost m) (ftpPort m) (ftpUser m) (ftpPass m)
                     30 1 false true None ""))))).
Proof. reflexivity. Qed.

(** What [uploadFile] appends in the upload stage. *)
Lemma upload_stage_events env m w :
  exists r e t,
    upload_stage env m w
    = (r, (setLastError e (run_uploader env m),
           mkWorld (trace (upload_start env m w) ++ t) (fs w)))
    /\ Forall (upload_event (run_uploader env m) (dumpFile_of env m)) t
    /\ r <> Diverge.
Proof.
  exact (uploadFile_events (up env) (dumpFile_of env m) (ftpDir m) (run_uploader env m)
           (upload_start env m w)).
Qed.

(** The upload block of [run] ends as [uploadFile] does. *)
Lemma run_upload_stage env m w :
  match upload_stage env m w with
  | (Ok _, s) =>
      run_upload env m (dumpFile_of env m) (snapshot_logged env m w)
      = (Ok tt, upload_left m true (snd s))
  | (Throw e, s) =>
      run_upload env m (dumpFile_of env m) (snapshot_logged env m w)
      = (Throw e, upload_left m false (snd s))
  | (Diverge, _) => False
  end.
Proof.
  destruct (upload_stage_events env m w) as [r [e [t [E [_ D]]]]].
  rewrite E.
  pose proof (run_upload_unfold env m (dumpFile_of env m) (snapshot_logged env m w) r e t) as U.
  unfold upload_stage, upload_start in E. cbn [trace fs] in E.
  specialize (U E D).
  destruct r as [[]|ex|]; [| |contradiction]; rewrite U; unfold upload_left, upload_start;
    cbn [snd trace fs]; rewrite <- ?app_assoc; reflexivity.
Qed.

(** Every path through [run], by the outcomes of its stages. *)
Lemma run_cases_stage env fuel m w :
  let p := dumpFile_of env m in
  match run_open env m w with
  | (Ok db, w1) =>
      match run_populate env m db w1 with
      | (Ok _, w2) =>
          match backupToFile (sq env) fuel db p w2 with
          | (Ok _, w3) =>
              match upload_stage env m w3 with
              | (Ok _, s) =>
                  run env fuel m w
                  = (Ok true, closed db (removed env p (upload_left m true (snd s))))
              | (Throw e, s) =>
                  run env fuel m w
                  = (Ok false, caught e (closed db (removed env p (upload_left m false (snd s)))))
              | (Diverge, _) => False
              end
          | (Throw e, w3) =>
              run env fuel m w = (Ok false, caught e (closed db (removed env p w3)))
          | (Diverge, w3) => run env fuel m w = (Diverge, w3)
          end
      | (Throw e, w2) => run env fuel m w = (Ok false, caught e (closed db w2))
      | (Diverge, _) => False
      end
  | (Throw e, w1) => run env fuel m w = (Ok false, caught e w1)
  | (Diverge, _) => False
  end.
Proof.
  intro p. pose proof (run_cases env fuel m w) as C. cbv zeta in C. fold p in C.
  destruct (run_open env m w) as [[db|e|] w1]; try exact C.
  destruct (run_populate env m db w1) as [[[]|e|] w2]; try exact C.
  destruct (backupToFile (sq env) fuel db p w2) as [[[]|e|] w3]; try exact C.
  pose proof (run_upload_stage env m w3) as U. fold p in U.
  destruct (upload_stage env m w3) as [[[]|e|] s]; [| |contradiction];
    rewrite U in C; exact C.
Qed.










Ltac open_hyps :=
  repeat match goal with
         | H : exists _, _ |- _ => destruct H
         | H : _ /\ _ |- _ => destruct H
         | H : _ \/ _ |- _ => destruct H
         end.

(* A supposed stage outcome that contradicts the one at hand. *)
Ltac no_stage := intros; open_hyps; stage_eq; discriminate.

(** C6.  [run] never lets an exception out: it returns a boolean whenever
    the snapshot stage comes to an end (it is still running exactly when the
    copy loop is, every step so far having reported a status that keeps the
    loop going); the boolean is true exactly when the snapshot and the upload
    both succeed; and when one of them throws, [run] returns false and the
    last thing it does is to log the exception's text at ERROR severity, which
    no log level filters out. *)
Theorem run_returns_boolean env fuel m w :
  exists r w',
    run env fuel m w = (r, w')
    /\ (forall e, r <> Throw e)
    /\ (r = Diverge <-> snapshot_diverges env fuel m w)
    /\ (r = Ok true <-> pipeline_succeeds env fuel m w)
    /\ (forall e, stage_fails env fuel m w e ->
          r = Ok false
          /\ last (trace w') EvCurlEasyInit = EvLog ERROR (handler_message e)
          /\ forall lvl, In (ERROR, handler_message e) (Logger_output lvl (trace w')))
    /\ (r = Ok false ->
        exists e, last (trace w') EvCurlEasyInit = EvLog ERROR (handler_message e)).
Proof.
  pose proof (run_cases_stage env fuel m w) as C. cbv zeta in C.
  unfold snapshot_diverges, pipeline_succeeds, stage_fails.
  destruct (run_open env m w) as [[db|e|] w1] eqn:E1; [| |contradiction].
  2:{ exists (Ok false), (caught e w1). destruct (caught_spec e w1) as [L [O _]].
      split; [exact C | split; [discriminate|]].
      split; [split; [discriminate | no_stage]|].
      split; [split; [discriminate | no_stage]|].
      split; [no_stage|]. intros _. exists e. exact L. }
  destruct (run_populate env m db w1) as [[[]|e|] w2] eqn:E2; [| |contradiction].
  2:{ exists (Ok false), (caught e (closed db w2)).
      destruct (caught_spec e (closed db w2)) as [L [O _]].
      split; [exact C | split; [discriminate|]].
      split; [split; [discriminate | no_stage]|].
      split; [split; [discriminate | no_stage]|].
      split; [no_stage|]. intros _. exists e. exact L. }
  assert (Reach : reaches_snapshot env m w db w2).
  { apply reaches_snapshot_blocks. exists w1. split; assumption. }
  destruct (backupToFile (sq env) fuel db (dumpFile_of env m) w2) as [[[]|e|] w3] eqn:E3.
  - destruct (upload_stage env m w3) as [[[]|e|] s] eqn:E4; [| |contradiction].
    + eexists; eexists. split; [exact C | split; [discriminate|]].
      split; [split; [discriminate | no_stage]|].
      split; [split; [|reflexivity]|].
      { intros _. exists db, w2, w3, s. split; [exact Reach | split; assumption]. }
      split; [no_stage | discriminate].
    + eexists; eexists. split; [exact C | split; [discriminate|]].
      destruct (caught_spec e (closed db (removed env (dumpFile_of env m)
                                            (upload_left m false (snd s))))) as [L [O _]].
      split; [split; [discriminate | no_stage]|].
      split; [split; [discriminate | no_stage]|].
      split.
      * intros e0 H. open_hyps; stage_eq.
        split; [reflexivity | split; [exact L | exact O]].
      * intros _. exists e. exact L.
  - eexists; eexists. split; [exact C | split; [discriminate|]].
    destruct (caught_spec e (closed db (removed env (dumpFile_of env m) w3))) as [L [O _]].
    split; [split; [discriminate | no_stage]|].
    split; [split; [discriminate | no_stage]|].
    split.
    + intros e0 H. open_hyps; stage_eq.
      split; [reflexivity | split; [exact L | exact O]].
    + intros _. exists e. exact L.
  - eexists; eexists. split; [exact C | split; [discriminate|]].
    split; [split; [|reflexivity]|].
    { intros _.
      destruct (backupToFile_diverges (sq env) fuel db (dumpFile_of env m) w2) as [b [Hb Hgo]];
        [rewrite E3; reflexivity|].
      exists db, w2, b.
      split; [exact Reach | split; [rewrite E3; reflexivity | split; assumption]]. }
    split; [split; [discriminate | no_stage]|].
    split; [no_stage | discriminate].
Qed.

(** ** Further properties of the transport client *)

(** X1.  The backoff delay lies between 500 ms and 32 s and never decreases
    from one attempt to the next: it doubles with each attempt up to the
    seventh, and stays at 32 s from then on. *)
Theorem backoff_bounds (attempt : Z) :
  1 <= attempt ->
  500 <= backoff_ms attempt <= 32000
  /\ backoff_ms attempt <= backoff_ms (attempt + 1)
  /\ (attempt < 7 -> backoff_ms (attempt + 1) = 2 * backoff_ms attempt)
  /\ (7 <= attempt -> backoff_ms attempt = 32000).
Proof.
  intro H. unfold backoff_ms. rewrite !Z.shiftl_1_l.
  replace (attempt + 1 - 1) with (attempt - 1 + 1) by lia.
  destruct (Z.le_gt_cases 7 attempt) as [Hge|Hlt].
  - rewrite !Z.min_r by lia. cbn. repeat split; lia.
  - rewrite !Z.min_l by lia.
    assert (C : attempt = 1 \/ attempt = 2 \/ attempt = 3 \/ attempt = 4
                \/ attempt = 5 \/ attempt = 6) by lia.
    destruct C as [->|[->|[->|[->|[->| ->]]]]]; cbn; repeat split; lia.
Qed.

Lemma backoff_bounds_witness :
  backoff_ms 1 = 500 /\ backoff_ms 4 = 4000 /\ backoff_ms 9 = 32000.
Proof.
  destruct (backoff_bounds 1 ltac:(lia)) as [_ [_ [D1 _]]].
  destruct (backoff_bounds 9 ltac:(lia)) as [_ [_ [_ T]]].
  split; [reflexivity | split; [reflexivity | apply T; lia]].
Defined.

Lemma backoff_ms_range (k : Z) : 1 <= k -> 0 <= backoff_ms k <= 32000.
Proof.
  intro H. unfold backoff_ms. rewrite Z.shiftl_1_l.
  destruct (Z.le_gt_cases 7 k) as [Hge|Hlt].
  - rewrite Z.min_r by lia. cbn. lia.
  - rewrite Z.min_l by lia.
    assert (C : k = 1 \/ k = 2 \/ k = 3 \/ k = 4 \/ k = 5 \/ k = 6) by lia.
    destruct C as [->|[->|[->|[->|[->| ->]]]]]; cbn; lia.
Qed.

Lemma attempts_in_app s t : attempts_in (s ++ t) = attempts_in s + attempts_in t.
Proof.
  induction s as [|[|ms] s IH]; cbn [app attempts_in]; lia.
Qed.

Lemma total_sleep_app s t : total_sleep (s ++ t) = total_sleep s + total_sleep t.
Proof.
  induction s as [|[|ms] s IH]; cbn [app total_sleep]; lia.
Qed.

Lemma attempts_in_nonneg s : 0 <= attempts_in s.
Proof. induction s as [|[|ms] s IH]; cbn [attempts_in]; lia. Qed.

(** Whatever the surroundings answer: the loop makes at most
    [maxRetries - attempt] transfers, sleeps at most 32 s between two of
    them, leaves an empty [lastError] when it returns, and throws nothing but
    its own two errors. *)
Lemma upload_loop_outcome env lf url fn (fuel : nat) :
  forall a u w,
    0 <= a ->
    exists r e t,
      upload_loop env lf url fn fuel a (u, w)
      = (r, (setLastError e u, mkWorld (trace w ++ t) (fs w)))
      /\ attempts_in (schedule t) <= Z.max 0 (maxRetries u - a)
      /\ total_sleep (schedule t) <= 32000 * Z.max 0 (maxRetries u - a - 1)
      /\ (r = Ok Returned -> e = "")
      /\ (r = Ok Exhausted -> attempts_in (schedule t) = Z.max 0 (maxRetries u - a))
      /\ ((Z.to_nat (maxRetries u - a) < fuel)%nat -> r <> Diverge)
      /\ (forall ex, r = Throw ex ->
            ex = runtime_error ("Failed to open local file: " ++ lf)
            \/ ex = runtime_error "Failed to initialize curl").
Proof.
  induction fuel as [|fuel IH]; intros a u w Ha.
  - exists Diverge, (lastError u), []. rewrite <- world_eta, <- uploader_eta.
    split; [reflexivity|]. cbn [schedule attempts_in total_sleep].
    split; [lia | split; [lia | split; [discriminate | split; [discriminate|]]]].
    split; [lia | discriminate].
  - destruct (Z.ltb_spec a (maxRetries u)) as [Hlt|Hge].
    2:{ exists (Ok Exhausted), (lastError u), [].
        rewrite upload_loop_exhausted by exact Hge. rewrite <- world_eta, <- uploader_eta.
        split; [reflexivity|]. cbn [schedule attempts_in total_sleep].
        split; [lia | split; [lia | split; [discriminate|]]].
        split; [intros _; lia | split; discriminate]. }
    destruct (fopen_rb env (a + 1)) eqn:Hf.
    2:{ exists (Throw (runtime_error ("Failed to open local file: " ++ lf))), (lastError u).
        exists [EvLog INFO ("FTP upload attempt " ++ Str.to_string (a + 1)
                            ++ " to URL: " ++ url);
                EvFopen lf; EvLog ERROR ("Failed to open local file: " ++ lf)].
        split.
        - cbn [upload_loop]. unfold bind, liftW, this, info, error, log, modify, throw, emit.
          cbn [fst snd]. apply Z.ltb_lt in Hlt. rewrite Hlt, Hf. cbn [negb fst snd trace fs].
          rewrite <- !app_assoc, <- uploader_eta. reflexivity.
        - cbn [schedule attempts_in total_sleep].
          split; [lia | split; [lia | split; [discriminate | split; [discriminate|]]]].
          split; [discriminate|].
          intros ex E. inversion E. left. reflexivity. }
    destruct (curl_easy_init env (a + 1)) eqn:Hi.
    2:{ exists (Throw (runtime_error "Failed to initialize curl")), (lastError u).
        exists [EvLog INFO ("FTP upload attempt " ++ Str.to_string (a + 1)
                            ++ " to URL: " ++ url);
                EvFopen lf; EvCurlEasyInit; EvLog ERROR "Failed to initialize curl"].
        split.
        - cbn [upload_loop]. unfold bind, liftW, this, info, error, log, modify, throw, emit.
          cbn [fst snd]. apply Z.ltb_lt in Hlt. rewrite Hlt, Hf, Hi.
          cbn [negb fst snd trace fs].
          rewrite <- !app_assoc, <- uploader_eta. reflexivity.
        - cbn [schedule attempts_in total_sleep].
          split; [lia | split; [lia | split; [discriminate | split; [discriminate|]]]].
          split; [discriminate|].
          intros ex E. inversion E. right. reflexivity. }
    destruct (upload_loop_step env lf url fn fuel a u w Hlt Hf Hi) as [t1 [U1 S1]].
    destruct (attempt_status env u (a + 1) =? CURLE_OK).
    + destruct S1 as [E1 S1]. exists (Ok Returned), "", t1.
      split; [exact E1|]. rewrite S1. cbn [attempts_in total_sleep].
      split; [lia | split; [lia | split; [reflexivity | split; [discriminate|]]]].
      split; discriminate.
    + destruct S1 as [E1 S1].
      set (u1 := setLastError _ u) in E1.
      destruct (IH (a + 1) u1 (mkWorld (trace w ++ t1) (fs w)))
        as [r [e [t2 [E2 [A2 [T2 [R2 [X2 [D2 Th2]]]]]]]]]; [lia|].
      cbn [u1 maxRetries setLastError] in A2, T2, X2, D2.
      exists r, e, (t1 ++ t2)%list. rewrite E1, E2. cbn [trace fs]. rewrite app_assoc.
      split; [reflexivity|].
      rewrite schedule_app, attempts_in_app, total_sleep_app, S1.
      assert (B : total_sleep (Attempt :: (if a + 1 <? maxRetries u
                                           then [Sleep (backoff_ms (a + 1))] else []))
                  <= (if a + 1 <? maxRetries u then 32000 else 0)).
      { destruct (a + 1 <? maxRetries u); cbn [total_sleep]; [|lia].
        pose proof (backoff_ms_range (a + 1)). lia. }
      assert (A1 : attempts_in (Attempt :: (if a + 1 <? maxRetries u
                                            then [Sleep (backoff_ms (a + 1))] else [])) = 1).
      { destruct (a + 1 <? maxRetries u); reflexivity. }
      rewrite A1.
      split; [lia | split; [|split; [exact R2 | split; [|split; [|exact Th2]]]]].
      * destruct (Z.ltb_spec (a + 1) (maxRetries u)); lia.
      * intro X. rewrite (X2 X). lia.
      * intro Hfuel. apply D2. lia.
Qed.

(** The same for the whole call. *)
Lemma uploadFile_summary env lf rd u w :
  exists r e t,
    uploadFile env lf rd (u, w) = (r, (setLastError e u, mkWorld (trace w ++ t) (fs w)))
    /\ r <> Diverge
    /\ attempts_in (schedule t) <= Z.max 0 (maxRetries u)
    /\ total_sleep (schedule t) <= 32000 * Z.max 0 (maxRetries u - 1)
    /\ (r = Ok tt -> e = "")
    /\ (forall ex, r = Throw ex ->
          (ex = runtime_error ("Local file does not exist: " ++ lf) /\ schedule t = [])
          \/ ex = runtime_error ("Failed to open local file: " ++ lf)
          \/ ex = runtime_error "Failed to initialize curl"
          \/ (ex = runtime_error ("FTP upload failed: " ++ e)
              /\ attempts_in (schedule t) = Z.max 0 (maxRetries u))).
Proof.
  destruct (fs w lf) as [d|] eqn:Hfs.
  - rewrite uploadFile_unfold by congruence.
    set (w0 := mkWorld _ _).
    destruct (upload_loop_outcome env lf (buildUrl u rd (Str.filename lf)) (Str.filename lf)
                (S (Z.to_nat (maxRetries u))) 0 (setLastError "" u) w0)
      as [r [e [t [E [A [T [R [X [D Th]]]]]]]]]; [lia|].
    rewrite E. cbn [maxRetries setLastError] in A, T, X, D.
    rewrite Z.sub_0_r in A, X, D. replace (maxRetries u - 0 - 1) with (maxRetries u - 1) in T by lia.
    specialize (D ltac:(lia)).
    destruct r as [[]|ex|]; [| | |contradiction].
    + exists (Ok tt), e, (EvLog INFO ("Preparing to upload file: " ++ lf ++ " to " ++ rd) :: t).
      cbn [w0 trace fs]. rewrite <- app_assoc.
      split; [reflexivity | split; [discriminate|]].
      cbn [schedule]. split; [exact A | split; [exact T | split; [|discriminate]]].
      intros _. apply R. reflexivity.
    + exists (Throw (runtime_error ("FTP upload failed: " ++ e))), e.
      exists (EvLog INFO ("Preparing to upload file: " ++ lf ++ " to " ++ rd) :: t
              ++ [EvLog ERROR ("FTP upload failed after " ++ Str.to_string (maxRetries u)
                               ++ " attempts: " ++ e)])%list.
      unfold emit. cbn [w0 fst snd trace fs lastError maxRetries setLastError].
      rewrite <- !app_assoc.
      split; [reflexivity | split; [discriminate|]].
      cbn [schedule app]. rewrite schedule_app. cbn [schedule]. rewrite app_nil_r.
      split; [exact A | split; [exact T | split; [discriminate|]]].
      intros ex Hex. inversion Hex. right. right. right.
      split; [reflexivity | apply X; reflexivity].
    + exists (Throw ex), e, (EvLog INFO ("Preparing to upload file: " ++ lf ++ " to " ++ rd) :: t).
      cbn [w0 trace fs]. rewrite <- app_assoc.
      split; [reflexivity | split; [discriminate|]].
      cbn [schedule]. split; [exact A | split; [exact T | split; [discriminate|]]].
      intros ex' Hex. inversion Hex; subst ex'.
      destruct (Th ex eq_refl) as [->| ->]; [right; left | right; right; left]; reflexivity.
  - exists (Throw (runtime_error ("Local file does not exist: " ++ lf))), (lastError u).
    exists [EvLog INFO ("Preparing to upload file: " ++ lf ++ " to " ++ rd);
            EvLog ERROR ("Local file does not exist: " ++ lf)].
    split.
    + unfold uploadFile, bind, liftW, fs_exists, info, error, log, modify, throw, emit.
      cbn [fst snd trace fs]. rewrite Hfs. cbn [negb fst snd trace fs].
      rewrite <- !app_assoc, <- uploader_eta. reflexivity.
    + cbn [schedule attempts_in total_sleep].
      split; [discriminate | split; [lia | split; [lia | split; [discriminate|]]]].
      intros ex Hex. inversion Hex. left. split; reflexivity.
Qed.

(** X2.  However the server, the file system and the callbacks behave,
    [uploadFile] comes back after at most [maxRetries] transfers and at most
    32 s of backoff between two of them; it writes no file and changes no field
    of the uploader but [lastError]. *)
Theorem uploadFile_bounded env lf rd u w :
  exists r e t,
    uploadFile env lf rd (u, w) = (r, (setLastError e u, mkWorld (trace w ++ t) (fs w)))
    /\ r <> Diverge
    /\ attempts_in (schedule t) <= Z.max 0 (maxRetries u)
    /\ total_sleep (schedule t) <= 32000 * Z.max 0 (maxRetries u - 1).
Proof.
  destruct (uploadFile_summary env lf rd u w) as [r [e [t [E [D [A [T _]]]]]]].
  exists r, e, t. split; [exact E | split; [exact D | split; [exact A | exact T]]].
Qed.

(** X3.  [uploadFile] ends in one of five ways: it returns, with [lastError] empty
    whatever failed before; or it throws one of its own four errors -- the
    file is missing (nothing was attempted), the file or the curl handle could
    not be opened, or every one of the [maxRetries] attempts failed, and then
    the message carries [lastError]. *)
Theorem uploadFile_outcomes env lf rd u w :
  exists r e t,
    uploadFile env lf rd (u, w) = (r, (setLastError e u, mkWorld (trace w ++ t) (fs w)))
    /\ match r with
       | Ok _ => e = ""
       | Throw ex =>
           (ex = runtime_error ("Local file does not exist: " ++ lf) /\ schedule t = [])
           \/ ex = runtime_error ("Failed to open local file: " ++ lf)
           \/ ex = runtime_error "Failed to initialize curl"
           \/ (ex = runtime_error ("FTP upload failed: " ++ e)
               /\ attempts_in (schedule t) = Z.max 0 (maxRetries u))
       | Diverge => False
       end.
Proof.
  destruct (uploadFile_summary env lf rd u w) as [r [e [t [E [D [_ [_ [R Th]]]]]]]].
  exists r, e, t. split; [exact E|].
  destruct r as [[]|ex|]; [apply R; reflexivity | apply Th; reflexivity | apply D; reflexivity].
Qed.

(** A turn of the loop that cannot open the file or get a curl handle. *)
Lemma upload_loop_fault env lf url fn fuel a u w :
  a < maxRetries u ->
  fopen_rb env (a + 1) = false
  \/ (fopen_rb env (a + 1) = true /\ curl_easy_init env (a + 1) = false) ->
  exists t,
    upload_loop env lf url fn (S fuel) a (u, w)
    = (Throw (runtime_error (if fopen_rb env (a + 1) then "Failed to initialize curl"
                             else "Failed to open local file: " ++ lf)),
       (u, mkWorld (trace w ++ t) (fs w)))
    /\ schedule t = [].
Proof.
  intros Hlt H. apply Z.ltb_lt in Hlt.
  destruct H as [Hf | [Hf Hi]]; rewrite Hf.
  - exists [EvLog INFO ("FTP upload attempt " ++ Str.to_string (a + 1) ++ " to URL: " ++ url);
            EvFopen lf; EvLog ERROR ("Failed to open local file: " ++ lf)].
    split; [|reflexivity].
    cbn [upload_loop]. unfold bind, liftW, this, info, error, log, modify, throw, emit.
    cbn [fst snd]. rewrite Hlt, Hf. cbn [negb fst snd trace fs].
    rewrite <- !app_assoc. reflexivity.
  - exists [EvLog INFO ("FTP upload attempt " ++ Str.to_string (a + 1) ++ " to URL: " ++ url);
            EvFopen lf; EvCurlEasyInit; EvLog ERROR "Failed to initialize curl"].
    split; [|reflexivity].
    cbn [upload_loop]. unfold bind, liftW, this, info, error, log, modify, throw, emit.
    cbn [fst snd]. rewrite Hlt, Hf, Hi. cbn [negb fst snd trace fs].
    rewrite <- !app_assoc. reflexivity.
Qed.

(** X4.  When attempt [k] cannot open the local file, or cannot get a curl handle,
    [uploadFile] gives up at once although attempts remain: it throws after the
    [k - 1] transfers made so far, and [lastError] still holds the error of
    attempt [k - 1] (or nothing, for [k = 1]). *)
Theorem uploadFile_resource_fault env lf rd u w (k : Z) :
  1 <= k <= maxRetries u ->
  fs w lf <> None ->
  (forall j, 1 <= j < k ->
             fopen_rb env j = true /\ curl_easy_init env j = true
             /\ attempt_status env u j <> CURLE_OK) ->
  fopen_rb env k = false \/ (fopen_rb env k = true /\ curl_easy_init env k = false) ->
  exists t e,
    uploadFile env lf rd (u, w)
    = (Throw (runtime_error (if fopen_rb env k then "Failed to initialize curl"
                             else "Failed to open local file: " ++ lf)),
       (setLastError e u, mkWorld (trace w ++ t) (fs w)))
    /\ attempts_in (schedule t) = k - 1
    /\ (k = 1 -> e = "")
    /\ (1 < k -> e = curl_easy_strerror env (attempt_status env u (k - 1))).
Proof.
  intros Hk Hfs Hfail Hfault.
  rewrite uploadFile_unfold by exact Hfs.
  set (m := Z.to_nat (k - 1)).
  assert (Hm : Z.of_nat m = k - 1) by (unfold m; lia).
  set (w0 := mkWorld _ _).
  set (url := buildUrl u rd (Str.filename lf)).
  set (fuel := (Z.to_nat (maxRetries u) - m)%nat).
  destruct (upload_loop_failures env lf url (Str.filename lf)
              m (Datatypes.S fuel) 0 (setLastError "" u) w0) as [t [e [E [S [_ [L L0]]]]]].
  - lia.
  - cbn [maxRetries setLastError]. lia.
  - intros j Hj. apply Hfail. lia.
  - replace (Datatypes.S (Z.to_nat (maxRetries u))) with (m + Datatypes.S fuel)%nat
      by (unfold fuel; lia).
    rewrite E. cbn [Z.add]. rewrite Hm.
    destruct (upload_loop_fault env lf url (Str.filename lf) fuel (k - 1)
                (setLastError e (setLastError "" u))
                (mkWorld (trace w0 ++ t) (fs w0))) as [t1 [E1 S1]].
    + cbn [maxRetries setLastError]. lia.
    + replace (k - 1 + 1) with k by lia. exact Hfault.
    + replace (k - 1 + 1) with k in E1 by lia. rewrite E1.
      cbn [w0 trace fs]. rewrite <- !app_assoc.
      eexists. exists e. split; [reflexivity|].
      cbn [app schedule]. rewrite !schedule_app, S, S1, app_nil_r.
      cbn [maxRetries setLastError].
      split; [|split].
      * clear - Hm Hk. assert (G : forall n a R, a + Z.of_nat n < R + 1 -> 0 <= a ->
                            attempts_in (failures_from n a R) = Z.of_nat n).
        { induction n as [|n IH]; intros a R H1 H2; [reflexivity|].
          cbn [failures_from]. cbn [app attempts_in].
          rewrite attempts_in_app, IH by lia.
          destruct (a + 1 <? R); cbn [attempts_in]; lia. }
        rewrite G by lia. exact Hm.
      * intro K1. apply L0. unfold m. rewrite K1. reflexivity.
      * intro K1. rewrite L by lia. cbn [Z.add]. rewrite Hm. reflexivity.
Qed.

Lemma uploadFile_resource_fault_witness :
  exists t e,
    uploadFile
      (mkUploadEnv 0 (fun k => k <? 2) (fun _ => true) (fun _ => None)
         (fun _ => ([], 7)) (fun _ => []) (fun c => "curl error " ++ Str.to_string c))
      "test_upload.txt" "remote" (Sample.uploader, Sample.disk)
    = (Throw (runtime_error "Failed to open local file: test_upload.txt"),
       (setLastError e Sample.uploader, mkWorld t (fs Sample.disk)))
    /\ attempts_in (schedule t) = 1
    /\ e = "curl error 7".
Proof.
  destruct (uploadFile_resource_fault
              (mkUploadEnv 0 (fun k => k <? 2) (fun _ => true) (fun _ => None)
                 (fun _ => ([], 7)) (fun _ => []) (fun c => "curl error " ++ Str.to_string c))
              "test_upload.txt" "remote" Sample.uploader Sample.disk 2)
    as [t [e [E [A [_ L]]]]].
  - cbn. lia.
  - cbn. discriminate.
  - intros j Hj. assert (j = 1) as -> by lia. repeat split; cbv; discriminate.
  - left. reflexivity.
  - exists t, e. split; [exact E | split; [exact A | apply L; lia]].
Defined.

Lemma occurs_app c a b : occurs c (a ++ b) = occurs c a || occurs c b.
Proof.
  induction a as [|x a IH]; [reflexivity|].
  cbn [append occurs]. rewrite IH. apply orb_assoc.
Qed.

Lemma occurs_rev c s : occurs c (Str.rev s) = occurs c s.
Proof.
  induction s as [|x s IH]; [reflexivity|].
  rewrite rev_cons, occurs_app, IH. cbn [occurs]. rewrite orb_false_r. apply orb_comm.
Qed.

Lemma occurs_replace c to s : to <> c -> occurs c (Str.replace c to s) = false.
Proof.
  intro H. induction s as [|x s IH]; [reflexivity|].
  cbn [Str.replace occurs]. rewrite IH, orb_false_r.
  destruct (Ascii.eqb_spec x c) as [->|Hx]; apply Ascii.eqb_neq; assumption.
Qed.

Lemma occurs_erase_front c ch s :
  occurs c s = false -> occurs c (Str.erase_front_while ch s) = false.
Proof.
  induction s as [|x s IH]; [reflexivity|].
  cbn [Str.erase_front_while]. intro H.
  destruct (Ascii.eqb x ch); [|exact H].
  apply IH. cbn [occurs] in H. apply orb_false_iff in H. apply H.
Qed.

Lemma replace_absent from to s : occurs from s = false -> Str.replace from to s = s.
Proof.
  induction s as [|x s IH]; [reflexivity|].
  cbn [occurs Str.replace]. intro H. apply orb_false_iff in H. destruct H as [H1 H2].
  rewrite H1, IH by exact H2. reflexivity.
Qed.

Lemma erase_front_while_fixed ch s :
  (forall r, s <> String ch r) -> Str.erase_front_while ch s = s.
Proof.
  destruct s as [|x s]; [reflexivity|]. intro H.
  apply erase_front_while_head. intros ->. exact (H s eq_refl).
Qed.

Lemma pop_back_while_fixed ch s :
  (forall r, s <> r ++ String ch "") -> Str.pop_back_while ch s = s.
Proof.
  intro H. unfold Str.pop_back_while.
  rewrite erase_front_while_fixed; [apply rev_involutive|].
  intros r E. apply (H (Str.rev r)).
  rewrite <- (rev_involutive s), E, rev_cons. reflexivity.
Qed.

Lemma cleanDir_fixed s :
  occurs "\"%char s = false ->
  (forall r, s <> String "/"%char r) -> (forall r, s <> r ++ "/") ->
  cleanDir s = s.
Proof.
  intros H1 H2 H3. unfold cleanDir.
  rewrite replace_absent by exact H1.
  rewrite erase_front_while_fixed by exact H2.
  apply pop_back_while_fixed, H3.
Qed.

Lemma cleanDir_no_backslash d : occurs "\"%char (cleanDir d) = false.
Proof.
  unfold cleanDir, Str.pop_back_while.
  rewrite occurs_rev. apply occurs_erase_front. rewrite occurs_rev.
  apply occurs_erase_front. apply occurs_replace. discriminate.
Qed.

Lemma replicate_only_slashes n s t :
  Str.replicate n "/"%char = s ++ t ->
  (forall r, t <> String "/"%char r) -> t = "".
Proof.
  revert s. induction n as [|n IH]; intros s E N.
  - destruct s, t; try discriminate. reflexivity.
  - destruct s as [|x s].
    + cbn in E. destruct t as [|y t]; [reflexivity|]. inversion E; subst.
      exfalso. exact (N _ eq_refl).
    + cbn in E. inversion E. eapply IH; eassumption.
Qed.

Lemma only_separators_replace d :
  only_separators d = true -> exists n, Str.replace "\"%char "/"%char d = Str.replicate n "/"%char.
Proof.
  induction d as [|c d IH]; intro H.
  - exists O. reflexivity.
  - cbn [only_separators] in H. apply andb_true_iff in H. destruct H as [Hc Hd].
    destruct (IH Hd) as [n E]. exists (S n). cbn [Str.replace Str.replicate]. rewrite E.
    destruct (Ascii.eqb_spec c "\"%char) as [->|Hn]; [reflexivity|].
    apply orb_true_iff in Hc. destruct Hc as [Hc|Hc]; [|discriminate].
    apply Ascii.eqb_eq in Hc. subst. reflexivity.
Qed.

Lemma erase_front_replicate n ch : Str.erase_front_while ch (Str.replicate n ch) = "".
Proof.
  induction n as [|n IH]; [reflexivity|].
  cbn [Str.replicate Str.erase_front_while]. rewrite Ascii.eqb_refl. exact IH.
Qed.

Lemma replace_only_separators d :
  (exists n, Str.replace "\"%char "/"%char d = Str.replicate n "/"%char) ->
  only_separators d = true.
Proof.
  induction d as [|c d IH]; intros [n E]; [reflexivity|].
  destruct n as [|n]; [discriminate|]. cbn [Str.replace Str.replicate] in E.
  injection E as Hc Hd. cbn [only_separators].
  rewrite IH by (exists n; exact Hd). rewrite andb_true_r.
  destruct (Ascii.eqb_spec c "\"%char) as [->|Hn]; [reflexivity|].
  rewrite Hc. reflexivity.
Qed.

(** X5.  Cleaning a directory twice changes nothing more: the cleaned directory
    has no backslash left and [buildUrl] gives the same URL for a directory
    and for its cleaned form.  The directory segment is left out of the URL
    exactly for the directories made of slashes and backslashes only (the
    empty one among them). *)
Theorem cleanDir_idempotent (d : string) :
  cleanDir (cleanDir d) = cleanDir d
  /\ occurs "\"%char (cleanDir d) = false
  /\ (forall u f, buildUrl u (cleanDir d) f = buildUrl u d f)
  /\ (cleanDir d = "" <-> only_separators d = true)
  /\ (forall u f, only_separators d = true -> buildUrl u d f = buildUrl u "" f).
Proof.
  destruct (erase_front_while_spec "/"%char (Str.replace "\"%char "/"%char d)) as [i [Ei Ni]].
  destruct (pop_back_while_spec "/"%char
              (Str.erase_front_while "/"%char (Str.replace "\"%char "/"%char d)))
    as [j [Ej Nj]].
  assert (I : cleanDir (cleanDir d) = cleanDir d).
  { apply cleanDir_fixed.
    - apply cleanDir_no_backslash.
    - apply pop_back_while_keeps_front, Ni.
    - exact Nj. }
  assert (Z0 : only_separators d = true -> cleanDir d = "").
  { intro H. destruct (only_separators_replace d H) as [n E].
    unfold cleanDir. rewrite E, erase_front_replicate. reflexivity. }
  split; [exact I | split; [apply cleanDir_no_backslash | split; [|split; [split|]]]].
  - intros u f. unfold buildUrl. rewrite I. reflexivity.
  - intro E. fold (cleanDir d) in Ej. rewrite E in Ej. cbn [append] in Ej.
    apply replace_only_separators. exists (i + j)%nat.
    rewrite Ei, Ej. clear. induction i as [|i IH]; [reflexivity|].
    cbn [Str.replicate append Nat.add]. rewrite IH. reflexivity.
  - exact Z0.
  - intros u f H. unfold buildUrl. rewrite (Z0 H). reflexivity.
Qed.

Lemma log_all_exact (l : list (Level * string)) (w : World) :
  log_all l w = (Ok tt, mkWorld (trace w ++ map (fun p => EvLog (fst p) (snd p)) l) (fs w)).
Proof.
  revert w. induction l as [|[lvl msg] l IH]; intro w; cbn [log_all map].
  - rewrite <- world_eta. reflexivity.
  - unfold bind, log, modify. rewrite IH. cbn [emit trace fs fst snd].
    rewrite <- app_assoc. reflexivity.
Qed.

(** No line that [std::getline] delivers holds a newline. *)
Lemma lines_aux_no_newline s : forall cur,
  occurs "010"%char cur = false ->
  Forall (fun l => occurs "010"%char l = false) (Str.lines_aux s cur).
Proof.
  induction s as [|c s IH]; intros cur H; cbn [Str.lines_aux].
  - destruct cur; constructor; [|constructor]. rewrite occurs_rev. exact H.
  - destruct (Ascii.eqb_spec c "010"%char) as [->|Hc].
    + constructor; [rewrite occurs_rev; exact H | apply IH; reflexivity].
    + apply IH. cbn [occurs]. rewrite H, orb_false_r. apply Ascii.eqb_neq, Hc.
Qed.

Lemma rev_append_cons_nonempty s c acc : Str.rev_append s (String c acc) <> "".
Proof.
  revert c acc. induction s as [|x s IH]; intros c acc; cbn [Str.rev_append];
    [discriminate | apply IH].
Qed.

(** A chunk without a newline is one line. *)
Lemma lines_aux_single s : forall cur,
  occurs "010"%char s = false ->
  Str.lines_aux s cur = match Str.rev cur ++ s with "" => [] | l => [l] end.
Proof.
  induction s as [|c s IH]; intros cur H; cbn [Str.lines_aux].
  - rewrite append_nil_r. destruct cur as [|x cur]; [reflexivity|].
    unfold Str.rev. cbn [Str.rev_append].
    destruct (Str.rev_append cur (String x "")) eqn:E; [|reflexivity].
    exfalso. exact (rev_append_cons_nonempty _ _ _ E).
  - cbn [occurs] in H. apply orb_false_iff in H. destruct H as [H1 H2].
    rewrite H1, IH by exact H2. rewrite rev_cons, append_assoc. reflexivity.
Qed.

(** X6.  [writeCallback] tells libcurl that it took the whole chunk, whatever the
    chunk holds, and never throws.  What it logs, in order and at INFO, are
    lines of the chunk: none of them is empty, none holds a newline, and a
    non-empty chunk without a newline is logged whole, as one line. *)
Theorem writeCallback_logs_lines (chunk : string) (w : World) :
  exists ls,
    writeCallback chunk w
    = (Ok (Z.of_nat (String.length chunk)),
       mkWorld (trace w ++ map (fun l => EvLog INFO ("FTP server: " ++ l)) ls) (fs w))
    /\ Forall (fun l => l <> "" /\ occurs "010"%char l = false) ls
    /\ (occurs "010"%char chunk = false ->
        ls = match chunk with "" => [] | _ => [chunk] end).
Proof.
  exists (filter (fun line => negb (Str.empty line)) (Str.lines chunk)).
  split; [|split].
  - unfold writeCallback, bind, ret. rewrite log_all_exact, map_map. reflexivity.
  - apply Forall_forall. intros l Hl. apply filter_In in Hl. destruct Hl as [Hin Hne].
    split.
    + intros ->. discriminate.
    + pose proof (lines_aux_no_newline chunk "" eq_refl) as F.
      rewrite Forall_forall in F. apply F, Hin.
  - intro H. unfold Str.lines. rewrite lines_aux_single by exact H. cbn [Str.rev append].
    unfold Str.rev. cbn [Str.rev_append append].
    destruct chunk; reflexivity.
Qed.


Lemma obey_logs (P : Handle -> Prop) (t : list Event) :
  Forall is_log t -> Forall (transfers_obey P) t.
Proof.
  apply Forall_impl. intros [] H; simpl in H; try contradiction. exact I.
Qed.

(** One turn of the retry loop whose attempt reaches the transfer: the handle
    is the one [configure] builds for the URL of the call. *)
Lemma upload_loop_step_handle env lf url fn fuel a u w :
  a < maxRetries u -> fopen_rb env (a + 1) = true -> curl_easy_init env (a + 1) = true ->
  exists t,
    Forall (transfers_obey (configured_by u url lf)) t /\
    if attempt_status env u (a + 1) =? CURLE_OK then
      upload_loop env lf url fn (S fuel) a (u, w)
      = (Ok Returned, (setLastError "" u, mkWorld (trace w ++ t) (fs w)))
    else
      upload_loop env lf url fn (S fuel) a (u, w)
      = upload_loop env lf url fn fuel (a + 1)
          (setLastError (curl_easy_strerror env (attempt_status env u (a + 1))) u,
           mkWorld (trace w ++ t) (fs w)).
Proof.
  intros Ha Hf Hi. apply Z.ltb_lt in Ha.
  set (pre := [EvLog INFO ("FTP upload attempt " ++ Str.to_string (a + 1)
                           ++ " to URL: " ++ url); EvFopen lf; EvCurlEasyInit]).
  set (h := configure u url lf (file_size env (a + 1))).
  destruct (curl_easy_perform_status env u url lf (a + 1)
              (mkWorld (trace w ++ pre) (fs w))) as [tl [E F]].
  cbv zeta in E. fold h in E. cbn [trace fs] in E.
  assert (U : Forall (transfers_obey (configured_by u url lf)) tl) by (apply obey_logs, F).
  assert (P : Forall (transfers_obey (configured_by u url lf)) (pre ++ EvCurlPerform h :: tl)).
  { repeat (apply Forall_cons; [exact I|]).
    apply Forall_cons; [exists (file_size env (a + 1)); reflexivity | exact U]. }
  assert (X : upload_loop env lf url fn (S fuel) a (u, w)
             = (let (r, s') := let (r, w') := curl_easy_perform h (transfer env (a + 1)) (replies env (a + 1))
                                                (mkWorld (trace w ++ pre) (fs w)) in
                               (r, (setLastError "" u, w')) in
                match r with
                | Ok res =>
                    (if res =? CURLE_OK then
                       liftW (info ("FTP upload succeeded: " ++ fn)) ;; ret Returned
                     else
                       update (setLastError (curl_easy_strerror env res)) ;;
                       u' <- this ;;
                       liftW (warn ("FTP upload attempt " ++ Str.to_string (a + 1)
                                    ++ " failed: " ++ lastError u')) ;;
                       (if a + 1 <? maxRetries u' then
                          liftW (info "Retrying after backoff...") ;;
                          liftW (sleepForBackoff (a + 1))
                        else ret tt) ;;
                       upload_loop env lf url fn fuel (a + 1)) s'
                | Throw e => (Throw e, s')
                | Diverge => (Diverge, s')
                end)).
  { cbn [upload_loop].
    unfold bind at 1. unfold this at 1. cbn [fst snd]. rewrite Ha.
    unfold bind at 1. unfold liftW at 1, info at 1, log, modify. cbn [fst snd].
    unfold bind at 1. unfold liftW at 1. cbn [fst snd]. rewrite Hf. cbn [negb].
    unfold bind at 1. unfold liftW at 1. cbn [fst snd]. rewrite Hi. cbn [negb].
    unfold bind at 1. unfold update at 1. cbn [fst snd].
    unfold bind at 1. unfold liftW at 1. cbn [fst snd].
    unfold emit. cbn [trace fs]. rewrite <- !app_assoc. cbn [app]. reflexivity. }
  rewrite X, E. clear X.
  destruct (attempt_status env u (a + 1) =? CURLE_OK) eqn:Est.
  - exists (pre ++ EvCurlPerform h :: tl ++ [EvLog INFO ("FTP upload succeeded: " ++ fn)])%list.
    split.
    + rewrite app_comm_cons, app_assoc. apply Forall_app. split; [exact P | repeat constructor].
    + unfold bind, liftW, info, log, modify, ret, emit. cbn.
      rewrite <- ?app_assoc. cbn. rewrite <- ?app_assoc. reflexivity.
  - destruct (a + 1 <? maxRetries u) eqn:Elt.
    + exists (pre ++ EvCurlPerform h :: tl
              ++ [EvLog WARNING ("FTP upload attempt " ++ Str.to_string (a + 1) ++ " failed: "
                                 ++ curl_easy_strerror env (attempt_status env u (a + 1)));
                  EvLog INFO "Retrying after backoff..."; EvSleep (backoff_ms (a + 1))])%list.
      split.
      * rewrite app_comm_cons, app_assoc. apply Forall_app. split; [exact P | repeat constructor].
      * unfold bind, liftW, info, warn, log, modify, update, this, ret, sleepForBackoff, emit.
        cbn. rewrite Elt. cbn. rewrite <- ?app_assoc. cbn. rewrite <- ?app_assoc. reflexivity.
    + exists (pre ++ EvCurlPerform h :: tl
              ++ [EvLog WARNING ("FTP upload attempt " ++ Str.to_string (a + 1) ++ " failed: "
                                 ++ curl_easy_strerror env (attempt_status env u (a + 1)))])%list.
      split.
      * rewrite app_comm_cons, app_assoc. apply Forall_app. split; [exact P | repeat constructor].
      * unfold bind, liftW, info, warn, log, modify, update, this, ret, sleepForBackoff, emit.
        cbn. rewrite Elt. cbn. rewrite <- ?app_assoc. cbn. rewrite <- ?app_assoc. reflexivity.
Qed.

Lemma upload_loop_handles env lf url fn (fuel : nat) :
  forall a u w,
  exists r e t,
    upload_loop env lf url fn fuel a (u, w)
    = (r, (setLastError e u, mkWorld (trace w ++ t) (fs w)))
    /\ Forall (transfers_obey (configured_by u url lf)) t.
Proof.
  induction fuel as [|fuel IH]; intros a u w.
  - exists Diverge, (lastError u), []. rewrite <- world_eta, <- uploader_eta.
    split; [reflexivity | constructor].
  - destruct (Z.ltb_spec a (maxRetries u)) as [Hlt|Hge].
    2:{ exists (Ok Exhausted), (lastError u), [].
        rewrite upload_loop_exhausted by exact Hge. rewrite <- world_eta, <- uploader_eta.
        split; [reflexivity | constructor]. }
    destruct (fopen_rb env (a + 1)) eqn:Hf.
    2:{ exists (Throw (runtime_error ("Failed to open local file: " ++ lf))), (lastError u).
        eexists. split.
        - cbn [upload_loop]. unfold bind, liftW, this, info, error, log, modify, throw, emit.
          cbn [fst snd]. apply Z.ltb_lt in Hlt. rewrite Hlt, Hf. cbn [negb fst snd trace fs].
          rewrite <- !app_assoc, <- uploader_eta. reflexivity.
        - repeat constructor. }
    destruct (curl_easy_init env (a + 1)) eqn:Hi.
    2:{ exists (Throw (runtime_error "Failed to initialize curl")), (lastError u).
        eexists. split.
        - cbn [upload_loop]. unfold bind, liftW, this, info, error, log, modify, throw, emit.
          cbn [fst snd]. apply Z.ltb_lt in Hlt. rewrite Hlt, Hf, Hi. cbn [negb fst snd trace fs].
          rewrite <- !app_assoc, <- uploader_eta. reflexivity.
        - repeat constructor. }
    destruct (upload_loop_step_handle env lf url fn fuel a u w Hlt Hf Hi) as [t1 [U1 S1]].
    destruct (attempt_status env u (a + 1) =? CURLE_OK).
    + exists (Ok Returned), "", t1. split; [exact S1 | exact U1].
    + set (u1 := setLastError _ u) in S1.
      destruct (IH (a + 1) u1 (mkWorld (trace w ++ t1) (fs w))) as [r [e [t2 [E2 U2]]]].
      exists r, e, (t1 ++ t2)%list. rewrite S1, E2. cbn [trace fs]. rewrite app_assoc.
      split; [reflexivity|].
      apply Forall_app. split; [exact U1 | exact U2].
Qed.

(** Every transfer of a call of [uploadFile] runs on a handle set up by the
    same uploader for the same URL and the same local file. *)
Lemma uploadFile_handles env lf rd u w :
  exists r e t,
    uploadFile env lf rd (u, w) = (r, (setLastError e u, mkWorld (trace w ++ t) (fs w)))
    /\ Forall (transfers_obey (configured_by u (buildUrl u rd (Str.filename lf)) lf)) t.
Proof.
  destruct (fs w lf) as [d|] eqn:Hfs.
  - rewrite uploadFile_unfold by congruence.
    set (w0 := mkWorld _ _).
    destruct (upload_loop_handles env lf (buildUrl u rd (Str.filename lf)) (Str.filename lf)
                (S (Z.to_nat (maxRetries u))) 0 (setLastError "" u) w0)
      as [r [e [t [E U]]]].
    rewrite E.
    destruct r as [[]|ex|].
    + exists (Ok tt), e. eexists. cbn [w0 trace fs]. rewrite <- app_assoc.
      split; [reflexivity | apply Forall_cons; [exact I | exact U]].
    + eexists. exists e. eexists. unfold emit. cbn [w0 fst snd trace fs].
      rewrite <- !app_assoc.
      split; [reflexivity|].
      apply Forall_cons; [exact I|]. apply Forall_app. split; [exact U | repeat constructor].
    + exists (Throw ex), e. eexists. cbn [w0 trace fs]. rewrite <- app_assoc.
      split; [reflexivity | apply Forall_cons; [exact I | exact U]].
    + exists Diverge, e. eexists. cbn [w0 trace fs]. rewrite <- app_assoc.
      split; [reflexivity | apply Forall_cons; [exact I | exact U]].
  - exists (Throw (runtime_error ("Local file does not exist: " ++ lf))), (lastError u).
    eexists. split.
    + unfold uploadFile, bind, liftW, fs_exists, info, error, log, modify, throw, emit.
      cbn [fst snd trace fs]. rewrite Hfs. cbn [negb fst snd trace fs].
      rewrite <- !app_assoc, <- uploader_eta. reflexivity.
    + repeat constructor.
Qed.

Lemma configure_settings u url lf fsize : upload_settings u url lf (configure u url lf fsize).
Proof.
  unfold upload_settings, configure, credential.
  destruct (Str.empty (user u)), (Str.empty (pass u)), (sslVerify u), (verbose u),
    (progressCb u), fsize; cbn; repeat split; reflexivity.
Qed.

(** X7.  Every transfer of a call of [uploadFile] goes to the one URL [buildUrl]
    gives for the remote directory and the base name of the local file, reads
    that file, and carries the credentials, the timeout and the verbosity of
    the uploader: the attempts of a call differ in nothing the caller has
    set. *)
Theorem uploadFile_settings env lf rd u w :
  exists r e t,
    uploadFile env lf rd (u, w) = (r, (setLastError e u, mkWorld (trace w ++ t) (fs w)))
    /\ Forall (transfers_obey
                 (upload_settings u (buildUrl u rd (Str.filename lf)) lf)) t.
Proof.
  destruct (uploadFile_handles env lf rd u w) as [r [e [t [E U]]]].
  exists r, e, t. split; [exact E|].
  revert U. apply Forall_impl. intros [] H; cbn in *; try exact I.
  destruct H as [fsize ->]. apply configure_settings.
Qed.

(** ** What a normal return says *)

(** The loop returns only on a transfer that reported [CURLE_OK], every
    attempt before it having run and failed. *)
Lemma upload_loop_returned env lf url fn (fuel : nat) :
  forall a u w s,
    upload_loop env lf url fn fuel a (u, w) = (Ok Returned, s) ->
    exists k,
      a < k <= maxRetries u
      /\ attempt_status env u k = CURLE_OK
      /\ (forall j, a < j <= k -> fopen_rb env j = true /\ curl_easy_init env j = true)
      /\ (forall j, a < j < k -> attempt_status env u j <> CURLE_OK).
Proof.
  induction fuel as [|fuel IH]; intros a u w s E; [discriminate|].
  destruct (Z.ltb_spec a (maxRetries u)) as [Hlt|Hge].
  2:{ rewrite upload_loop_exhausted in E by exact Hge. discriminate. }
  destruct (fopen_rb env (a + 1)) eqn:Hf.
  2:{ destruct (upload_loop_fault env lf url fn fuel a u w Hlt (or_introl Hf)) as [t [E' _]].
      rewrite E' in E. discriminate. }
  destruct (curl_easy_init env (a + 1)) eqn:Hi.
  2:{ destruct (upload_loop_fault env lf url fn fuel a u w Hlt (or_intror (conj Hf Hi)))
        as [t [E' _]].
      rewrite E' in E. discriminate. }
  destruct (upload_loop_step env lf url fn fuel a u w Hlt Hf Hi) as [t1 [_ S1]].
  destruct (attempt_status env u (a + 1) =? CURLE_OK) eqn:Est.
  - exists (a + 1). apply Z.eqb_eq in Est.
    split; [lia | split; [exact Est | split]].
    + intros j Hj. replace j with (a + 1) by lia. split; assumption.
    + intros j Hj. lia.
  - destruct S1 as [E1 _]. rewrite E1 in E.
    apply IH in E. destruct E as [k [Hk [Ok_ [Res Fail]]]].
    cbn [maxRetries setLastError] in Hk.
    exists k. apply Z.eqb_neq in Est.
    split; [lia | split; [exact Ok_ | split]].
    + intros j Hj. destruct (Z.eq_dec j (a + 1)) as [->|Hne]; [split; assumption|].
      apply Res. lia.
    + intros j Hj. destruct (Z.eq_dec j (a + 1)) as [->|Hne]; [exact Est|].
      apply Fail. lia.
Qed.

Lemma uploadFile_returned env lf rd u w s :
  uploadFile env lf rd (u, w) = (Ok tt, s) ->
  fs w lf <> None
  /\ exists k,
       1 <= k <= maxRetries u
       /\ attempt_status env u k = CURLE_OK
       /\ (forall j, 1 <= j <= k -> fopen_rb env j = true /\ curl_easy_init env j = true)
       /\ (forall j, 1 <= j < k -> attempt_status env u j <> CURLE_OK).
Proof.
  intro E.
  destruct (fs w lf) as [d|] eqn:Hfs.
  2:{ exfalso. revert E.
      unfold uploadFile, bind, liftW, fs_exists, info, error, log, modify, throw, emit.
      cbn [fst snd trace fs]. rewrite Hfs. discriminate. }
  split; [discriminate|].
  rewrite uploadFile_unfold in E by congruence.
  destruct (upload_loop env lf (buildUrl u rd (Str.filename lf)) (Str.filename lf)
              (S (Z.to_nat (maxRetries u))) 0 _) as [[[]|ex|] s'] eqn:L;
    try discriminate.
  apply upload_loop_returned in L. destruct L as [k [Hk [Ok_ [Res Fail]]]].
  cbn [maxRetries setLastError] in Hk.
  exists k. split; [lia | split; [exact Ok_ | split]].
  - intros j Hj. apply Res. lia.
  - intros j Hj. apply Fail. lia.
Qed.

(** X8.  [uploadFile] returns normally only when the file was there and one of the
    attempts it is allowed reported success, the earlier ones having failed:
    a normal return is never a silent failure. *)
Theorem uploadFile_return_means_sent env lf rd u w s :
  uploadFile env lf rd (u, w) = (Ok tt, s) ->
  fs w lf <> None
  /\ exists k,
       1 <= k <= maxRetries u
       /\ attempt_status env u k = CURLE_OK
       /\ (forall j, 1 <= j <= k -> fopen_rb env j = true /\ curl_easy_init env j = true)
       /\ (forall j, 1 <= j < k -> attempt_status env u j <> CURLE_OK)
       /\ exists t, snd s = mkWorld (trace w ++ t) (fs w)
                    /\ schedule t = attempts_made k.
Proof.
  intro E.
  destruct (uploadFile_returned env lf rd u w s E) as [Hfs [k [Hk [Ok_ [Res Fail]]]]].
  split; [exact Hfs|]. exists k.
  split; [exact Hk | split; [exact Ok_ | split; [exact Res | split; [exact Fail|]]]].
  destruct (uploadFile_first_success env lf rd u w k Hk Hfs Res Fail Ok_) as [t [E' [S _]]].
  rewrite E' in E. injection E as <-. exists t. split; [reflexivity | exact S].
Qed.

Lemma uploadFile_return_means_sent_witness :
  exists s,
    uploadFile Sample.accepting "test_upload.txt" "remote" (Sample.uploader, Sample.disk)
    = (Ok tt, s)
    /\ exists k, 1 <= k <= 3 /\ attempt_status Sample.accepting Sample.uploader k = CURLE_OK.
Proof.
  exists (snd (uploadFile Sample.accepting "test_upload.txt" "remote"
                 (Sample.uploader, Sample.disk))).
  assert (E : uploadFile Sample.accepting "test_upload.txt" "remote"
                (Sample.uploader, Sample.disk)
              = (Ok tt, snd (uploadFile Sample.accepting "test_upload.txt" "remote"
                               (Sample.uploader, Sample.disk)))).
  { apply res_pair_state. vm_compute. reflexivity. }
  split; [exact E|].
  destruct (uploadFile_return_means_sent _ _ _ _ _ _ E) as [_ [k [Hk [Ok_ _]]]].
  exists k. split; [exact Hk | exact Ok_].
Defined.

(** ** Further properties of the database helper *)

(** X9.  The name tables are never read out of bounds: every index, in range or
    not, yields an entry of the table, an index outside [0, 9] yields the
    first entry, and inside the range different indices yield different
    names. *)
Theorem random_names_in_table (idx : Z) :
  In (randomFirstName idx) first_names
  /\ In (randomLastName idx) last_names
  /\ (idx < 0 \/ 9 < idx ->
      randomFirstName idx = "Anna" /\ randomLastName idx = "Petrosyan")
  /\ (forall j, 0 <= idx <= 9 -> 0 <= j <= 9 ->
        randomFirstName idx = randomFirstName j \/ randomLastName idx = randomLastName j ->
        idx = j).
Proof.
  unfold randomFirstName, randomLastName.
  destruct (Z.ltb_spec idx 0) as [Hneg|Hnn]; cbn [orb].
  { split; [left; reflexivity | split; [left; reflexivity | split; [split; reflexivity|]]].
    intros; lia. }
  destruct (Z.ltb_spec 9 idx) as [Hbig|Hok].
  { split; [left; reflexivity | split; [left; reflexivity | split; [split; reflexivity|]]].
    intros; lia. }
  assert (C : idx = 0 \/ idx = 1 \/ idx = 2 \/ idx = 3 \/ idx = 4 \/ idx = 5
              \/ idx = 6 \/ idx = 7 \/ idx = 8 \/ idx = 9) by lia.
  split; [|split; [|split; [lia|]]].
  - destruct C as [->|[->|[->|[->|[->|[->|[->|[->|[->| ->]]]]]]]]]; cbn; tauto.
  - destruct C as [->|[->|[->|[->|[->|[->|[->|[->|[->| ->]]]]]]]]]; cbn; tauto.
  - intros j _ Hj.
    replace ((j <? 0) || (9 <? j)) with false
      by (symmetry; apply orb_false_iff; split; [apply Z.ltb_ge | apply Z.ltb_ge]; lia).
    assert (D : j = 0 \/ j = 1 \/ j = 2 \/ j = 3 \/ j = 4 \/ j = 5
                \/ j = 6 \/ j = 7 \/ j = 8 \/ j = 9) by lia.
    destruct C as [->|[->|[->|[->|[->|[->|[->|[->|[->| ->]]]]]]]]];
      destruct D as [->|[->|[->|[->|[->|[->|[->|[->|[->| ->]]]]]]]]];
      cbn; intros [H|H]; try reflexivity; discriminate H.
Qed.

Lemma seeded_app (t s : list Event) (f g : string -> option Db) :
  seeded (mkWorld (t ++ s) f) = seeded (mkWorld t g) || existsb is_seed s.
Proof. unfold seeded. cbn [trace]. apply existsb_app. Qed.

(** X23.  [insertRandomRows] seeds the generator once per process, in the
    first call that gets past the preparation of the insert statement: that
    call logs the INFO line on the seed exactly when SQLITEHELPER_SEED is set
    to a number, a value that is not a number makes it throw without seeding,
    and once the generator is seeded no call seeds it or logs the line
    again. *)
Theorem insertRandomRows_seeds_once env h count w :
  exists r t f,
    insertRandomRows env h count w = (r, mkWorld (trace w ++ t) f)
    /\ seed_lines t
       = (if negb (seeded w) && reaches_seeding (insert_rows env count (db_image w (dbPath h)))
          then match seed_env env with SeedValue _ => 1 | _ => 0 end
          else 0)%nat
    /\ existsb is_seed t
       = negb (seeded w)
         && reaches_seeding (insert_rows env count (db_image w (dbPath h)))
         && match seed_env env with SeedInvalid _ => false | _ => true end
    /\ (seeded w = false ->
        reaches_seeding (insert_rows env count (db_image w (dbPath h))) = true ->
        forall what, seed_env env = SeedInvalid what -> r = Throw (StdException what)).
Proof.
  assert (S0 : forall e, seeded (emit e w) = seeded w || is_seed e).
  { intro e. unfold emit. rewrite (seeded_app (trace w) [e] (fs w) (fs w)).
    cbn [existsb]. rewrite orb_false_r. destruct w; reflexivity. }
  unfold insertRandomRows, seed_rng, info, error, log, modify, get, throw, ret, bind.
  cbv beta iota zeta.
  change (db_image (emit (EvLog INFO ("Inserting " ++ Str.to_string count ++ " random rows...")) w)
            (dbPath h)) with (db_image w (dbPath h)).
  destruct (insert_rows env count (db_image w (dbPath h))); cbn [reaches_seeding];
    cbv beta iota zeta; rewrite ?S0; cbn [is_seed]; rewrite ?andb_false_r, ?orb_false_r;
    try (destruct (seeded w) eqn:Sw; cbn [negb andb orb]; [|destruct (seed_env env) eqn:Se]);
    cbv beta iota zeta; unfold emit, fs_write; cbn [trace fs]; rewrite <- ?app_assoc;
    (eexists; eexists; eexists; split; [reflexivity|]);
    (split; [reflexivity|]);
    (split; [reflexivity|]);
    intros; congruence.
Qed.

(** The copy loop writes the destination file and no other, whatever the
    fuel. *)
Lemma backup_loop_fs a dumpFile (fuel : nat) :
  forall b w,
    (forall q, q <> dumpFile -> fs (snd (backup_loop a dumpFile fuel b w)) q = fs w q)
    /\ (fs w dumpFile <> None -> fs (snd (backup_loop a dumpFile fuel b w)) dumpFile <> None).
Proof.
  induction fuel as [|fuel IH]; intros b w.
  - split; [reflexivity | exact (fun H => H)].
  - rewrite backup_loop_turn.
    set (w1 := mkWorld _ _).
    assert (F1 : forall q, q <> dumpFile -> fs w1 q = fs w q).
    { intros q Hq. cbn [w1 fs]. destruct (String.eqb_spec q dumpFile); [contradiction|].
      reflexivity. }
    assert (F2 : fs w1 dumpFile <> None).
    { cbn [w1 fs]. rewrite String.eqb_refl. discriminate. }
    destruct (keeps_going _).
    + destruct (IH (snd (sqlite3_backup_step a b 1024)) w1) as [G1 G2]. split.
      * intros q Hq. rewrite G1 by exact Hq. apply F1, Hq.
      * intros _. apply G2, F2.
    + cbn [snd]. split; [exact F1 | intros _; exact F2].
Qed.

Lemma fs_touch_self p w : fs (touch p w) p = Some (db_image w p).
Proof.
  unfold touch, db_image. destruct (fs w p) eqn:E; [exact E|].
  cbn [fs fs_write]. rewrite String.eqb_refl. reflexivity.
Qed.

(** X10.  [backupToFile] writes the destination and no other file, and removes
    nothing.  When the destination cannot be opened it throws before anything
    is created or copied.  Once the destination is open the file exists when
    the call is over, however it ends: a backup that cannot be initialised
    leaves the destination as [sqlite3_open] left it (created empty, or with
    what it held), without a single copy step, and a failed copy leaves its
    partial result in place. *)
Theorem backupToFile_leaves_destination env fuel h dumpFile w :
  exists r w',
    backupToFile env fuel h dumpFile w = (r, w')
    /\ (forall q, q <> dumpFile -> fs w' q = fs w q)
    /\ file_events (trace w') = (file_events (trace w) ++ [EvSqliteOpen dumpFile])%list
    /\ (sqlite3_open env dumpFile = false ->
        r = Throw (runtime_error ("Failed to open destination DB: "
                                  ++ errmsg_or env "unknown error"))
        /\ fs w' dumpFile = fs w dumpFile
        /\ copy_events (trace w') = copy_events (trace w))
    /\ (sqlite3_open env dumpFile = true -> fs w' dumpFile <> None)
    /\ (sqlite3_open env dumpFile = true ->
        sqlite3_backup_init (api env) (db_image w (dbPath h)) = None ->
        r = Throw (runtime_error ("sqlite3_backup_init failed: "
                                  ++ errmsg_or env "unknown error"))
        /\ fs w' dumpFile = Some (db_image w dumpFile)
        /\ copy_events (trace w') = copy_events (trace w)).
Proof.
  pose proof (backupToFile_file_events env fuel h dumpFile w) as FE.
  destruct (sqlite3_open env dumpFile) eqn:Hopen.
  2:{ eexists; eexists. split.
      { unfold backupToFile, bind, info, log, modify, throw, emit. rewrite Hopen.
        cbn [negb trace fs]. reflexivity. }
      split; [reflexivity|].
      split.
      { cbn [trace]. rewrite !file_events_app. cbn. rewrite app_nil_r. reflexivity. }
      split; [|split; [discriminate | discriminate]].
      intros _. split; [reflexivity | split; [reflexivity|]].
      cbn [trace]. rewrite !copy_events_app. cbn. rewrite !app_nil_r. reflexivity. }
  assert (S0 : copy_events (trace (backup_start dumpFile w)) = copy_events (trace w)).
  { unfold backup_start. rewrite trace_touch. cbn [trace]. rewrite copy_events_app. cbn.
    apply app_nil_r. }
  destruct (sqlite3_backup_init (api env) (db_image w (dbPath h))) as [b|] eqn:Hinit.
  2:{ exists (Throw (runtime_error ("sqlite3_backup_init failed: "
                                     ++ errmsg_or env "unknown error"))),
             (backup_start dumpFile w).
      split.
      { unfold backupToFile.
        unfold bind at 1. unfold info at 1, log, modify.
        unfold bind at 1. rewrite Hopen. cbn [negb].
        unfold bind at 1. unfold bind at 1. unfold get.
        unfold emit. cbn [trace fs]. rewrite <- app_assoc. cbn [app].
        fold (backup_start dumpFile w).
        unfold backup_start at 1. rewrite db_image_touch. unfold db_image at 1. cbn [fs].
        fold (db_image w (dbPath h)). rewrite Hinit. reflexivity. }
      assert (T : fs (backup_start dumpFile w) dumpFile = Some (db_image w dumpFile)).
      { unfold backup_start. rewrite fs_touch_self. reflexivity. }
      split; [intros q Hq; unfold backup_start; rewrite fs_touch_other by exact Hq; reflexivity|].
      split.
      { unfold backup_start. rewrite trace_touch. cbn [trace]. rewrite file_events_app.
        reflexivity. }
      split; [discriminate|].
      split; [intros _; rewrite T; discriminate|].
      intros _ _. split; [reflexivity | split; [exact T | exact S0]]. }
  pose proof (backupToFile_unfold env fuel h dumpFile w b Hopen Hinit) as U.
  destruct (backup_loop_fs (api env) dumpFile fuel b (backup_start dumpFile w)) as [G1 G2].
  assert (T : fs (backup_start dumpFile w) dumpFile <> None).
  { unfold backup_start. rewrite fs_touch_self. discriminate. }
  specialize (G2 T).
  assert (O : forall q, q <> dumpFile -> fs (backup_start dumpFile w) q = fs w q).
  { intros q Hq. unfold backup_start. rewrite fs_touch_other by exact Hq. reflexivity. }
  rewrite U in FE |- *.
  destruct (backup_loop (api env) dumpFile fuel b (backup_start dumpFile w)) as [[last|e|] w2];
    cbn [snd] in G1, G2.
  - destruct ((fst last =? SQLITE_DONE) && _); eexists; eexists;
      (split; [reflexivity|]); cbn [emit fs snd] in *;
      (split; [intros q Hq; rewrite G1 by exact Hq; apply O, Hq|]);
      (split; [exact FE|]);
      (split; [discriminate | split; [intros _; exact G2 | discriminate]]).
  - eexists; eexists; (split; [reflexivity|]); cbn [snd] in *;
      (split; [intros q Hq; rewrite G1 by exact Hq; apply O, Hq|]);
      (split; [exact FE|]);
      (split; [discriminate | split; [intros _; exact G2 | discriminate]]).
  - eexists; eexists; (split; [reflexivity|]); cbn [snd] in *;
      (split; [intros q Hq; rewrite G1 by exact Hq; apply O, Hq|]);
      (split; [exact FE|]);
      (split; [discriminate | split; [intros _; exact G2 | discriminate]]).
Qed.

(** * The orchestrator and its uploader *)

Lemma upload_calls_app (s t : list Event) :
  upload_calls (s ++ t) = (upload_calls s ++ upload_calls t)%list.
Proof.
  induction s as [|e s IH]; [reflexivity|].
  destruct e; cbn; rewrite IH; reflexivity.
Qed.

Lemma schedule_upload_calls (t : list Event) : schedule (upload_calls t) = schedule t.
Proof.
  induction t as [|e t IH]; [reflexivity|].
  destruct e; cbn; rewrite ?IH; reflexivity.
Qed.

Lemma upload_calls_obey (P : Handle -> Prop) (t : list Event) :
  Forall (transfers_obey P) t -> Forall (transfers_obey P) (upload_calls t).
Proof.
  induction 1 as [|e t He _ IH]; [constructor|].
  destruct e; cbn; try exact IH; constructor; assumption.
Qed.

Lemma upload_calls_logs (t : list Event) : Forall is_log t -> upload_calls t = [].
Proof.
  induction 1 as [|e t He _ IH]; [reflexivity|].
  destruct e; simpl in *; try contradiction. exact IH.
Qed.

(** The progress function [run] installs never throws. *)
Lemma run_progress_never_aborts env (reports : list XferInfo) :
  aborts (Some (run_progress env)) reports = false.
Proof.
  cbn [aborts]. induction reports as [|x r IH]; [reflexivity|].
  cbn [existsb]. rewrite IH. unfold throws_on, run_progress.
  destruct (0 <? ultotal x); reflexivity.
Qed.

Lemma run_uploader_status env m (k : Z) :
  attempt_status (up env) (run_uploader env m) k = snd (transfer (up env) k).
Proof.
  unfold attempt_status. cbn [progressCb run_uploader].
  rewrite run_progress_never_aborts. reflexivity.
Qed.


Lemma upload_calls_step_events rc : upload_calls (step_events rc) = [].
Proof. unfold step_events. destruct (is_transient rc); reflexivity. Qed.

Lemma backup_loop_upload_calls a dumpFile (fuel : nat) :
  forall b w,
    upload_calls (trace (snd (backup_loop a dumpFile fuel b w))) = upload_calls (trace w).
Proof.
  induction fuel as [|fuel IH]; intros b w; [reflexivity|].
  rewrite backup_loop_turn.
  destruct (keeps_going _).
  - rewrite IH. cbn [trace]. rewrite upload_calls_app, upload_calls_step_events.
    apply app_nil_r.
  - cbn [snd trace]. rewrite upload_calls_app, upload_calls_step_events. apply app_nil_r.
Qed.

(** The stages before the upload make no transfer and no backoff sleep. *)
Lemma backupToFile_upload_calls env fuel h dumpFile w :
  upload_calls (trace (snd (backupToFile env fuel h dumpFile w))) = upload_calls (trace w).
Proof.
  assert (B : upload_calls (trace (backup_start dumpFile w)) = upload_calls (trace w)).
  { unfold backup_start. rewrite trace_touch. cbn [trace].
    rewrite upload_calls_app. apply app_nil_r. }
  destruct (sqlite3_open env dumpFile) eqn:Hopen.
  2:{ unfold backupToFile, bind, info, log, modify, throw, emit. rewrite Hopen.
      cbn [negb snd trace]. rewrite !upload_calls_app. cbn. rewrite !app_nil_r. reflexivity. }
  destruct (sqlite3_backup_init (api env) (db_image w (dbPath h))) as [b|] eqn:Hinit.
  2:{ unfold backupToFile.
      unfold bind at 1. unfold info at 1, log, modify.
      unfold bind at 1. rewrite Hopen. cbn [negb].
      unfold bind at 1. unfold bind at 1. unfold get.
      rewrite db_image_touch. unfold db_image at 1. cbn [emit fs].
      fold (db_image w (dbPath h)). rewrite Hinit. cbn [throw snd].
      rewrite trace_touch. cbn [trace emit]. rewrite !upload_calls_app. cbn.
      rewrite !app_nil_r. reflexivity. }
  rewrite (backupToFile_unfold env fuel h dumpFile w b Hopen Hinit).
  pose proof (backup_loop_upload_calls (api env) dumpFile fuel b (backup_start dumpFile w)) as L.
  destruct (backup_loop (api env) dumpFile fuel b (backup_start dumpFile w)) as [[last|e|] w2];
    cbn [snd] in L |- *; try (rewrite L; exact B).
  destruct ((fst last =? SQLITE_DONE) && _); cbn [snd emit trace].
  - rewrite upload_calls_app, L, B. cbn. apply app_nil_r.
  - rewrite L. exact B.
Qed.

Lemma run_open_upload_calls env m w :
  upload_calls (trace (snd (run_open env m w))) = upload_calls (trace w).
Proof.
  unfold run_open, SqliteHelper_ctor, setLevel, info, error, log, modify, throw, ret, bind.
  destruct (create_directories env "logs"); [reflexivity|].
  destruct (negb (sqlite3_open (sq env) _)); cbn [snd]; rewrite ?trace_touch;
    cbn [emit trace]; rewrite !upload_calls_app; cbn; rewrite ?app_nil_r; reflexivity.
Qed.

Lemma upload_calls_setup (t : list Event) : Forall is_setup t -> upload_calls t = [].
Proof.
  induction 1 as [|e t He _ IH]; [reflexivity|].
  destruct e; cbn in He; try contradiction; exact IH.
Qed.

Lemma run_populate_upload_calls env m db w :
  upload_calls (trace (snd (run_populate env m db w))) = upload_calls (trace w).
Proof.
  destruct (run_populate_shape env m db w) as [r [t [f [E [_ [S _]]]]]].
  rewrite E. cbn [snd trace]. rewrite upload_calls_app, (upload_calls_setup t S).
  apply app_nil_r.
Qed.

Lemma removed_upload_calls env p w :
  upload_calls (trace (removed env p w)) = upload_calls (trace w).
Proof.
  unfold removed. destruct (remove_fails env p); cbn [trace];
    rewrite upload_calls_app; apply app_nil_r.
Qed.

Lemma closed_upload_calls db w : upload_calls (trace (closed db w)) = upload_calls (trace w).
Proof. unfold closed, emit. cbn [trace]. rewrite upload_calls_app. apply app_nil_r. Qed.

Lemma caught_upload_calls e w : upload_calls (trace (caught e w)) = upload_calls (trace w).
Proof. unfold caught, emit. cbn [trace]. rewrite upload_calls_app. apply app_nil_r. Qed.

Lemma snapshot_logged_upload_calls env m w :
  upload_calls (trace (snapshot_logged env m w)) = upload_calls (trace w).
Proof. unfold snapshot_logged, emit. cbn [trace]. rewrite upload_calls_app. apply app_nil_r. Qed.

(** The upload stage of [run]: it comes back, leaves the files alone, makes
    at most [max 1 retries] transfers, each with the manager's settings. *)
Lemma run_upload_summary env m w :
  let p := dumpFile_of env m in
  exists r t,
    run_upload env m p w = (r, mkWorld (trace w ++ t) (fs w))
    /\ r <> Diverge
    /\ Forall (transfers_obey (run_settings env m)) t
    /\ attempts_in (schedule t) <= Z.max 1 (retries m)
    /\ total_sleep (schedule t) <= 32000 * (Z.max 1 (retries m) - 1).
Proof.
  intro p.
  set (u := run_uploader env m).
  set (w0 := mkWorld (trace w ++ run_upload_prelude env m) (fs w)).
  destruct (uploadFile_summary (up env) p (ftpDir m) u w0) as [r [e [t [E [D [A [S _]]]]]]].
  destruct (uploadFile_handles (up env) p (ftpDir m) u w0) as [r' [e' [t' [E' H]]]].
  rewrite E in E'. injection E' as _ _ Et. apply app_inv_head in Et. subst t'.
  cbn [w0 trace fs] in E.
  rewrite (run_upload_unfold env m p w r e t E D).
  eexists. eexists. split; [reflexivity|].
  assert (L : Forall is_log (run_upload_prelude env m)).
  { unfold run_upload_prelude. destruct (negb _); repeat constructor. }
  assert (L2 : Forall is_log
                 ((match r with
                   | Ok _ => [EvLog INFO "Upload finished successfully."]
                   | _ => []
                   end)
                  ++ [EvLog INFO ("FtpUploader destroyed for host: " ++ ftpHost m)])%list).
  { destruct r; repeat constructor. }
  split; [exact D | split; [|split]].
  - apply Forall_app. split; [apply obey_logs, L|].
    apply Forall_app. split; [|apply obey_logs, L2].
    revert H. apply Forall_impl. intros [] Hh; cbn in *; try exact I.
    destruct Hh as [fsize ->]. split; [apply configure_settings|].
    apply (configure_tls_policy u).
  - rewrite schedule_app, (schedule_logs _ L). cbn [app].
    rewrite schedule_app, (schedule_logs _ L2), app_nil_r. cbn [u maxRetries run_uploader] in A. lia.
  - rewrite schedule_app, (schedule_logs _ L). cbn [app].
    rewrite schedule_app, (schedule_logs _ L2), app_nil_r. cbn [u maxRetries run_uploader] in S. lia.
Qed.

(** The transfers and backoff sleeps of a run are those of its upload stage,
    made with the manager's settings. *)
Lemma run_upload_calls env fuel m w :
  exists r w' t,
    run env fuel m w = (r, w')
    /\ upload_calls (trace w') = (upload_calls (trace w) ++ t)%list
    /\ Forall (transfers_obey (run_settings env m)) t
    /\ attempts_in (schedule t) <= Z.max 1 (retries m)
    /\ total_sleep (schedule t) <= 32000 * (Z.max 1 (retries m) - 1).
Proof.
  pose proof (run_cases env fuel m w) as C. cbv zeta in C.
  assert (Q : forall r w',
             run env fuel m w = (r, w') -> upload_calls (trace w') = upload_calls (trace w) ->
             exists r w' t,
               run env fuel m w = (r, w')
               /\ upload_calls (trace w') = (upload_calls (trace w) ++ t)%list
               /\ Forall (transfers_obey (run_settings env m)) t
               /\ attempts_in (schedule t) <= Z.max 1 (retries m)
               /\ total_sleep (schedule t) <= 32000 * (Z.max 1 (retries m) - 1)).
  { intros r w' E U. exists r, w', []. rewrite app_nil_r.
    split; [exact E | split; [exact U | split; [constructor|]]].
    cbn [schedule attempts_in total_sleep]. lia. }
  pose proof (run_open_upload_calls env m w) as U1.
  destruct (run_open env m w) as [[db|e|] w1]; cbn [snd] in U1; [| |contradiction].
  2:{ apply (Q _ _ C). rewrite caught_upload_calls. exact U1. }
  pose proof (run_populate_upload_calls env m db w1) as U2.
  destruct (run_populate env m db w1) as [[[]|e|] w2]; cbn [snd] in U2; [| |contradiction].
  2:{ apply (Q _ _ C). rewrite caught_upload_calls, closed_upload_calls, U2. exact U1. }
  pose proof (backupToFile_upload_calls (sq env) fuel db (dumpFile_of env m) w2) as U3.
  destruct (backupToFile (sq env) fuel db (dumpFile_of env m) w2) as [[[]|e|] w3];
    cbn [snd] in U3.
  2:{ apply (Q _ _ C).
      rewrite caught_upload_calls, closed_upload_calls, removed_upload_calls, U3, U2.
      exact U1. }
  2:{ apply (Q _ _ C). rewrite U3, U2. exact U1. }
  destruct (run_upload_summary env m (snapshot_logged env m w3)) as [r [t [E [D [H [A S]]]]]].
  cbv zeta in E. rewrite E in C.
  assert (U4 : upload_calls (trace w3 ++ [EvLog INFO ("Database binary backup created at: "
                                                      ++ dumpFile_of env m)] ++ t)
               = (upload_calls (trace w) ++ upload_calls t)%list).
  { rewrite upload_calls_app, U3, U2, U1. rewrite upload_calls_app. reflexivity. }
  assert (G : forall r' w',
             run env fuel m w = (r', w') ->
             upload_calls (trace w') = (upload_calls (trace w) ++ upload_calls t)%list ->
             exists r w' t,
               run env fuel m w = (r, w')
               /\ upload_calls (trace w') = (upload_calls (trace w) ++ t)%list
               /\ Forall (transfers_obey (run_settings env m)) t
               /\ attempts_in (schedule t) <= Z.max 1 (retries m)
               /\ total_sleep (schedule t) <= 32000 * (Z.max 1 (retries m) - 1)).
  { intros r' w' E' U'. exists r', w', (upload_calls t).
    split; [exact E' | split; [exact U' | split; [apply upload_calls_obey, H|]]].
    rewrite schedule_upload_calls. split; assumption. }
  unfold snapshot_logged, emit in C. cbn [trace fs] in C.
  destruct r as [[]|e|]; [| |contradiction].
  - apply (G _ _ C). rewrite closed_upload_calls, removed_upload_calls. cbn [trace].
    rewrite <- app_assoc. exact U4.
  - apply (G _ _ C).
    rewrite caught_upload_calls, closed_upload_calls, removed_upload_calls. cbn [trace].
    rewrite <- app_assoc. exact U4.
Qed.

(** X11.  Whatever happens to a run, the only transfers and backoff sleeps it makes
    are those of its upload stage: at most [max 1 retries] transfers, every
    one of them to the URL built from the manager's host, port, directory and
    the dump file's name, with the manager's credentials, timeout and TLS
    flag, verbose, and with progress reporting on; the backoff sleeps add up
    to at most 32 s for each retry. *)
Theorem run_transfers env fuel m w :
  exists r w' t,
    run env fuel m w = (r, w')
    /\ upload_calls (trace w') = (upload_calls (trace w) ++ t)%list
    /\ Forall (transfers_obey (run_settings env m)) t
    /\ attempts_in (schedule t) <= Z.max 1 (retries m)
    /\ total_sleep (schedule t) <= 32000 * (Z.max 1 (retries m) - 1).
Proof. exact (run_upload_calls env fuel m w). Qed.


(** ** The files a run touches *)

Lemma backupToFile_fs_other env fuel h dumpFile w q :
  q <> dumpFile -> fs (snd (backupToFile env fuel h dumpFile w)) q = fs w q.
Proof.
  intro Hq.
  destruct (sqlite3_open env dumpFile) eqn:Hopen.
  2:{ unfold backupToFile, bind, info, log, modify, throw, emit. rewrite Hopen. reflexivity. }
  assert (O : fs (backup_start dumpFile w) q = fs w q).
  { unfold backup_start. rewrite fs_touch_other by exact Hq. reflexivity. }
  destruct (sqlite3_backup_init (api env) (db_image w (dbPath h))) as [b|] eqn:Hinit.
  2:{ unfold backupToFile.
      unfold bind at 1. unfold info at 1, log, modify.
      unfold bind at 1. rewrite Hopen. cbn [negb].
      unfold bind at 1. unfold bind at 1. unfold get.
      rewrite db_image_touch. unfold db_image at 1. cbn [emit fs].
      fold (db_image w (dbPath h)). rewrite Hinit. cbn [throw snd].
      rewrite fs_touch_other by exact Hq. reflexivity. }
  rewrite (backupToFile_unfold env fuel h dumpFile w b Hopen Hinit).
  destruct (backup_loop_fs (api env) dumpFile fuel b (backup_start dumpFile w)) as [G _].
  specialize (G q Hq).
  destruct (backup_loop (api env) dumpFile fuel b (backup_start dumpFile w)) as [[last|e|] w2];
    cbn [snd] in G |- *; try (rewrite G; exact O).
  destruct ((fst last =? SQLITE_DONE) && _); cbn [snd emit fs]; rewrite G; exact O.
Qed.

Lemma run_open_fs env m w :
  let dbFile := sqlitePrefix m ++ "_" ++ db_timestamp (sq env) ++ ".sqlite" in
  (forall q, q <> dbFile -> fs (snd (run_open env m w)) q = fs w q)
  /\ (fs w dbFile <> None -> fs (snd (run_open env m w)) dbFile <> None)
  /\ (forall db, fst (run_open env m w) = Ok db ->
        dbPath db = dbFile /\ fs (snd (run_open env m w)) dbFile <> None).
Proof.
  intro dbFile.
  unfold run_open, SqliteHelper_ctor, setLevel, info, error, log, modify, throw, ret, bind.
  fold dbFile.
  destruct (create_directories env "logs").
  { cbn [fst snd]. split; [reflexivity | split; [exact (fun H => H) | discriminate]]. }
  destruct (negb (sqlite3_open (sq env) dbFile)); cbn [fst snd emit fs].
  { split; [reflexivity | split; [exact (fun H => H) | discriminate]]. }
  set (w0 := emit (EvSqliteOpen dbFile) _).
  assert (T : fs (touch dbFile w0) dbFile <> None).
  { rewrite fs_touch_self. discriminate. }
  split; [|split].
  - intros q Hq. rewrite fs_touch_other by exact Hq. reflexivity.
  - intros _. exact T.
  - intros db E. injection E as <-. split; [reflexivity | exact T].
Qed.

Lemma run_populate_fs env m db w :
  (forall q, q <> dbPath db -> fs (snd (run_populate env m db w)) q = fs w q)
  /\ (fs w (dbPath db) <> None -> fs (snd (run_populate env m db w)) (dbPath db) <> None).
Proof.
  destruct (run_populate_shape env m db w) as [r [t [f [E [_ [_ [F1 F2]]]]]]].
  rewrite E. cbn [snd fs]. split; assumption.
Qed.

Lemma disk_kept_refl p dbFile w w' : fs w' = fs w -> disk_kept p dbFile w w'.
Proof. intro E. unfold disk_kept. rewrite E. split; [reflexivity | exact (fun _ H => H)]. Qed.

Lemma disk_kept_trans p dbFile w1 w2 w3 :
  disk_kept p dbFile w1 w2 -> disk_kept p dbFile w2 w3 -> disk_kept p dbFile w1 w3.
Proof.
  intros [A1 B1] [A2 B2]. split.
  - intros q H1 H2. rewrite A2, A1 by assumption. reflexivity.
  - intros Hp H. apply B2, B1; assumption.
Qed.

Lemma removed_disk_kept env p dbFile w : disk_kept p dbFile w (removed env p w).
Proof.
  unfold removed. destruct (remove_fails env p); [apply disk_kept_refl; reflexivity|].
  split; cbn [fs].
  - intros q Hq _. destruct (String.eqb_spec q p); [contradiction | reflexivity].
  - intros Hp H. destruct (String.eqb_spec dbFile p); [congruence | exact H].
Qed.

Lemma backupToFile_disk_kept env fuel h p dbFile w :
  disk_kept p dbFile w (snd (backupToFile env fuel h p w)).
Proof.
  split.
  - intros q Hq _. apply backupToFile_fs_other, Hq.
  - intros Hp H. rewrite backupToFile_fs_other by congruence. exact H.
Qed.

(** X12.  [run] touches two files and no other: its database and the dump.  The
    dump is removed at the end; the database file is not: whether
    the run succeeds or fails, the database it opened is still on disk when
    [run] returns. *)
Theorem run_leaves_database env fuel m w :
  let p := dumpFile_of env m in
  let dbFile := sqlitePrefix m ++ "_" ++ db_timestamp (sq env) ++ ".sqlite" in
  let w' := snd (run env fuel m w) in
  (forall q, q <> p -> q <> dbFile -> fs w' q = fs w q)
  /\ (p <> dbFile -> fs w dbFile <> None -> fs w' dbFile <> None)
  /\ (p <> dbFile -> create_directories env "logs" = None ->
      sqlite3_open (sq env) dbFile = true -> fs w' dbFile <> None).
Proof.
  intros p dbFile w'.
  pose proof (run_cases env fuel m w) as C. cbv zeta in C. fold p in C.
  destruct (run_open_fs env m w) as [O1 [O2 O3]]. cbv zeta in O1, O2, O3. fold dbFile in O1, O2, O3.
  assert (K1 : disk_kept p dbFile w (snd (run_open env m w))).
  { split; [intros q _ Hq; apply O1, Hq | intros _; exact O2]. }
  assert (Created : create_directories env "logs" = None ->
                    sqlite3_open (sq env) dbFile = true ->
                    exists db, fst (run_open env m w) = Ok db).
  { intros Hc Ho.
    unfold run_open, SqliteHelper_ctor, setLevel, info, error, log, modify, throw, ret, bind.
    fold dbFile. rewrite Hc, Ho. eexists. reflexivity. }
  assert (Fin : forall w2,
             disk_kept p dbFile (snd (run_open env m w)) w2 ->
             (forall q, q <> p -> q <> dbFile -> fs w2 q = fs w q)
             /\ (p <> dbFile -> fs w dbFile <> None -> fs w2 dbFile <> None)
             /\ (p <> dbFile -> create_directories env "logs" = None ->
                 sqlite3_open (sq env) dbFile = true -> fs w2 dbFile <> None)).
  { intros w2 K2. destruct (disk_kept_trans _ _ _ _ _ K1 K2) as [A B].
    split; [exact A | split; [exact B|]].
    intros Hp Hc Ho. destruct (Created Hc Ho) as [db E].
    destruct K2 as [_ B2]. apply (B2 Hp). apply (O3 db E). }
  clear O1 O2 Created K1.
  destruct (run_open env m w) as [[db|e|] w1]; cbn [fst snd] in *; [| |contradiction].
  2:{ subst w'. rewrite C. cbn [snd]. apply Fin, disk_kept_refl. reflexivity. }
  destruct (O3 db eq_refl) as [Hdb _]. clear O3.
  destruct (run_populate_fs env m db w1) as [P1 P2]. rewrite Hdb in P1, P2.
  assert (K2 : disk_kept p dbFile w1 (snd (run_populate env m db w1))).
  { split; [intros q _ Hq; apply P1, Hq | intros _; exact P2]. }
  clear P1 P2.
  destruct (run_populate env m db w1) as [[[]|e|] w2]; cbn [snd] in K2; [| |contradiction].
  2:{ subst w'. rewrite C. cbn [snd]. apply Fin.
      apply (disk_kept_trans _ _ _ _ _ K2), disk_kept_refl. reflexivity. }
  pose proof (backupToFile_disk_kept (sq env) fuel db p dbFile w2) as K3.
  destruct (backupToFile (sq env) fuel db p w2) as [[[]|e|] w3]; cbn [snd] in K3.
  2:{ subst w'. rewrite C. cbn [snd]. apply Fin.
      apply (disk_kept_trans _ _ _ _ _ K2), (disk_kept_trans _ _ _ _ _ K3).
      apply (disk_kept_trans _ _ _ _ _ (removed_disk_kept env p dbFile w3)).
      apply disk_kept_refl. reflexivity. }
  2:{ subst w'. rewrite C. cbn [snd]. apply Fin.
      apply (disk_kept_trans _ _ _ _ _ K2), K3. }
  destruct (run_upload_spec env m p (snapshot_logged env m w3)) as [r [w4 [E [D [_ F]]]]].
  rewrite E in C.
  assert (K4 : disk_kept p dbFile w3 w4) by (apply disk_kept_refl; exact F).
  destruct r as [[]|e|]; [| |contradiction]; subst w'; rewrite C; cbn [snd]; apply Fin;
    apply (disk_kept_trans _ _ _ _ _ K2), (disk_kept_trans _ _ _ _ _ K3),
      (disk_kept_trans _ _ _ _ _ K4),
      (disk_kept_trans _ _ _ _ _ (removed_disk_kept env p dbFile w4)), disk_kept_refl;
    reflexivity.
Qed.

(** X13.  [run] answers true only when every stage went through: the directory and
    the database could be set up, the snapshot was taken, and the server
    accepted one of the [max 1 retries] transfers -- the progress reports
    cannot spoil a transfer, since the function [run] installs never throws --
    while the transfers before it failed. *)
Theorem run_true_means_uploaded env fuel m w w' :
  run env fuel m w = (Ok true, w') ->
  create_directories env "logs" = None
  /\ sqlite3_open (sq env) (sqlitePrefix m ++ "_" ++ db_timestamp (sq env) ++ ".sqlite") = true
  /\ sqlite3_open (sq env) (dumpFile_of env m) = true
  /\ exists k,
       1 <= k <= Z.max 1 (retries m)
       /\ snd (transfer (up env) k) = CURLE_OK
       /\ (forall j, 1 <= j < k -> snd (transfer (up env) j) <> CURLE_OK)
       /\ attempts_in (schedule (trace w')) = attempts_in (schedule (trace w)) + k.
Proof.
  intro E.
  pose proof (run_cases env fuel m w) as C. cbv zeta in C.
  pose proof (run_open_upload_calls env m w) as U1.
  assert (O : forall db w1, run_open env m w = (Ok db, w1) ->
                create_directories env "logs" = None
                /\ sqlite3_open (sq env)
                     (sqlitePrefix m ++ "_" ++ db_timestamp (sq env) ++ ".sqlite") = true).
  { intros db w1.
    unfold run_open, SqliteHelper_ctor, setLevel, info, error, log, modify, throw, ret, bind.
    destruct (create_directories env "logs"); [discriminate|].
    destruct (sqlite3_open (sq env) _); [split; reflexivity | discriminate]. }
  destruct (run_open env m w) as [[db|e|] w1]; cbn [snd] in U1; [| |contradiction].
  2:{ rewrite C in E. discriminate. }
  destruct (O db w1 eq_refl) as [Hc Ho]. clear O.
  pose proof (run_populate_upload_calls env m db w1) as U2.
  destruct (run_populate env m db w1) as [[[]|e|] w2]; cbn [snd] in U2; [| |contradiction].
  2:{ rewrite C in E. discriminate. }
  pose proof (backupToFile_upload_calls (sq env) fuel db (dumpFile_of env m) w2) as U3.
  assert (B : fst (backupToFile (sq env) fuel db (dumpFile_of env m) w2) = Ok tt ->
              sqlite3_open (sq env) (dumpFile_of env m) = true).
  { unfold backupToFile, bind, info, log, modify, throw.
    destruct (sqlite3_open (sq env) (dumpFile_of env m)); [reflexivity | discriminate]. }
  destruct (backupToFile (sq env) fuel db (dumpFile_of env m) w2) as [[[]|e|] w3];
    cbn [fst snd] in U3, B; try (rewrite C in E; discriminate).
  specialize (B eq_refl).
  set (ws := snapshot_logged env m w3) in *.
  set (u := run_uploader env m).
  set (w0 := mkWorld (trace ws ++ run_upload_prelude env m) (fs ws)).
  destruct (uploadFile_summary (up env) (dumpFile_of env m) (ftpDir m) u w0)
    as [r [e [t [Eu [D _]]]]].
  cbn [w0 trace fs] in Eu.
  pose proof (run_upload_unfold env m (dumpFile_of env m) ws r e t Eu D) as R.
  rewrite R in C.
  destruct r as [[]|ex|]; [| |contradiction]; rewrite C in E; [|discriminate].
  injection E as <-.
  destruct (uploadFile_returned _ _ _ _ _ _ Eu) as [Hfs [k [Hk [Ok_ [Res Fail]]]]].
  destruct (uploadFile_first_success (up env) (dumpFile_of env m) (ftpDir m) u w0 k
              Hk Hfs Res Fail Ok_) as [t' [Eu' [S _]]].
  cbn [w0 trace fs] in Eu'. rewrite Eu in Eu'. injection Eu' as _ Et.
  apply app_inv_head in Et. subst t'.
  split; [exact Hc | split; [exact Ho | split; [exact B|]]].
  exists k. cbn [u maxRetries run_uploader] in Hk.
  split; [exact Hk|]. rewrite <- (run_uploader_status env m k). split; [exact Ok_|].
  split.
  { intros j Hj. rewrite <- (run_uploader_status env m j). apply Fail, Hj. }
  rewrite <- (schedule_upload_calls (trace (closed _ _))), <- (schedule_upload_calls (trace w)).
  rewrite closed_upload_calls, removed_upload_calls. cbn [trace].
  rewrite !schedule_upload_calls.
  assert (L : Forall is_log (run_upload_prelude env m)).
  { unfold run_upload_prelude. destruct (negb _); repeat constructor. }
  rewrite schedule_app. unfold ws, snapshot_logged, emit. cbn [trace].
  rewrite schedule_app. cbn [schedule app]. rewrite app_nil_r.
  rewrite schedule_app, (schedule_logs _ L). cbn [app].
  rewrite schedule_app, S. cbn [schedule app]. rewrite app_nil_r.
  rewrite attempts_in_app.
  rewrite <- (schedule_upload_calls (trace w3)), U3, U2, U1, schedule_upload_calls.
  f_equal.
  assert (AM : forall n a, attempts_in (retries_after n a) = Z.of_nat n).
  { induction n as [|n IHn]; intro a; [reflexivity|].
    cbn [retries_after attempts_in]. rewrite IHn. lia. }
  unfold attempts_made. cbn [attempts_in]. rewrite AM. lia.
Qed.

Lemma run_true_means_uploaded_witness :
  exists w',
    run Scenario.healthy 10 Scenario.manager Scenario.empty_disk = (Ok true, w')
    /\ exists k, 1 <= k <= 3 /\ snd (transfer (up Scenario.healthy) k) = CURLE_OK.
Proof.
  exists (snd (run Scenario.healthy 10 Scenario.manager Scenario.empty_disk)).
  assert (E : run Scenario.healthy 10 Scenario.manager Scenario.empty_disk
              = (Ok true, snd (run Scenario.healthy 10 Scenario.manager Scenario.empty_disk))).
  { apply res_pair_state. vm_compute. reflexivity. }
  split; [exact E|].
  destruct (run_true_means_uploaded _ _ _ _ _ E) as [_ [_ [_ [k [Hk [Ok_ _]]]]]].
  exists k. split; [exact Hk | exact Ok_].
Defined.

(** * The command line *)

Section CommandLine.
Import Cli.

Lemma sto_cases {S} h name lo hi s (st : S) :
  (exists n, strto lo hi s = Converted n /\ lo <= n <= hi /\ sto h name lo hi s st = (Ok n, st))
  \/ (exists what, sto h name lo hi s st = (Throw (StdException what), st)).
Proof.
  unfold sto. destruct (strto lo hi s) as [| |n] eqn:E.
  - right. eexists. reflexivity.
  - right. eexists. reflexivity.
  - left. exists n. split; [reflexivity | split; [|reflexivity]].
    unfold strto in E.
    destruct (match skip_spaces s with
              | String "-" r => (true, r)
              | String "+" r => (false, r)
              | _ => (false, skip_spaces s)
              end) as [negative s'].
    destruct (read_digits 0 false s') as [v any].
    destruct (negb any); [discriminate|].
    destruct ((_ <? lo) || (hi <? _)) eqn:R; [discriminate|].
    injection E as <-. apply orb_false_iff in R. destruct R as [R1 R2].
    apply Z.ltb_ge in R1, R2. lia.
Qed.

(** One option: either the variables are updated, nothing being printed, or
    [main] returns 1 after a diagnostic.  Nothing reaches the world. *)
Lemma option_step_cases h exe flag value o c w :
  valid_options o ->
  (exists o', option_step h exe flag value o (c, w) = (Ok (Next o'), (c, w))
              /\ valid_options o')
  \/ (exists l, option_step h exe flag value o (c, w)
                = (Ok (Return EXIT_INVALID_ARGS), ((c ++ l)%list, w))
                /\ diagnostics l).
Proof.
  intros [V1 [V2 [V3 V4]]].
  assert (D : forall l : Console, l <> [] -> Forall (fun p => fst p = Cerr) l -> diagnostics l).
  { intros l H1 H2. split; assumption. }
  unfold option_step, try_catch.
  destruct (String.eqb flag "--no-ssl-verify").
  { left. eexists. split; [reflexivity|]. unfold valid_options; cbn [o_sslVerify o_rows o_retries o_timeout]; repeat split; first [assumption | lia]. }
  destruct (String.eqb flag "--rows").
  { unfold bind, stoi.
    destruct (sto_cases (S := Console * World) h "stoi" INT_MIN INT_MAX value (c, w))
      as [[n [_ [R E]]] | [what E]]; rewrite E.
    - destruct (Z.leb_spec n 0).
      + right. eexists. split; [reflexivity|]. apply D; [discriminate | repeat constructor].
      + left. eexists. split; [reflexivity|]. unfold valid_options. cbn [o_sslVerify o_rows o_retries o_timeout]. repeat split; first [assumption | lia].
    - right. eexists. split; [reflexivity|]. apply D; [discriminate | repeat constructor]. }
  destruct (String.eqb flag "--retries").
  { unfold bind, stoi.
    destruct (sto_cases (S := Console * World) h "stoi" INT_MIN INT_MAX value (c, w))
      as [[n [_ [R E]]] | [what E]]; rewrite E.
    - destruct (Z.ltb_spec n 0).
      + right. eexists. split; [reflexivity|]. apply D; [discriminate | repeat constructor].
      + left. eexists. split; [reflexivity|]. unfold valid_options. cbn [o_sslVerify o_rows o_retries o_timeout]. repeat split; first [assumption | lia].
    - right. eexists. split; [reflexivity|]. apply D; [discriminate | repeat constructor]. }
  destruct (String.eqb flag "--timeout").
  { unfold bind, stol.
    destruct (sto_cases (S := Console * World) h "stol" LONG_MIN LONG_MAX value (c, w))
      as [[n [_ [R E]]] | [what E]]; rewrite E.
    - destruct (Z.leb_spec n 0).
      + right. eexists. split; [reflexivity|]. apply D; [discriminate | repeat constructor].
      + left. eexists. split; [reflexivity|]. unfold valid_options. cbn [o_sslVerify o_rows o_retries o_timeout]. repeat split; first [assumption | lia].
    - right. eexists. split; [reflexivity|]. apply D; [discriminate | repeat constructor]. }
  destruct (String.eqb flag "--log-level").
  { destruct (String.eqb value "debug");
      [left; eexists; split; [reflexivity|]; unfold valid_options; cbn [o_sslVerify o_rows o_retries o_timeout]; repeat split; first [assumption | lia]|].
    destruct (String.eqb value "info");
      [left; eexists; split; [reflexivity|]; unfold valid_options; cbn [o_sslVerify o_rows o_retries o_timeout]; repeat split; first [assumption | lia]|].
    destruct (String.eqb value "warn");
      [left; eexists; split; [reflexivity|]; unfold valid_options; cbn [o_sslVerify o_rows o_retries o_timeout]; repeat split; first [assumption | lia]|].
    destruct (String.eqb value "error");
      [left; eexists; split; [reflexivity|]; unfold valid_options; cbn [o_sslVerify o_rows o_retries o_timeout]; repeat split; first [assumption | lia]|].
    right. eexists. split; [reflexivity|]. apply D; [discriminate | repeat constructor]. }
  right. eexists. split.
  - unfold bind, print, printUsage, print, update, ret. cbn [fst snd].
    rewrite <- app_assoc. reflexivity.
  - apply D; [discriminate | repeat constructor].
Qed.

(** One turn of the option loop. *)
Lemma options_loop_cons h exe arg rest1 o st :
  options_loop h exe (arg :: rest1) o st
  = let p := parseOptionalFlag arg (hd_error rest1) in
    if negb (parsed p) then
      (Ok (Return EXIT_INVALID_ARGS),
       ((fst st ++ [(Cerr, ("Invalid option format: " ++ arg ++ nl)%string)])%list, snd st))
    else
      match option_step h exe (flagOut p) (valueOut p) o st with
      | (Ok (Next o'), st') =>
          options_loop h exe (if advanced p then tl rest1 else rest1) o' st'
      | (Ok (Return code), st') => (Ok (Return code), st')
      | (Throw e, st') => (Throw e, st')
      | (Diverge, st') => (Diverge, st')
      end.
Proof.
  cbn [options_loop]. cbv zeta.
  unfold parseOptionalFlag.
  destruct (find "=" arg) as [eqPos|]; cbn [parsed negb flagOut valueOut advanced].
  - unfold bind.
    destruct (option_step h exe _ _ o st) as [[[o'|code]|e|] st']; reflexivity.
  - destruct rest1 as [|v rest2]; cbn [hd_error parsed negb flagOut valueOut advanced tl].
    + destruct st. reflexivity.
    + unfold bind.
      destruct (option_step h exe _ _ o st) as [[[o'|code]|e|] st']; reflexivity.
Qed.

(** The option loop: either it ends with valid option variables, nothing
    being printed, or [main] returns 1 after a diagnostic. *)
Lemma options_loop_cases h exe (n : nat) :
  forall rest o c w,
    (List.length rest <= n)%nat ->
    valid_options o ->
    (exists o', options_loop h exe rest o (c, w) = (Ok (Next o'), (c, w))
                /\ valid_options o')
    \/ (exists l, options_loop h exe rest o (c, w)
                  = (Ok (Return EXIT_INVALID_ARGS), ((c ++ l)%list, w))
                  /\ diagnostics l).
Proof.
  induction n as [|n IH]; intros rest o c w Hlen V.
  - destruct rest; [|cbn in Hlen; lia]. left. exists o. split; [reflexivity | exact V].
  - destruct rest as [|arg rest1].
    { left. exists o. split; [reflexivity | exact V]. }
    rewrite options_loop_cons. cbv zeta.
    destruct (negb (parsed _)).
    { right. eexists. split; [reflexivity|]. split; [discriminate | repeat constructor]. }
    destruct (option_step_cases h exe (flagOut (parseOptionalFlag arg (hd_error rest1)))
                (valueOut (parseOptionalFlag arg (hd_error rest1))) o c w V)
      as [[o' [E V']] | [l [E Dg]]]; rewrite E.
    + apply IH; [|exact V']. cbn [List.length] in Hlen.
      destruct (advanced _); [|lia]. destruct rest1; cbn [tl List.length] in *; lia.
    + right. exists l. split; [reflexivity | exact Dg].
Qed.

(** Every path through [main]: it returns 1 or 3 after a diagnostic, having
    logged nothing and touched no file; or it logs its opening line and hands
    an accepted configuration to [run], whose answer decides between 0 and
    2. *)
Lemma main_cases h env fuel exe args c w :
  (exists code l,
     main h env fuel exe args (c, w) = (Ok code, ((c ++ l)%list, w))
     /\ (code = EXIT_INVALID_ARGS
         \/ (code = EXIT_CONFIG_ERROR /\ (6 <= List.length args)%nat
             /\ nth 4 args "" = "-" /\ getenv_FTP_PASS h = None))
     /\ diagnostics l)
  \/ (exists m,
        accepted h args m
        /\ (6 <= List.length args)%nat
        /\ main h env fuel exe args (c, w)
           = (exit_of (fst (run env fuel m (emit (EvLog INFO (start_line m)) w))),
              ((c ++ closing (fst (run env fuel m (emit (EvLog INFO (start_line m)) w))))%list,
               snd (run env fuel m (emit (EvLog INFO (start_line m)) w))))).
Proof.
  remember (main h env fuel exe args (c, w)) as X eqn:EX.
  unfold main in EX. cbv zeta in EX.
  destruct (Z.ltb_spec (Z.of_nat (List.length (exe :: args))) 7) as [Hlt|Hge].
  { left. eexists. eexists. split.
    - unfold bind, print, printUsage, print, update, ret in EX. cbn [fst snd] in EX.
      rewrite <- app_assoc in EX. exact EX.
    - split; [left; reflexivity | split; [discriminate | repeat constructor]]. }
  assert (Hlen : (6 <= List.length args)%nat) by (cbn [List.length] in Hge; lia).
  cbn [nth] in EX.
  unfold bind at 1 in EX. unfold try_catch at 1 in EX. unfold bind at 1 in EX.
  unfold stoi in EX.
  destruct (sto_cases (S := Console * World) h "stoi" INT_MIN INT_MAX (nth 2 args "") (c, w))
    as [[port [Hport [_ E]]] | [what E]]; rewrite E in EX.
  2:{ left. eexists. eexists. split.
      - unfold bind, print, printUsage, print, update, ret in EX. cbn [fst snd] in EX.
        rewrite <- app_assoc in EX. exact EX.
      - split; [left; reflexivity | split; [discriminate | repeat constructor]]. }
  destruct ((port <=? 0) || (65535 <? port)) eqn:Hrange.
  { left. eexists. eexists. split.
    - unfold throw, out_of_range, bind, print, printUsage, print, update, ret in EX.
      cbn [fst snd] in EX. rewrite <- app_assoc in EX. exact EX.
    - split; [left; reflexivity | split; [discriminate | repeat constructor]]. }
  apply orb_false_iff in Hrange. destruct Hrange as [R1 R2].
  apply Z.leb_gt in R1. apply Z.ltb_ge in R2.
  unfold ret at 1 in EX. cbv beta iota in EX.
  unfold bind at 1 in EX.
  assert (V0 : valid_options defaults).
  { unfold valid_options, defaults, INT_MAX, LONG_MAX. cbn. repeat split; lia. }
  destruct (options_loop_cases h exe (List.length (skipn 7 (exe :: args)))
              (skipn 7 (exe :: args)) defaults c w (le_n _) V0)
    as [[o [Eo [V1 [V2 [V3 V4]]]]] | [l [Eo Dg]]]; rewrite Eo in EX.
  2:{ left. exists EXIT_INVALID_ARGS, l.
      split; [exact EX | split; [left; reflexivity | exact Dg]]. }
  unfold bind at 1 in EX.
  assert (Fin : forall pass,
             X = (let (r, s') :=
                    liftW (info ("Starting backup. FTP host: " ++ nth 1 args "" ++ ":"
                                 ++ Str.to_string port ++ ", user: " ++ nth 3 args ""
                                 ++ ", pass: " ++ maskedPass pass)) (c, w) in
                  match r with
                  | Ok _ =>
                      (success <- liftW
                                    (run env fuel
                                       (setLogLevel (o_logLevel o)
                                          (BackupManager_ctor (nth 0 args "") (nth 1 args "")
                                             port (nth 3 args "") pass (nth 5 args "")
                                             (o_sslVerify o) (o_rows o) (o_retries o)
                                             (o_timeout o)))) ;;
                       if negb success then
                         print Cerr ("Backup and upload failed. See logs for details." ++ nl) ;;
                         ret EXIT_UPLOAD_FAILED
                       else
                         print Cout ("Backup and upload completed successfully." ++ nl) ;;
                         ret 0) s'
                  | Throw e => (Throw e, s')
                  | Diverge => (Diverge, s')
                  end) ->
             (if String.eqb (nth 4 args "") "-" then getenv_FTP_PASS h = Some pass
              else pass = nth 4 args "") ->
             exists m,
               accepted h args m
               /\ (6 <= List.length args)%nat
               /\ X = (exit_of (fst (run env fuel m (emit (EvLog INFO (start_line m)) w))),
                       ((c ++ closing (fst (run env fuel m
                                                (emit (EvLog INFO (start_line m)) w))))%list,
                        snd (run env fuel m (emit (EvLog INFO (start_line m)) w))))).
  { intros pass EP HP.
    set (m := setLogLevel (o_logLevel o)
                (BackupManager_ctor (nth 0 args "") (nth 1 args "") port (nth 3 args "") pass
                   (nth 5 args "") (o_sslVerify o) (o_rows o) (o_retries o) (o_timeout o)))
      in *.
    exists m.
    split; [|split; [exact Hlen|]].
    - unfold accepted, m, setLogLevel, BackupManager_ctor.
      cbn [ftpHost ftpPort ftpUser ftpPass sqlitePrefix ftpDir bm_sslVerify rows retries
           timeout logLevel].
      repeat (split; [first [reflexivity | assumption | lia]|]). lia.
    - assert (SL : start_line m
                   = "Starting backup. FTP host: " ++ nth 1 args "" ++ ":"
                     ++ Str.to_string port ++ ", user: " ++ nth 3 args ""
                     ++ ", pass: " ++ maskedPass pass) by reflexivity.
      rewrite EP, <- SL. clear EP EX.
      unfold liftW at 1, info at 1, log, modify. cbn [fst snd].
      unfold bind at 1. unfold liftW at 1. cbn [fst snd].
      destruct (run env fuel m (emit (EvLog INFO (start_line m)) w)) as [[[]|e|] w'];
        cbn [fst snd negb exit_of closing];
        unfold bind, print, update, ret; cbn [fst snd]; rewrite ?app_nil_r; reflexivity. }
  destruct (String.eqb (nth 4 args "") "-") eqn:Hdash.
  - destruct (getenv_FTP_PASS h) as [envPass|] eqn:Henv.
    + right. apply (Fin envPass); [exact EX | reflexivity].
    + left. exists EXIT_CONFIG_ERROR. eexists. split.
      * unfold bind, print, update, ret in EX. cbn [fst snd] in EX. exact EX.
      * split; [right; split; [reflexivity | split; [exact Hlen | split; [|reflexivity]]]
               | split; [discriminate | repeat constructor]].
        apply String.eqb_eq, Hdash.
  - right. apply (Fin (nth 4 args "")); [exact EX | reflexivity].
Qed.

Lemma run_result env fuel m w :
  fst (run env fuel m w) = Ok true \/ fst (run env fuel m w) = Ok false
  \/ fst (run env fuel m w) = Diverge.
Proof.
  pose proof (run_cases env fuel m w) as C. cbv zeta in C.
  destruct (run_open env m w) as [[db|e|] w1]; [| |contradiction].
  2:{ rewrite C. right. left. reflexivity. }
  destruct (run_populate env m db w1) as [[[]|e|] w2]; [| |contradiction].
  2:{ rewrite C. right. left. reflexivity. }
  destruct (backupToFile (sq env) fuel db (dumpFile_of env m) w2) as [[[]|e|] w3].
  - destruct (run_upload env m (dumpFile_of env m) (snapshot_logged env m w3))
      as [[[]|e|] w4]; [| |contradiction]; rewrite C.
    + left. reflexivity.
    + right. left. reflexivity.
  - rewrite C. right. left. reflexivity.
  - rewrite C. right. right. reflexivity.
Qed.

(** X14.  The exit status of [main] is 0, 1, 2 or 3 (unless the snapshot never
    ends).  With fewer than six arguments it is 1.  Status 1 and 3 come with
    a diagnostic on the error stream and before anything is logged or any
    file is touched; 3 means that the password was to come from [FTP_PASS]
    and the variable is not set.  Status 0 is returned, with the success
    message on the output stream, only after [run] has answered true on an
    accepted configuration, and 2, with the failure message on the error
    stream, only after it has answered false. *)
Theorem main_exit_status h env fuel exe args c w :
  exists r l w',
    main h env fuel exe args (c, w) = (r, ((c ++ l)%list, w'))
    /\ (r = Ok 0 \/ r = Ok EXIT_INVALID_ARGS \/ r = Ok EXIT_UPLOAD_FAILED
        \/ r = Ok EXIT_CONFIG_ERROR \/ r = Diverge)
    /\ ((List.length args < 6)%nat -> r = Ok EXIT_INVALID_ARGS)
    /\ (r = Ok EXIT_INVALID_ARGS \/ r = Ok EXIT_CONFIG_ERROR -> w' = w /\ diagnostics l)
    /\ (r = Ok EXIT_CONFIG_ERROR -> nth 4 args "" = "-" /\ getenv_FTP_PASS h = None)
    /\ (r = Ok 0 ->
        l = [(Cout, "Backup and upload completed successfully." ++ nl)]
        /\ exists m, accepted h args m
                     /\ run env fuel m (emit (EvLog INFO (start_line m)) w) = (Ok true, w'))
    /\ (r = Ok EXIT_UPLOAD_FAILED ->
        l = [(Cerr, "Backup and upload failed. See logs for details." ++ nl)]
        /\ exists m, accepted h args m
                     /\ run env fuel m (emit (EvLog INFO (start_line m)) w) = (Ok false, w'))
    /\ (r = Diverge -> l = []).
Proof.
  destruct (main_cases h env fuel exe args c w)
    as [[code [l [E [[->|[-> [Hlen [Hdash Henv]]]] Dg]]]] | [m [A [Hlen E]]]].
  - exists (Ok EXIT_INVALID_ARGS), l, w.
    split; [exact E | split; [right; left; reflexivity|]].
    split; [reflexivity | split; [intros _; split; [reflexivity | exact Dg]|]].
    split; [discriminate | split; [discriminate | split; discriminate]].
  - exists (Ok EXIT_CONFIG_ERROR), l, w.
    split; [exact E | split; [right; right; right; left; reflexivity|]].
    split; [intro; lia | split; [intros _; split; [reflexivity | exact Dg]|]].
    split; [intros _; split; assumption|].
    split; [discriminate | split; discriminate].
  - destruct (run_result env fuel m (emit (EvLog INFO (start_line m)) w)) as [R|[R|R]];
      rewrite R in E; cbn [exit_of closing] in E;
      eexists; eexists; eexists; (split; [exact E|]).
    + split; [left; reflexivity | split; [intro; lia|]].
      split; [intros [H|H]; discriminate | split; [discriminate|]].
      split; [|split; discriminate].
      intros _. split; [reflexivity|]. exists m. split; [exact A|].
      apply res_pair_state, R.
    + split; [right; right; left; reflexivity | split; [intro; lia|]].
      split; [intros [H|H]; discriminate | split; [discriminate|]].
      split; [discriminate | split; [|discriminate]].
      intros _. split; [reflexivity|]. exists m. split; [exact A|].
      apply res_pair_state, R.
    + split; [right; right; right; right; reflexivity | split; [intro; lia|]].
      split; [intros [H|H]; discriminate | split; [discriminate|]].
      split; [discriminate | split; [discriminate | reflexivity]].
Qed.

(** X15.  No command line makes the program authenticate the server: whatever the
    arguments, every transfer [main] gets made runs with peer and host
    verification switched off (and with encryption required).  The variable
    behind [--no-ssl-verify] starts out false and nothing sets it to true. *)
Theorem main_never_verifies h env fuel exe args c w :
  exists r c' w' t,
    main h env fuel exe args (c, w) = (r, (c', w'))
    /\ upload_calls (trace w') = (upload_calls (trace w) ++ t)%list
    /\ Forall (transfers_obey
                 (fun hd => getopt CURLOPT_SSL_VERIFYPEER hd = Some (VLong 0)
                            /\ getopt CURLOPT_SSL_VERIFYHOST hd = Some (VLong 0)
                            /\ getopt CURLOPT_USE_SSL hd = Some (VLong CURLUSESSL_ALL))) t.
Proof.
  destruct (main_cases h env fuel exe args c w)
    as [[code [l [E _]]] | [m [A [Hlen E]]]].
  - exists (Ok code), (c ++ l)%list, w, []. rewrite app_nil_r.
    split; [exact E | split; [reflexivity | constructor]].
  - destruct (run_upload_calls env fuel m (emit (EvLog INFO (start_line m)) w))
      as [r [w' [t [R [U [S _]]]]]].
    rewrite R in E. cbn [fst snd] in E.
    eexists; eexists; exists w', t. split; [exact E | split].
    + rewrite U. unfold emit. cbn [trace]. rewrite upload_calls_app. cbn [upload_calls].
      rewrite app_nil_r. reflexivity.
    + destruct A as [_ [_ [_ [_ [_ [_ [_ [V _]]]]]]]].
      revert S. apply Forall_impl. intros [] Hs; cbn in *; try exact I.
      destruct Hs as [_ [T1 [T2 T3]]]. rewrite V in T2, T3.
      split; [exact T2 | split; [exact T3 | exact T1]].
Qed.

(** X16.  [main] starts a run only on a configuration that went through its
    checks: the positional arguments as given, a port between 1 and 65535, at
    least one row, no negative retry count, a timeout of at least one second,
    the password from [FTP_PASS] exactly when the argument is [-]; and the
    first thing logged is the opening line, in which the password is masked.
    Every other command line is turned away with the world as it was. *)
Theorem main_checks_configuration h env fuel exe args c w :
  (snd (snd (main h env fuel exe args (c, w))) = w
   /\ (fst (main h env fuel exe args (c, w)) = Ok EXIT_INVALID_ARGS
       \/ fst (main h env fuel exe args (c, w)) = Ok EXIT_CONFIG_ERROR))
  \/ (exists m,
        accepted h args m
        /\ snd (snd (main h env fuel exe args (c, w)))
           = snd (run env fuel m (emit (EvLog INFO (start_line m)) w))
        /\ fst (main h env fuel exe args (c, w))
           = exit_of (fst (run env fuel m (emit (EvLog INFO (start_line m)) w)))).
Proof.
  destruct (main_cases h env fuel exe args c w)
    as [[code [l [E [Hc _]]]] | [m [A [Hlen E]]]]; rewrite E; cbn [fst snd].
  - left. split; [reflexivity|]. destruct Hc as [->|[-> _]]; [left | right]; reflexivity.
  - right. exists m. split; [exact A | split; reflexivity].
Qed.

(** ** The two forms of an option *)

Lemma find_first_equals f v :
  find "=" f = None ->
  find "=" (f ++ String "=" v) = Some (String.length f)
  /\ substr_to (String.length f) (f ++ String "=" v) = f
  /\ substr_from (S (String.length f)) (f ++ String "=" v) = v.
Proof.
  induction f as [|ch f IH]; intro H.
  - cbn. split; [reflexivity | split; reflexivity].
  - cbn [find] in H. destruct (Ascii.eqb ch "=") eqn:Ec; [discriminate|].
    destruct (find "=" f) eqn:Ef; [discriminate|].
    destruct (IH eq_refl) as [F [T D]].
    split; [|split].
    + cbn [String.append find String.length]. rewrite Ec, F. reflexivity.
    + cbn [String.append String.length substr_to]. rewrite T. reflexivity.
    + exact D.
Qed.

Lemma options_loop_forms h exe f v rest o st :
  find "=" f = None ->
  options_loop h exe ((f ++ "=" ++ v) :: rest) o st
  = options_loop h exe (f :: v :: rest) o st.
Proof.
  intro H. rewrite !options_loop_cons. cbv zeta.
  destruct (find_first_equals f v H) as [F [T D]].
  unfold parseOptionalFlag.
  change (f ++ "=" ++ v) with (f ++ String "=" v).
  rewrite F, H, T, D. cbn [hd_error parsed flagOut valueOut advanced negb tl]. reflexivity.
Qed.

Lemma bind_congr_l {S A B} (m1 m2 : M S A) (k : A -> M S B) (s : S) :
  m1 s = m2 s -> bind m1 k s = bind m2 k s.
Proof. intro H. unfold bind. rewrite H. reflexivity. Qed.

Lemma bind_congr_r {S A B} (m : M S A) (k1 k2 : A -> M S B) (s : S) :
  (forall a s', k1 a s' = k2 a s') -> bind m k1 s = bind m k2 s.
Proof. intro H. unfold bind. destruct (m s) as [[a|e|] s']; [apply H | reflexivity..]. Qed.

(** [main] reads the arguments after the sixth through the option loop
    only. *)
Lemma main_options_congr h env fuel exe pos A B st :
  List.length pos = 6%nat ->
  (forall st', options_loop h exe A defaults st' = options_loop h exe B defaults st') ->
  main h env fuel exe (pos ++ A) st = main h env fuel exe (pos ++ B) st.
Proof.
  intros Hlen H.
  destruct pos as [|a1 [|a2 [|a3 [|a4 [|a5 [|a6 [|a7 pos]]]]]]]; try discriminate.
  unfold main. cbv zeta. cbn [app List.length nth skipn].
  replace (Z.of_nat (S (S (S (S (S (S (S (List.length A)))))))) <? 7) with false
    by (symmetry; apply Z.ltb_ge; lia).
  replace (Z.of_nat (S (S (S (S (S (S (S (List.length B)))))))) <? 7) with false
    by (symmetry; apply Z.ltb_ge; lia).
  apply bind_congr_r. intros [port|code] st1; [|reflexivity].
  apply bind_congr_l, H.
Qed.

(** X17.  An option may be written [--flag=value] or [--flag value]: for a flag
    without an equals sign the two command lines are treated alike, whatever
    the flag, the value and the arguments around them. *)
Theorem option_forms_agree h env fuel exe pos f v rest st :
  List.length pos = 6%nat ->
  find "=" f = None ->
  main h env fuel exe (pos ++ (f ++ "=" ++ v) :: rest) st
  = main h env fuel exe (pos ++ f :: v :: rest) st.
Proof.
  intros Hlen H. apply main_options_congr; [exact Hlen|].
  intro st'. apply options_loop_forms, H.
Qed.

Lemma option_forms_agree_witness :
  main bare_host Scenario.healthy 10 "backup" (positional ++ ["--retries=5"; "--rows"; "7"])
    ([], Scenario.empty_disk)
  = main bare_host Scenario.healthy 10 "backup" (positional ++ ["--retries"; "5"; "--rows"; "7"])
      ([], Scenario.empty_disk).
Proof.
  exact (option_forms_agree bare_host Scenario.healthy 10 "backup" positional
           "--retries" "5" ["--rows"; "7"] ([], Scenario.empty_disk) eq_refl eq_refl).
Defined.

(** ** Options without a value *)

Lemma options_loop_no_ssl_verify h exe x rest o st :
  o_sslVerify o = false ->
  options_loop h exe ("--no-ssl-verify" :: x :: rest) o st = options_loop h exe rest o st.
Proof.
  intro H. rewrite options_loop_cons. cbv zeta.
  unfold parseOptionalFlag. cbn [find Ascii.eqb Bool.eqb option_map hd_error].
  cbn [parsed flagOut valueOut advanced negb tl].
  unfold option_step, try_catch. cbn [String.eqb Ascii.eqb Bool.eqb]. unfold ret.
  destruct o as [ssl r t tm lv]. cbn [o_sslVerify o_rows o_retries o_timeout o_logLevel] in *.
  subst ssl. reflexivity.
Qed.

Lemma options_loop_trailing h exe arg o st :
  find "=" arg = None ->
  options_loop h exe [arg] o st
  = (Ok (Return EXIT_INVALID_ARGS),
     ((fst st ++ [(Cerr, ("Invalid option format: " ++ arg ++ nl)%string)])%list, snd st)).
Proof.
  intro H. rewrite options_loop_cons. cbv zeta.
  unfold parseOptionalFlag. rewrite H. reflexivity.
Qed.

(** X18.  The only option that is documented without a value is read like the
    others: [--no-ssl-verify] takes the argument after it as its value and
    drops it, so that the flag and what follows it change nothing; and as the
    last argument it is refused, like any other last argument without an
    equals sign, with exit status 1 and before anything is logged. *)
Theorem no_ssl_verify_takes_a_value h env fuel exe pos st :
  List.length pos = 6%nat ->
  (forall x rest,
     main h env fuel exe (pos ++ "--no-ssl-verify" :: x :: rest) st
     = main h env fuel exe (pos ++ rest) st)
  /\ (forall arg port,
        find "=" arg = None ->
        strto INT_MIN INT_MAX (nth 2 pos "") = Converted port -> 1 <= port <= 65535 ->
        main h env fuel exe (pos ++ [arg]) st
        = (Ok EXIT_INVALID_ARGS,
           ((fst st ++ [(Cerr, ("Invalid option format: " ++ arg ++ nl)%string)])%list,
            snd st))).
Proof.
  intro Hlen. split.
  - intros x rest. apply main_options_congr; [exact Hlen|].
    intro st'. apply options_loop_no_ssl_verify. reflexivity.
  - intros arg port Hfind Hport Hrange.
    destruct pos as [|a1 [|a2 [|a3 [|a4 [|a5 [|a6 [|a7 pos]]]]]]]; try discriminate.
    cbn [nth] in Hport.
    unfold main. cbv zeta. cbn [app List.length nth skipn Z.of_nat Pos.of_succ_nat Pos.succ].
    cbn [Z.ltb Z.compare Pos.compare Pos.compare_cont].
    unfold bind at 1. unfold try_catch at 1. unfold bind at 1. unfold stoi, sto.
    rewrite Hport. unfold ret at 1.
    replace ((port <=? 0) || (65535 <? port)) with false
      by (symmetry; apply orb_false_iff; split; [apply Z.leb_gt | apply Z.ltb_ge]; lia).
    unfold ret at 1. cbv beta iota.
    unfold bind at 1. rewrite (options_loop_trailing h exe arg defaults st Hfind).
    reflexivity.
Qed.

Lemma no_ssl_verify_takes_a_value_witness :
  main bare_host Scenario.healthy 10 "backup" (positional ++ ["--no-ssl-verify"])
    ([], Scenario.empty_disk)
  = (Ok 1, ([(Cerr, "Invalid option format: --no-ssl-verify" ++ nl)], Scenario.empty_disk))
  /\ main bare_host Scenario.healthy 10 "backup"
       (positional ++ ["--no-ssl-verify"; "--retries"; "--rows=7"]) ([], Scenario.empty_disk)
     = main bare_host Scenario.healthy 10 "backup" (positional ++ ["--rows=7"])
         ([], Scenario.empty_disk).
Proof.
  destruct (no_ssl_verify_takes_a_value bare_host Scenario.healthy 10 "backup" positional
              ([], Scenario.empty_disk) eq_refl) as [Swallow Last].
  split.
  - apply (Last "--no-ssl-verify" 21); [reflexivity | reflexivity | lia].
  - apply (Swallow "--retries" ["--rows=7"]).
Defined.
End CommandLine.

(** * The password and the log *)

Lemma redact_configure p u url lf fsize :
  redact_handle (configure (with_pass p u) url lf fsize)
  = redact_handle (configure u url lf fsize).
Proof.
  unfold redact_handle, configure. cbn [user pass sslVerify timeoutSeconds verbose progressCb
                                         with_pass].
  destruct (negb (Str.empty (user u))), (negb (Str.empty p)), (negb (Str.empty (pass u)));
    reflexivity.
Qed.

Lemma Logger_output_redact (t : list Event) :
  forall lvl, Logger_output lvl (map redact t) = Logger_output lvl t.
Proof.
  induction t as [|e t IH]; intro lvl; [reflexivity|].
  destruct e; cbn [map redact Logger_output]; rewrite ?IH; reflexivity.
Qed.

(** The callbacks write the same lines wherever they start. *)
Lemma deliver_replies_uniform (chunks : list string) :
  exists t, Forall is_log t
            /\ forall w, deliver_replies chunks w = (Ok tt, mkWorld (trace w ++ t) (fs w)).
Proof.
  induction chunks as [|c r [t2 [F2 E2]]]; cbn [deliver_replies].
  - exists []. split; [constructor|]. intro w. rewrite <- world_eta. reflexivity.
  - exists (map (fun p => EvLog (fst p) (snd p))
              (map (fun line => (INFO, ("FTP server: " ++ line)%string))
                 (filter (fun line => negb (Str.empty line)) (Str.lines c))) ++ t2)%list.
    split.
    + apply Forall_app. split; [|exact F2].
      apply Forall_forall. intros e He. apply in_map_iff in He. destruct He as [x [<- _]].
      exact I.
    + intro w. unfold bind, writeCallback, bind, ret. rewrite log_all_exact, E2.
      cbn [trace fs]. rewrite app_assoc. reflexivity.
Qed.

Lemma curlProgress_uniform (clientp : option ProgressCallback) (x : XferInfo) :
  exists t, Forall is_log t
            /\ forall w, curlProgress clientp x w
                         = (Ok (match clientp with
                                | Some (Some cb) => if throws_on cb x then 1 else 0
                                | _ => 0
                                end),
                            mkWorld (trace w ++ t) (fs w)).
Proof.
  destruct clientp as [[cb|]|]; cbn [curlProgress];
    try (exists []; split; [constructor | intro w; rewrite <- world_eta; reflexivity]).
  exists (map (fun p => EvLog (fst p) (snd p)) (cb_logs (cb x))). split.
  - apply Forall_forall. intros e He. apply in_map_iff in He. destruct He as [y [<- _]].
    exact I.
  - intro w. unfold try_catch, invoke, bind, throws_on. rewrite log_all_exact.
    destruct (cb_throw (cb x)); reflexivity.
Qed.

Lemma deliver_progress_uniform (cb : ProgressCallback) (reports : list XferInfo) :
  exists t, Forall is_log t
            /\ forall w, deliver_progress (curlProgress (Some cb)) reports w
                         = (Ok (aborts cb reports), mkWorld (trace w ++ t) (fs w)).
Proof.
  induction reports as [|x r [t2 [F2 E2]]]; cbn [deliver_progress].
  - exists []. split; [constructor|]. intro w. rewrite <- world_eta.
    destruct cb; reflexivity.
  - destruct (curlProgress_uniform (Some cb) x) as [t1 [F1 E1]].
    destruct cb as [f|].
    + destruct (throws_on f x) eqn:Th.
      * exists t1. split; [exact F1|]. intro w. unfold bind. rewrite E1.
        cbn [aborts existsb]. rewrite Th. reflexivity.
      * exists (t1 ++ t2)%list. split; [apply Forall_app; split; assumption|].
        intro w. unfold bind. rewrite E1. cbn [Z.eqb]. rewrite E2.
        cbn [aborts existsb trace fs]. rewrite Th, app_assoc. reflexivity.
    + exists (t1 ++ t2)%list. split; [apply Forall_app; split; assumption|].
      intro w. unfold bind. rewrite E1. cbn [Z.eqb]. rewrite E2.
      cbn [aborts trace fs]. rewrite app_assoc. reflexivity.
Qed.

(** A transfer writes, after the call itself, lines that depend on the
    server, the network and the progress function only. *)
Lemma curl_easy_perform_uniform env (cb : ProgressCallback) (k : Z) :
  exists t,
    Forall is_log t
    /\ forall u url lf w,
         progressCb u = cb ->
         curl_easy_perform (configure u url lf (file_size env k)) (transfer env k)
           (replies env k) w
         = (Ok (attempt_status env u k),
            mkWorld (trace w ++ EvCurlPerform (configure u url lf (file_size env k)) :: t)
                    (fs w)).
Proof.
  destruct (deliver_replies_uniform (replies env k)) as [t0 [F0 E0]].
  destruct cb as [f|].
  - destruct (deliver_progress_uniform (Some f) (fst (transfer env k))) as [t1 [F1 E1]].
    exists (t0 ++ t1)%list. split; [apply Forall_app; split; assumption|].
    intros u url lf w Hcb.
    unfold curl_easy_perform, attempt_status.
    unfold bind at 1. unfold modify at 1.
    destruct (configure_progress u url lf (file_size env k)) as [W C].
    rewrite W. unfold bind at 1. rewrite E0. cbn [emit trace fs].
    rewrite Hcb in C |- *. destruct C as [C1 [C2 C3]]. rewrite C1, C2, C3.
    unfold bind, ret. rewrite E1. cbn [trace fs].
    rewrite <- !app_assoc. reflexivity.
  - exists t0. split; [exact F0|].
    intros u url lf w Hcb.
    unfold curl_easy_perform, attempt_status.
    unfold bind at 1. unfold modify at 1.
    destruct (configure_progress u url lf (file_size env k)) as [W C].
    rewrite W. unfold bind at 1. rewrite E0. cbn [emit trace fs].
    rewrite Hcb in C |- *. rewrite C. cbn [aborts]. unfold ret.
    rewrite <- !app_assoc. reflexivity.
Qed.

(** One turn of the retry loop that reaches the transfer, with everything it
    writes. *)
Lemma upload_loop_turn env lf url fn (cb : ProgressCallback) (a : Z) :
  exists tl,
    Forall is_log tl
    /\ forall fuel u w,
         progressCb u = cb ->
         a < maxRetries u -> fopen_rb env (a + 1) = true -> curl_easy_init env (a + 1) = true ->
         let h := configure u url lf (file_size env (a + 1)) in
         let st := attempt_status env u (a + 1) in
         let pre := [EvLog INFO ("FTP upload attempt " ++ Str.to_string (a + 1)
                                 ++ " to URL: " ++ url); EvFopen lf; EvCurlEasyInit] in
         upload_loop env lf url fn (S fuel) a (u, w)
         = if st =? CURLE_OK then
             (Ok Returned,
              (setLastError "" u,
               mkWorld (trace w ++ pre ++ EvCurlPerform h :: tl
                        ++ [EvLog INFO ("FTP upload succeeded: " ++ fn)]) (fs w)))
           else
             upload_loop env lf url fn fuel (a + 1)
               (setLastError (curl_easy_strerror env st) u,
                mkWorld (trace w ++ pre ++ EvCurlPerform h :: tl
                         ++ EvLog WARNING ("FTP upload attempt " ++ Str.to_string (a + 1)
                                           ++ " failed: " ++ curl_easy_strerror env st)
                         :: (if a + 1 <? maxRetries u
                             then [EvLog INFO "Retrying after backoff...";
                                   EvSleep (backoff_ms (a + 1))]
                             else []))
                        (fs w)).
Proof.
  destruct (curl_easy_perform_uniform env cb (a + 1)) as [tl [F E]].
  exists tl. split; [exact F|].
  intros fuel u w Hcb Ha Hf Hi h st pre. apply Z.ltb_lt in Ha.
  specialize (E u url lf (mkWorld (trace w ++ pre) (fs w)) Hcb).
  fold h in E. fold st in E. cbn [trace fs] in E.
  assert (X : upload_loop env lf url fn (S fuel) a (u, w)
             = (let (r, s') := let (r, w') := curl_easy_perform h (transfer env (a + 1)) (replies env (a + 1))
                                                (mkWorld (trace w ++ pre) (fs w)) in
                               (r, (setLastError "" u, w')) in
                match r with
                | Ok res =>
                    (if res =? CURLE_OK then
                       liftW (info ("FTP upload succeeded: " ++ fn)) ;; ret Returned
                     else
                       update (setLastError (curl_easy_strerror env res)) ;;
                       u' <- this ;;
                       liftW (warn ("FTP upload attempt " ++ Str.to_string (a + 1)
                                    ++ " failed: " ++ lastError u')) ;;
                       (if a + 1 <? maxRetries u' then
                          liftW (info "Retrying after backoff...") ;;
                          liftW (sleepForBackoff (a + 1))
                        else ret tt) ;;
                       upload_loop env lf url fn fuel (a + 1)) s'
                | Throw e => (Throw e, s')
                | Diverge => (Diverge, s')
                end)).
  { cbn [upload_loop].
    unfold bind at 1. unfold this at 1. cbn [fst snd]. rewrite Ha.
    unfold bind at 1. unfold liftW at 1, info at 1, log, modify. cbn [fst snd].
    unfold bind at 1. unfold liftW at 1. cbn [fst snd]. rewrite Hf. cbn [negb].
    unfold bind at 1. unfold liftW at 1. cbn [fst snd]. rewrite Hi. cbn [negb].
    unfold bind at 1. unfold update at 1. cbn [fst snd].
    unfold bind at 1. unfold liftW at 1. cbn [fst snd].
    unfold emit. cbn [trace fs]. rewrite <- !app_assoc. cbn [app]. reflexivity. }
  rewrite X, E. clear X.
  destruct (st =? CURLE_OK) eqn:Est.
  - unfold bind, liftW, info, log, modify, ret, emit. cbn [fst snd trace fs].
    rewrite <- !app_assoc. cbn [app]. rewrite <- ?app_assoc. reflexivity.
  - destruct (a + 1 <? maxRetries u) eqn:Elt.
    + unfold sleepForBackoff, bind, liftW, info, warn, log, modify, update, this, ret, emit.
      cbn [fst snd trace fs maxRetries lastError setLastError]. rewrite Elt.
      cbn [fst snd trace fs]. rewrite <- !app_assoc. cbn [app]. rewrite <- ?app_assoc.
      reflexivity.
    + unfold sleepForBackoff, bind, liftW, info, warn, log, modify, update, this, ret, emit.
      cbn [fst snd trace fs maxRetries lastError setLastError]. rewrite Elt.
      cbn [fst snd trace fs]. rewrite <- !app_assoc. cbn [app]. rewrite <- ?app_assoc.
      reflexivity.
Qed.

(** The retry loop of two uploaders that differ in the password only: the
    same outcome, and the same calls but for the password on the handles. *)
Lemma upload_loop_twin env lf url fn p (fuel : nat) :
  forall a u,
  exists r e t1 t2,
    (forall w, upload_loop env lf url fn fuel a (u, w)
               = (r, (setLastError e u, mkWorld (trace w ++ t1) (fs w))))
    /\ (forall w, upload_loop env lf url fn fuel a (with_pass p u, w)
                  = (r, (setLastError e (with_pass p u), mkWorld (trace w ++ t2) (fs w))))
    /\ map redact t1 = map redact t2.
Proof.
  induction fuel as [|fuel IH]; intros a u.
  - exists Diverge, (lastError u), [], [].
    split; [|split; [|reflexivity]]; intro w; cbn [upload_loop];
      rewrite <- world_eta; [rewrite <- uploader_eta | destruct u]; reflexivity.
  - destruct (Z.ltb_spec a (maxRetries u)) as [Hlt|Hge].
    2:{ exists (Ok Exhausted), (lastError u), [], [].
        split; [|split; [|reflexivity]]; intro w.
        - rewrite upload_loop_exhausted by exact Hge.
          rewrite <- world_eta, <- uploader_eta. reflexivity.
        - rewrite upload_loop_exhausted by exact Hge.
          rewrite <- world_eta. destruct u. reflexivity. }
    destruct (fopen_rb env (a + 1)) eqn:Hf.
    2:{ exists (Throw (runtime_error ("Failed to open local file: " ++ lf))), (lastError u).
        exists [EvLog INFO ("FTP upload attempt " ++ Str.to_string (a + 1) ++ " to URL: " ++ url);
                EvFopen lf; EvLog ERROR ("Failed to open local file: " ++ lf)].
        exists [EvLog INFO ("FTP upload attempt " ++ Str.to_string (a + 1) ++ " to URL: " ++ url);
                EvFopen lf; EvLog ERROR ("Failed to open local file: " ++ lf)].
        apply Z.ltb_lt in Hlt.
        split; [|split; [|reflexivity]]; intro w;
          cbn [upload_loop]; unfold bind, liftW, this, info, error, log, modify, throw, emit;
          cbn [fst snd maxRetries with_pass]; rewrite Hlt, Hf; cbn [negb fst snd trace fs];
          rewrite <- !app_assoc; [rewrite <- uploader_eta | destruct u]; reflexivity. }
    destruct (curl_easy_init env (a + 1)) eqn:Hi.
    2:{ exists (Throw (runtime_error "Failed to initialize curl")), (lastError u).
        exists [EvLog INFO ("FTP upload attempt " ++ Str.to_string (a + 1) ++ " to URL: " ++ url);
                EvFopen lf; EvCurlEasyInit; EvLog ERROR "Failed to initialize curl"].
        exists [EvLog INFO ("FTP upload attempt " ++ Str.to_string (a + 1) ++ " to URL: " ++ url);
                EvFopen lf; EvCurlEasyInit; EvLog ERROR "Failed to initialize curl"].
        apply Z.ltb_lt in Hlt.
        split; [|split; [|reflexivity]]; intro w;
          cbn [upload_loop]; unfold bind, liftW, this, info, error, log, modify, throw, emit;
          cbn [fst snd maxRetries with_pass]; rewrite Hlt, Hf, Hi; cbn [negb fst snd trace fs];
          rewrite <- !app_assoc; [rewrite <- uploader_eta | destruct u]; reflexivity. }
    destruct (upload_loop_turn env lf url fn (progressCb u) a) as [tl [F T]].
    pose proof (fun w => T fuel u w eq_refl Hlt Hf Hi) as T1.
    pose proof (fun w => T fuel (with_pass p u) w eq_refl Hlt Hf Hi) as T2.
    cbv zeta in T1, T2.
    change (attempt_status env (with_pass p u) (a + 1)) with (attempt_status env u (a + 1))
      in T2.
    change (maxRetries (with_pass p u)) with (maxRetries u) in T2.
    assert (L : forall l, Forall is_log l -> map redact l = l).
    { induction 1 as [|ev l Hev _ IHl]; [reflexivity|].
      destruct ev; cbn in Hev; try contradiction. cbn [map redact]. rewrite IHl. reflexivity. }
    destruct (attempt_status env u (a + 1) =? CURLE_OK).
    + exists (Ok Returned), "". eexists. eexists.
      split; [exact T1 | split; [exact T2|]].
      rewrite !map_app. cbn [map redact]. rewrite !map_app, redact_configure. reflexivity.
    + set (e1 := curl_easy_strerror env (attempt_status env u (a + 1))) in *.
      destruct (IH (a + 1) (setLastError e1 u)) as [r [e [t1 [t2 [E1 [E2 R]]]]]].
      exists r, e. eexists. eexists.
      split; [|split].
      * intro w. rewrite T1, E1. cbn [trace fs]. rewrite <- app_assoc. reflexivity.
      * intro w. rewrite T2.
        change (setLastError e1 (with_pass p u)) with (with_pass p (setLastError e1 u)).
        rewrite E2. cbn [trace fs]. rewrite <- app_assoc. reflexivity.
      * rewrite !map_app. cbn [map redact]. rewrite !map_app, redact_configure, R.
        reflexivity.
Qed.

Lemma uploadFile_twin env lf rd p u w :
  exists r e t1 t2,
    uploadFile env lf rd (u, w) = (r, (setLastError e u, mkWorld (trace w ++ t1) (fs w)))
    /\ uploadFile env lf rd (with_pass p u, w)
       = (r, (setLastError e (with_pass p u), mkWorld (trace w ++ t2) (fs w)))
    /\ map redact t1 = map redact t2
    /\ r <> Diverge.
Proof.
  assert (D : forall r e t,
             uploadFile env lf rd (u, w)
             = (r, (setLastError e u, mkWorld (trace w ++ t) (fs w))) -> r <> Diverge).
  { intros r e t E. destruct (uploadFile_events env lf rd u w) as [r' [e' [t' [E' [_ D']]]]].
    rewrite E in E'. injection E' as -> _ _. exact D'. }
  destruct (fs w lf) as [d|] eqn:Hfs.
  - pose proof (uploadFile_unfold env lf rd u w ltac:(congruence)) as U1.
    pose proof (uploadFile_unfold env lf rd (with_pass p u) w ltac:(congruence)) as U2.
    change (buildUrl (with_pass p u) rd (Str.filename lf))
      with (buildUrl u rd (Str.filename lf)) in U2.
    change (maxRetries (with_pass p u)) with (maxRetries u) in U2.
    change (setLastError "" (with_pass p u)) with (with_pass p (setLastError "" u)) in U2.
    destruct (upload_loop_twin env lf (buildUrl u rd (Str.filename lf)) (Str.filename lf) p
                (S (Z.to_nat (maxRetries u))) 0 (setLastError "" u))
      as [r [e [t1 [t2 [E1 [E2 R]]]]]].
    rewrite E1 in U1. rewrite E2 in U2. cbn [trace fs fst snd] in U1, U2.
    set (l0 := EvLog INFO ("Preparing to upload file: " ++ lf ++ " to " ++ rd)) in *.
    destruct r as [[]|ex|].
    + exists (Ok tt), e, (l0 :: t1), (l0 :: t2).
      rewrite <- app_assoc in U1, U2. cbn [app] in U1, U2.
      split; [exact U1 | split; [exact U2 | split; [|discriminate]]].
      cbn [map]. rewrite R. reflexivity.
    + unfold emit in U1, U2. cbn [trace fs lastError maxRetries setLastError with_pass]
        in U1, U2.
      rewrite <- !app_assoc in U1, U2. cbn [app] in U1, U2.
      eexists. exists e. eexists. eexists.
      split; [exact U1 | split; [exact U2 | split; [|discriminate]]].
      cbn [map]. rewrite !map_app, R. reflexivity.
    + exists (Throw ex), e, (l0 :: t1), (l0 :: t2).
      rewrite <- app_assoc in U1, U2. cbn [app] in U1, U2.
      split; [exact U1 | split; [exact U2 | split; [|discriminate]]].
      cbn [map]. rewrite R. reflexivity.
    + exfalso. rewrite <- app_assoc in U1. exact (D _ _ _ U1 eq_refl).
  - exists (Throw (runtime_error ("Local file does not exist: " ++ lf))), (lastError u).
    exists [EvLog INFO ("Preparing to upload file: " ++ lf ++ " to " ++ rd);
            EvLog ERROR ("Local file does not exist: " ++ lf)].
    exists [EvLog INFO ("Preparing to upload file: " ++ lf ++ " to " ++ rd);
            EvLog ERROR ("Local file does not exist: " ++ lf)].
    split; [|split; [|split; [reflexivity | discriminate]]];
      unfold uploadFile, bind, liftW, fs_exists, info, error, log, modify, throw, emit;
      cbn [fst snd trace fs]; rewrite Hfs; cbn [negb fst snd trace fs];
      rewrite <- !app_assoc; [rewrite <- uploader_eta | destruct u]; reflexivity.
Qed.

Lemma run_upload_twin env m p lf w :
  exists r t1 t2,
    run_upload env m lf w = (r, mkWorld (trace w ++ t1) (fs w))
    /\ run_upload env (with_ftpPass p m) lf w = (r, mkWorld (trace w ++ t2) (fs w))
    /\ map redact t1 = map redact t2
    /\ r <> Diverge.
Proof.
  destruct (uploadFile_twin (up env) lf (ftpDir m) (ftpPass (with_ftpPass p m))
              (run_uploader env m) (mkWorld (trace w ++ run_upload_prelude env m) (fs w)))
    as [r [e [t1 [t2 [E1 [E2 [R D]]]]]]].
  cbn [trace fs] in E1, E2.
  pose proof (run_upload_unfold env m lf w r e t1 E1 D) as U1.
  pose proof (run_upload_unfold env (with_ftpPass p m) lf w r e t2 E2 D) as U2.
  change (run_upload_prelude env (with_ftpPass p m)) with (run_upload_prelude env m) in U2.
  change (ftpHost (with_ftpPass p m)) with (ftpHost m) in U2.
  eexists. eexists. eexists.
  split; [exact U1 | split; [exact U2 | split; [|exact D]]].
  rewrite !map_app, R. reflexivity.
Qed.

Lemma removed_twin env p x1 x2 :
  map redact (trace x1) = map redact (trace x2) -> fs x1 = fs x2 ->
  map redact (trace (removed env p x1)) = map redact (trace (removed env p x2))
  /\ fs (removed env p x1) = fs (removed env p x2).
Proof.
  intros T F. unfold removed. destruct (remove_fails env p); cbn [trace fs];
    rewrite !map_app, T, F; split; reflexivity.
Qed.

Lemma closed_twin db x1 x2 :
  map redact (trace x1) = map redact (trace x2) -> fs x1 = fs x2 ->
  map redact (trace (closed db x1)) = map redact (trace (closed db x2))
  /\ fs (closed db x1) = fs (closed db x2).
Proof.
  intros T F. unfold closed, emit. cbn [trace fs]. rewrite !map_app, T, F.
  split; reflexivity.
Qed.

Lemma caught_twin e x1 x2 :
  map redact (trace x1) = map redact (trace x2) -> fs x1 = fs x2 ->
  map redact (trace (caught e x1)) = map redact (trace (caught e x2))
  /\ fs (caught e x1) = fs (caught e x2).
Proof.
  intros T F. unfold caught, emit. cbn [trace fs]. rewrite !map_app, T, F.
  split; reflexivity.
Qed.

Lemma run_twin env fuel m p w :
  fst (run env fuel m w) = fst (run env fuel (with_ftpPass p m) w)
  /\ map redact (trace (snd (run env fuel m w)))
     = map redact (trace (snd (run env fuel (with_ftpPass p m) w)))
  /\ fs (snd (run env fuel m w)) = fs (snd (run env fuel (with_ftpPass p m) w)).
Proof.
  pose proof (run_cases env fuel m w) as C1.
  pose proof (run_cases env fuel (with_ftpPass p m) w) as C2.
  cbv zeta in C1, C2.
  change (run_open env (with_ftpPass p m) w) with (run_open env m w) in C2.
  destruct (run_open env m w) as [[db|e|] w1]; [| |contradiction].
  2:{ rewrite C1, C2. split; [reflexivity | split; reflexivity]. }
  change (run_populate env (with_ftpPass p m) db w1) with (run_populate env m db w1) in C2.
  destruct (run_populate env m db w1) as [[[]|e|] w2]; [| |contradiction].
  2:{ rewrite C1, C2. split; [reflexivity | split; reflexivity]. }
  change (dumpFile_of env (with_ftpPass p m)) with (dumpFile_of env m) in C2.
  destruct (backupToFile (sq env) fuel db (dumpFile_of env m) w2) as [[[]|e|] w3];
    try (rewrite C1, C2; split; [reflexivity | split; reflexivity]).
  change (snapshot_logged env (with_ftpPass p m) w3) with (snapshot_logged env m w3) in C2.
  destruct (run_upload_twin env m p (dumpFile_of env m) (snapshot_logged env m w3))
    as [r [t1 [t2 [E1 [E2 [R D]]]]]].
  rewrite E1 in C1. rewrite E2 in C2.
  set (ws := snapshot_logged env m w3) in *.
  assert (T : map redact (trace (mkWorld (trace ws ++ t1) (fs ws)))
              = map redact (trace (mkWorld (trace ws ++ t2) (fs ws)))).
  { cbn [trace]. rewrite !map_app, R. reflexivity. }
  assert (F : fs (mkWorld (trace ws ++ t1) (fs ws)) = fs (mkWorld (trace ws ++ t2) (fs ws)))
    by reflexivity.
  destruct (removed_twin env (dumpFile_of env m) _ _ T F) as [T1 F1].
  destruct (closed_twin db _ _ T1 F1) as [T2 F2].
  destruct r as [[]|e|]; [| |contradiction]; rewrite C1, C2; cbn [fst snd].
  - split; [reflexivity | split; assumption].
  - destruct (caught_twin e _ _ T2 F2) as [T3 F3].
    split; [reflexivity | split; assumption].
Qed.

(** X19.  A run with another password: the same answer, the same files, the same
    calls in the same order with the same arguments but for the
    [CURLOPT_PASSWORD] setting of the transfer handles.  So the log is the same
    line for line, at every level: nothing [run] logs depends on the
    password. *)
Theorem run_never_logs_password env fuel m p1 p2 w :
  let out1 := run env fuel (with_ftpPass p1 m) w in
  let out2 := run env fuel (with_ftpPass p2 m) w in
  fst out1 = fst out2
  /\ map redact (trace (snd out1)) = map redact (trace (snd out2))
  /\ (forall lvl, Logger_output lvl (trace (snd out1)) = Logger_output lvl (trace (snd out2)))
  /\ (forall q, fs (snd out1) q = fs (snd out2) q).
Proof.
  intros out1 out2.
  destruct (run_twin env fuel (with_ftpPass p1 m) p2 w) as [R [T F]].
  change (with_ftpPass p2 (with_ftpPass p1 m)) with (with_ftpPass p2 m) in R, T, F.
  fold out1 in R, T, F. fold out2 in R, T, F.
  split; [exact R | split; [exact T | split]].
  - intro lvl. rewrite <- (Logger_output_redact (trace (snd out1))), T.
    apply Logger_output_redact.
  - intro q. rewrite F. reflexivity.
Qed.

(** ** The password on the command line *)

Section PasswordOnCommandLine.
Import Cli.

Lemma alike_refl (x : Res Z * (Console * World)) : alike x x.
Proof. unfold alike. split; [reflexivity | split; [reflexivity | split; reflexivity]]. Qed.

Lemma bind_alike {A} (m : M (Console * World) A) (k1 k2 : A -> M (Console * World) Z) s :
  (forall a s', alike (k1 a s') (k2 a s')) -> alike (bind m k1 s) (bind m k2 s).
Proof.
  intro H. unfold bind. destruct (m s) as [[a|e|] s']; [apply H | apply alike_refl..].
Qed.

Lemma bind_ret_l {S A B} (a : A) (k : A -> M S B) (s : S) : bind (ret a) k s = k a s.
Proof. reflexivity. Qed.

Lemma maskedPass_length p1 p2 :
  String.length p1 = String.length p2 -> maskedPass p1 = maskedPass p2.
Proof.
  intro H. unfold maskedPass. rewrite H.
  destruct p1, p2; try discriminate; reflexivity.
Qed.

(** What [main] does once the password is known. *)
Lemma main_tail_alike env fuel (m : BackupManager) p s :
  alike
    ((success <- liftW (run env fuel m) ;;
      if negb success then
        print Cerr ("Backup and upload failed. See logs for details." ++ nl) ;;
        ret EXIT_UPLOAD_FAILED
      else
        print Cout ("Backup and upload completed successfully." ++ nl) ;;
        ret 0) s)
    ((success <- liftW (run env fuel (with_ftpPass p m)) ;;
      if negb success then
        print Cerr ("Backup and upload failed. See logs for details." ++ nl) ;;
        ret EXIT_UPLOAD_FAILED
      else
        print Cout ("Backup and upload completed successfully." ++ nl) ;;
        ret 0) s).
Proof.
  destruct (run_twin env fuel m p (snd s)) as [R [T F]].
  unfold bind, liftW, print, update, ret, alike.
  destruct (run env fuel m (snd s)) as [r1 w1].
  destruct (run env fuel (with_ftpPass p m) (snd s)) as [r2 w2].
  cbn [fst snd] in R, T, F. subst r2.
  destruct r1 as [[]|e|]; cbn [negb fst snd];
    (split; [reflexivity | split; [reflexivity | split; assumption]]).
Qed.

(** X20.  The password on the command line reaches nothing but the transfer
    handles.  Two command lines that differ in the password argument, the two
    passwords being equally long, give the same exit status, the same output
    on the standard streams, the same log line for line at every level, the
    same files, and the same calls but for the [CURLOPT_PASSWORD] setting of
    the handles: the opening line shows the length of the password and
    nothing else of it. *)
Theorem main_masks_password h env fuel exe a1 a2 a3 a4 p1 p2 a6 opts st :
  String.length p1 = String.length p2 -> p1 <> "-" -> p2 <> "-" ->
  let out1 := main h env fuel exe (a1 :: a2 :: a3 :: a4 :: p1 :: a6 :: opts) st in
  let out2 := main h env fuel exe (a1 :: a2 :: a3 :: a4 :: p2 :: a6 :: opts) st in
  fst out1 = fst out2
  /\ fst (snd out1) = fst (snd out2)
  /\ (forall lvl, Logger_output lvl (trace (snd (snd out1)))
                  = Logger_output lvl (trace (snd (snd out2))))
  /\ map redact (trace (snd (snd out1))) = map redact (trace (snd (snd out2)))
  /\ (forall q, fs (snd (snd out1)) q = fs (snd (snd out2)) q).
Proof.
  intros Hlen H1 H2 out1 out2.
  assert (A : alike out1 out2).
  { unfold out1, out2, main. cbv zeta. cbn [List.length nth skipn].
    destruct (_ <? 7); [apply alike_refl|].
    apply bind_alike. intros [port|code] s1; [|apply alike_refl].
    apply bind_alike. intros [o|code] s2; [|apply alike_refl].
    apply String.eqb_neq in H1, H2. rewrite H1, H2.
    rewrite !bind_ret_l. cbv beta iota.
    rewrite (maskedPass_length p1 p2 Hlen).
    apply bind_alike. intros [] s3.
    apply (main_tail_alike env fuel
             (setLogLevel (o_logLevel o)
                (BackupManager_ctor a1 a2 port a4 p1 a6 (o_sslVerify o) (o_rows o)
                   (o_retries o) (o_timeout o))) p2 s3). }
  destruct A as [R [C [T F]]].
  split; [exact R | split; [exact C | split; [|split; [exact T|]]]].
  - intro lvl. rewrite <- (Logger_output_redact (trace (snd (snd out1)))), T.
    apply Logger_output_redact.
  - intro q. rewrite F. reflexivity.
Qed.

Lemma main_masks_password_witness :
  fst (main bare_host Scenario.offline 10 "backup"
         ["db"; "ftp.example.org"; "21"; "user"; "secret"; "backups"; "--retries=2"]
         ([], Scenario.empty_disk))
  = fst (main bare_host Scenario.offline 10 "backup"
           ["db"; "ftp.example.org"; "21"; "user"; "hunter"; "backups"; "--retries=2"]
           ([], Scenario.empty_disk)).
Proof.
  exact (proj1 (main_masks_password bare_host Scenario.offline 10 "backup"
                  "db" "ftp.example.org" "21" "user" "secret" "hunter" "backups"
                  ["--retries=2"] ([], Scenario.empty_disk) eq_refl
                  ltac:(discriminate) ltac:(discriminate))).
Defined.
End PasswordOnCommandLine.

(** * The level of the log *)

Lemma Logger_output_app (t1 t2 : list Event) :
  forall lvl,
    Logger_output lvl (t1 ++ t2)
    = (Logger_output lvl t1 ++ Logger_output (level_after lvl t1) t2)%list.
Proof.
  induction t1 as [|e t1 IH]; intro lvl; [reflexivity|].
  destruct e; cbn [app Logger_output level_after]; rewrite ?IH; try reflexivity.
  destruct (rank lvl0 <? rank lvl); reflexivity.
Qed.

Lemma level_after_app (t1 t2 : list Event) :
  forall lvl, level_after lvl (t1 ++ t2) = level_after (level_after lvl t1) t2.
Proof.
  induction t1 as [|e t1 IH]; intro lvl; [reflexivity|].
  destruct e; cbn [app level_after]; apply IH.
Qed.

Lemma level_after_quiet (t : list Event) :
  Forall keeps_level t -> forall lvl, level_after lvl t = lvl.
Proof.
  induction 1 as [|e t He _ IH]; intro lvl; [reflexivity|].
  destruct e; cbn in He; try contradiction; cbn [level_after]; apply IH.
Qed.

(** While the level is not changed, nothing below it is written. *)
Lemma Logger_output_at_least (t : list Event) :
  Forall keeps_level t ->
  forall lvl, Forall (fun p => rank lvl <= rank (fst p)) (Logger_output lvl t).
Proof.
  induction 1 as [|e t He _ IH]; intro lvl; [constructor|].
  destruct e; cbn in He; try contradiction; cbn [Logger_output]; try apply IH.
  destruct (Z.ltb_spec (rank lvl0) (rank lvl)); [apply IH|].
  constructor; [cbn [fst]; lia | apply IH].
Qed.

Lemma extends_quietly_refl w w' : trace w' = trace w -> extends_quietly w w'.
Proof. intro E. exists []. rewrite app_nil_r. split; [exact E | constructor]. Qed.

Lemma extends_quietly_trans w1 w2 w3 :
  extends_quietly w1 w2 -> extends_quietly w2 w3 -> extends_quietly w1 w3.
Proof.
  intros [t1 [E1 Q1]] [t2 [E2 Q2]]. exists (t1 ++ t2)%list.
  rewrite E2, E1, app_assoc. split; [reflexivity | apply Forall_app; split; assumption].
Qed.

Lemma extends_quietly_app w t f :
  Forall keeps_level t -> extends_quietly w (mkWorld (trace w ++ t) f).
Proof. intro Q. exists t. split; [reflexivity | exact Q]. Qed.

Lemma keeps_level_logs t : Forall is_log t -> Forall keeps_level t.
Proof. apply Forall_impl. intros [] H; cbn in *; try contradiction; exact I. Qed.

Lemma keeps_level_upload u lf t : Forall (upload_event u lf) t -> Forall keeps_level t.
Proof. apply Forall_impl. intros e H. destruct H; exact I. Qed.

Lemma keeps_level_step_events rc : Forall keeps_level (step_events rc).
Proof. unfold step_events. destruct (is_transient rc); repeat constructor. Qed.

Lemma backup_loop_quiet a dumpFile (fuel : nat) :
  forall b w, extends_quietly w (snd (backup_loop a dumpFile fuel b w)).
Proof.
  induction fuel as [|fuel IH]; intros b w; [apply extends_quietly_refl; reflexivity|].
  rewrite backup_loop_turn.
  set (w1 := mkWorld _ _).
  assert (Q : extends_quietly w w1).
  { exists (step_events (fst (sqlite3_backup_step a b 1024))).
    split; [reflexivity | apply keeps_level_step_events]. }
  destruct (keeps_going _).
  - apply (extends_quietly_trans _ _ _ Q), IH.
  - exact Q.
Qed.

Lemma backupToFile_quiet env fuel h dumpFile w :
  extends_quietly w (snd (backupToFile env fuel h dumpFile w)).
Proof.
  assert (B : extends_quietly w (backup_start dumpFile w)).
  { eexists. unfold backup_start. rewrite trace_touch. cbn [trace].
    split; [reflexivity | repeat constructor]. }
  destruct (sqlite3_open env dumpFile) eqn:Hopen.
  2:{ unfold backupToFile, bind, info, log, modify, throw, emit. rewrite Hopen.
      cbn [negb snd trace]. eexists. cbn [trace]. rewrite <- app_assoc.
      split; [reflexivity | repeat constructor]. }
  destruct (sqlite3_backup_init (api env) (db_image w (dbPath h))) as [b|] eqn:Hinit.
  2:{ unfold backupToFile.
      unfold bind at 1. unfold info at 1, log, modify.
      unfold bind at 1. rewrite Hopen. cbn [negb].
      unfold bind at 1. unfold bind at 1. unfold get.
      rewrite db_image_touch. unfold db_image at 1. cbn [emit fs].
      fold (db_image w (dbPath h)). rewrite Hinit. cbn [throw snd].
      eexists. rewrite trace_touch. cbn [trace emit]. rewrite <- app_assoc.
      split; [reflexivity | repeat constructor]. }
  rewrite (backupToFile_unfold env fuel h dumpFile w b Hopen Hinit).
  pose proof (backup_loop_quiet (api env) dumpFile fuel b (backup_start dumpFile w)) as L.
  destruct (backup_loop (api env) dumpFile fuel b (backup_start dumpFile w)) as [[last|e|] w2];
    cbn [snd] in L |- *; try exact (extends_quietly_trans _ _ _ B L).
  destruct ((fst last =? SQLITE_DONE) && _); cbn [snd].
  - apply (extends_quietly_trans _ _ _ B), (extends_quietly_trans _ _ _ L).
    apply extends_quietly_app. repeat constructor.
  - exact (extends_quietly_trans _ _ _ B L).
Qed.

Lemma run_populate_quiet env m db w :
  extends_quietly w (snd (run_populate env m db w)).
Proof.
  destruct (run_populate_shape env m db w) as [r [t [f [E [_ [S _]]]]]].
  rewrite E. exists t. split; [reflexivity|].
  revert S. apply Forall_impl. intros []; cbn; tauto.
Qed.

(** [run_open] sets the level first, unless the log directory cannot be
    made. *)
Lemma run_open_level env m w :
  match create_directories env "logs" with
  | Some what => run_open env m w = (Throw (StdException what), w)
  | None =>
      exists t, trace (snd (run_open env m w)) = (trace w ++ EvSetLevel (logLevel m) :: t)%list
                /\ Forall keeps_level t
  end.
Proof.
  unfold run_open, SqliteHelper_ctor, setLevel, info, error, log, modify, throw, ret, bind.
  destruct (create_directories env "logs"); [reflexivity|].
  destruct (negb (sqlite3_open (sq env) _)); cbn [snd]; rewrite ?trace_touch;
    cbn [emit trace]; eexists; rewrite <- ?app_assoc; cbn [app];
    (split; [reflexivity | repeat constructor]).
Qed.

Lemma run_upload_quiet env m lf w :
  extends_quietly w (snd (run_upload env m lf w)).
Proof.
  set (u := run_uploader env m).
  set (w0 := mkWorld (trace w ++ run_upload_prelude env m) (fs w)).
  destruct (uploadFile_events (up env) lf (ftpDir m) u w0) as [r [e [t [E [U D]]]]].
  cbn [w0 trace fs] in E.
  rewrite (run_upload_unfold env m lf w r e t E D). cbn [snd].
  apply extends_quietly_app.
  apply Forall_app. split.
  { unfold run_upload_prelude. destruct (negb _); repeat constructor. }
  apply Forall_app. split; [apply (keeps_level_upload u lf), U|].
  destruct r; repeat constructor.
Qed.

Lemma removed_quiet env p w : extends_quietly w (removed env p w).
Proof.
  unfold removed. destruct (remove_fails env p); apply extends_quietly_app; repeat constructor.
Qed.

(** The level during a run. *)
Lemma run_levels env fuel m w (lvl0 : Level) :
  exists L,
    Logger_output lvl0 (trace (snd (run env fuel m w)))
    = (Logger_output lvl0 (trace w) ++ L)%list
    /\ Forall (fun p => rank (logLevel m) <= rank (fst p)) L
    /\ level_after lvl0 (trace (snd (run env fuel m w)))
       = match create_directories env "logs" with
         | None => logLevel m
         | Some _ => level_after lvl0 (trace w)
         end.
Proof.
  pose proof (run_cases env fuel m w) as C. cbv zeta in C.
  pose proof (run_open_level env m w) as O.
  destruct (create_directories env "logs") as [what|].
  { rewrite O in C. rewrite C. unfold caught, emit. cbn [snd trace].
    exists (Logger_output (level_after lvl0 (trace w))
              [EvLog ERROR (handler_message (StdException what))]).
    rewrite Logger_output_app, level_after_app. split; [reflexivity | split; [|reflexivity]].
    cbn [Logger_output].
    destruct (rank ERROR <? rank _); repeat constructor.
    cbn [fst]. destruct (logLevel m); cbn; lia. }
  destruct O as [t1 [E1 Q1]].
  assert (G : forall w', extends_quietly (snd (run_open env m w)) w' ->
              exists L,
                Logger_output lvl0 (trace w') = (Logger_output lvl0 (trace w) ++ L)%list
                /\ Forall (fun p => rank (logLevel m) <= rank (fst p)) L
                /\ level_after lvl0 (trace w') = logLevel m).
  { intros w' [t2 [E2 Q2]]. rewrite E2, E1, <- app_assoc. cbn [app].
    assert (Q : Forall keeps_level (t1 ++ t2)) by (apply Forall_app; split; assumption).
    exists (Logger_output (logLevel m) (t1 ++ t2)).
    rewrite Logger_output_app, level_after_app. cbn [Logger_output level_after].
    split; [reflexivity | split].
    - apply Logger_output_at_least, Q.
    - apply level_after_quiet, Q. }
  assert (Lg : forall x e, extends_quietly x (caught e x)).
  { intros x e. apply extends_quietly_app. repeat constructor. }
  assert (Cl : forall x db, extends_quietly x (closed db x)).
  { intros x db. apply extends_quietly_app. repeat constructor. }
  destruct (run_open env m w) as [[db|e|] w1]; cbn [snd] in *; [| |contradiction].
  2:{ rewrite C. cbn [snd]. apply G, Lg. }
  pose proof (run_populate_quiet env m db w1) as P.
  destruct (run_populate env m db w1) as [[[]|e|] w2]; cbn [snd] in P; [| |contradiction].
  2:{ rewrite C. cbn [snd]. apply G.
      exact (extends_quietly_trans _ _ _ P
               (extends_quietly_trans _ _ _ (Cl w2 db) (Lg (closed db w2) e))). }
  pose proof (backupToFile_quiet (sq env) fuel db (dumpFile_of env m) w2) as B.
  pose proof (extends_quietly_trans _ _ _ P B) as PB. cbn [snd] in PB.
  destruct (backupToFile (sq env) fuel db (dumpFile_of env m) w2) as [[[]|e|] w3];
    cbn [snd] in B, PB.
  2:{ rewrite C. cbn [snd]. apply G.
      set (p := dumpFile_of env m) in *.
      exact (extends_quietly_trans _ _ _ PB
               (extends_quietly_trans _ _ _ (removed_quiet env p w3)
                  (extends_quietly_trans _ _ _ (Cl (removed env p w3) db)
                     (Lg (closed db (removed env p w3)) e)))). }
  2:{ rewrite C. cbn [snd]. apply G. exact PB. }
  assert (S : extends_quietly w3 (snapshot_logged env m w3)).
  { apply extends_quietly_app. repeat constructor. }
  pose proof (run_upload_quiet env m (dumpFile_of env m) (snapshot_logged env m w3)) as U.
  pose proof (extends_quietly_trans _ _ _ PB (extends_quietly_trans _ _ _ S U)) as PU.
  set (p := dumpFile_of env m) in *.
  destruct (run_upload env m p (snapshot_logged env m w3))
    as [[[]|e|] w4]; cbn [snd] in U, PU; [| |contradiction]; rewrite C; cbn [snd]; apply G.
  - exact (extends_quietly_trans _ _ _ PU
             (extends_quietly_trans _ _ _ (removed_quiet env p w4)
                (Cl (removed env p w4) db))).
  - exact (extends_quietly_trans _ _ _ PU
             (extends_quietly_trans _ _ _ (removed_quiet env p w4)
                (extends_quietly_trans _ _ _ (Cl (removed env p w4) db)
                   (Lg (closed db (removed env p w4)) e)))).
Qed.

(** X21.  Whatever level was in force before, everything written to the log in the
    course of a run is at or above the level the manager was given: [run]
    sets the level before it logs anything and nothing changes it again.  When
    the log directory cannot be made the level is not set at all, and the one
    line written is the error. *)
Theorem run_log_level env fuel m w (lvl0 : Level) :
  exists L,
    Logger_output lvl0 (trace (snd (run env fuel m w)))
    = (Logger_output lvl0 (trace w) ++ L)%list
    /\ Forall (fun p => rank (logLevel m) <= rank (fst p)) L
    /\ level_after lvl0 (trace (snd (run env fuel m w)))
       = match create_directories env "logs" with
         | None => logLevel m
         | Some _ => level_after lvl0 (trace w)
         end.
Proof. exact (run_levels env fuel m w lvl0). Qed.


Section OpeningLine.
Import Cli.

(** X22.  The opening line of [main] is logged before [run] sets the level, under
    the level the logger starts with ([DEBUG]): in a fresh process it is
    written whatever [--log-level] asks for, and it is the first line of the
    log; the level asked for governs every line after it. *)
Theorem main_opening_line h env fuel exe args c w :
  trace w = [] ->
  let out := main h env fuel exe args (c, w) in
  ((fst out = Ok EXIT_INVALID_ARGS \/ fst out = Ok EXIT_CONFIG_ERROR)
   /\ trace (snd (snd out)) = [])
  \/ (exists m L,
        accepted h args m
        /\ Logger_output DEBUG (trace (snd (snd out))) = (INFO, start_line m) :: L
        /\ Forall (fun p => rank (logLevel m) <= rank (fst p)) L).
Proof.
  intros Hw out. unfold out.
  destruct (main_cases h env fuel exe args c w)
    as [[code [l [E [Hc _]]]] | [m [A [Hlen E]]]]; rewrite E; cbn [fst snd].
  - left. split; [|exact Hw]. destruct Hc as [->|[-> _]]; [left | right]; reflexivity.
  - right. exists m.
    destruct (run_levels env fuel m (emit (EvLog INFO (start_line m)) w) DEBUG)
      as [L [EL [FL _]]].
    exists L. split; [exact A | split; [|exact FL]].
    rewrite EL. unfold emit. cbn [trace]. rewrite Hw. reflexivity.
Qed.

Lemma main_opening_line_witness :
  exists L,
    Logger_output DEBUG
      (trace (snd (snd (main bare_host Scenario.offline 10 "backup"
                          (positional ++ ["--log-level=error"]) ([], Scenario.empty_disk)))))
    = (INFO, "Starting backup. FTP host: ftp.example.org:21, user: user, pass: ******") :: L
    /\ Forall (fun p => fst p = ERROR) L.
Proof.
  destruct (main_opening_line bare_host Scenario.offline 10 "backup"
              (positional ++ ["--log-level=error"]) [] Scenario.empty_disk eq_refl)
    as [[_ T] | [m [L [A [E F]]]]].
  - vm_compute in T. discriminate.
  - exists (tl (Logger_output DEBUG
                  (trace (snd (snd (main bare_host Scenario.offline 10 "backup"
                                      (positional ++ ["--log-level=error"])
                                      ([], Scenario.empty_disk))))))).
    split; vm_compute; [reflexivity | repeat constructor].
Defined.
End OpeningLine.
